(** * lightning-agent: escrow manager and streaming payments

    A shallow embedding of [lib/escrow.js] and [lib/stream.js] and the
    properties of their state machines.

    Conventions of the embedding.
    - JavaScript numbers that hold timestamps or amounts are integers ([Z]);
      the counters and prices that the streaming provider makes itself are
      naturals ([N]).
    - [null]/[undefined] are [None]; the truthiness test of JavaScript is
      written out ([truthy], [truthyZ]): the empty string and [0] are falsy.
    - A [Map] is a [gmap]; where the code iterates a [Map] its insertion
      order is kept next to it.
    - Objects that the code shares by reference (the [history] array and the
      [metadata] object of an escrow) live in a heap and the record holds
      their location, so that a spread copy [{ ...e }] copies the location
      and not the contents.
    - [Date.now()], [crypto.randomBytes] and the wallet are inputs of the
      operations; a promise of the wallet is [Resolved] or [Rejected].
    - The observer [onStateChange] of a manager is a callback that
      returns; what it is told is recorded. *)

From Stdlib Require Import ZArith NArith Ascii String List Bool Lia Sorted.
From stdpp Require Import base option gmap strings list fin_maps.

Local Open Scope string_scope.
Local Open Scope Z_scope.

(** ** JavaScript idioms *)

Definition truthy (o : option string) : bool :=
  match o with
  | Some s => negb (String.eqb s EmptyString)
  | None => false
  end.

Definition truthyZ (o : option Z) : bool :=
  match o with
  | Some z => negb (Z.eqb z 0)
  | None => false
  end.

(** [a || b] on nullable strings and numbers *)
Definition or_str (a : option string) (b : string) : string :=
  match a with
  | Some s => if String.eqb s EmptyString then b else s
  | None => b
  end.

Definition or_null (a : option string) : option string :=
  if truthy a then a else None.

Definition or_Z (a : option Z) (b : Z) : Z :=
  match a with
  | Some z => if Z.eqb z 0 then b else z
  | None => b
  end.

(** [Math.ceil(x / 1000)] on integers *)
Definition ceil_div_1000 (x : Z) : Z := - ((- x) / 1000).

(** The result of awaiting a promise. *)
Inductive Promise (A : Type) : Type :=
  | Resolved (a : A)
  | Rejected (msg : string).
Arguments Resolved {A} a.
Arguments Rejected {A} msg.

(** * Escrow ([lib/escrow.js]) *)

Module Escrow.

(** Escrow states (the [State] table of the source). *)
Inductive State : Type :=
  | CREATED | FUNDED | DELIVERED | RELEASED | REFUNDED | EXPIRED | DISPUTED.

#[global] Instance State_eq_dec : EqDecision State.
Proof. solve_decision. Defined.

Definition state_name (s : State) : string :=
  match s with
  | CREATED => "created"
  | FUNDED => "funded"
  | DELIVERED => "delivered"
  | RELEASED => "released"
  | REFUNDED => "refunded"
  | EXPIRED => "expired"
  | DISPUTED => "disputed"
  end.

(** Heap locations of the shared [history] arrays and [metadata] objects. *)
Abbreviation loc := positive.

(** One entry of [history]: [{ from, to, at }]. *)
Record HistEntry : Type := mkHist {
  h_from : option State;
  h_to : State;
  h_at : Z
}.

(** Values stored under the keys of a [metadata] object. *)
Inductive MetaVal : Type :=
  | MStr (s : string)
  | MDispute (reason raisedBy : option string) (at_ : Z).

(** The escrow object built by [create]. *)
Record Escrow : Type := mkEscrow {
  id : string;
  state : State;
  amountSats : Z;
  description : option string;
  workerAddress : option string;
  workerInvoice : option string;
  clientPubkey : option string;
  workerPubkey : option string;
  metadata : loc;
  invoice : string;
  paymentHash : option string;
  deadline : Z;
  createdAt : Z;
  updatedAt : Z;
  fundedAt : option Z;
  deliveredAt : option Z;
  releasedAt : option Z;
  refundedAt : option Z;
  deliveryProof : option string;
  releasePreimage : option string;
  refundAddress : option string;
  history : loc
}.

(** Field assignments [e.f = v] used by the source. *)
Definition set_state (v : State) (e : Escrow) : Escrow :=
  mkEscrow (id e) v (amountSats e) (description e) (workerAddress e)
    (workerInvoice e) (clientPubkey e) (workerPubkey e) (metadata e)
    (invoice e) (paymentHash e) (deadline e) (createdAt e) (updatedAt e)
    (fundedAt e) (deliveredAt e) (releasedAt e) (refundedAt e)
    (deliveryProof e) (releasePreimage e) (refundAddress e) (history e).

Definition set_updatedAt (v : Z) (e : Escrow) : Escrow :=
  mkEscrow (id e) (state e) (amountSats e) (description e) (workerAddress e)
    (workerInvoice e) (clientPubkey e) (workerPubkey e) (metadata e)
    (invoice e) (paymentHash e) (deadline e) (createdAt e) v
    (fundedAt e) (deliveredAt e) (releasedAt e) (refundedAt e)
    (deliveryProof e) (releasePreimage e) (refundAddress e) (history e).

Definition set_fundedAt (v : option Z) (e : Escrow) : Escrow :=
  mkEscrow (id e) (state e) (amountSats e) (description e) (workerAddress e)
    (workerInvoice e) (clientPubkey e) (workerPubkey e) (metadata e)
    (invoice e) (paymentHash e) (deadline e) (createdAt e) (updatedAt e)
    v (deliveredAt e) (releasedAt e) (refundedAt e)
    (deliveryProof e) (releasePreimage e) (refundAddress e) (history e).

Definition set_deliveredAt (v : option Z) (e : Escrow) : Escrow :=
  mkEscrow (id e) (state e) (amountSats e) (description e) (workerAddress e)
    (workerInvoice e) (clientPubkey e) (workerPubkey e) (metadata e)
    (invoice e) (paymentHash e) (deadline e) (createdAt e) (updatedAt e)
    (fundedAt e) v (releasedAt e) (refundedAt e)
    (deliveryProof e) (releasePreimage e) (refundAddress e) (history e).

Definition set_releasedAt (v : option Z) (e : Escrow) : Escrow :=
  mkEscrow (id e) (state e) (amountSats e) (description e) (workerAddress e)
    (workerInvoice e) (clientPubkey e) (workerPubkey e) (metadata e)
    (invoice e) (paymentHash e) (deadline e) (createdAt e) (updatedAt e)
    (fundedAt e) (deliveredAt e) v (refundedAt e)
    (deliveryProof e) (releasePreimage e) (refundAddress e) (history e).

Definition set_refundedAt (v : option Z) (e : Escrow) : Escrow :=
  mkEscrow (id e) (state e) (amountSats e) (description e) (workerAddress e)
    (workerInvoice e) (clientPubkey e) (workerPubkey e) (metadata e)
    (invoice e) (paymentHash e) (deadline e) (createdAt e) (updatedAt e)
    (fundedAt e) (deliveredAt e) (releasedAt e) v
    (deliveryProof e) (releasePreimage e) (refundAddress e) (history e).

Definition set_deliveryProof (v : option string) (e : Escrow) : Escrow :=
  mkEscrow (id e) (state e) (amountSats e) (description e) (workerAddress e)
    (workerInvoice e) (clientPubkey e) (workerPubkey e) (metadata e)
    (invoice e) (paymentHash e) (deadline e) (createdAt e) (updatedAt e)
    (fundedAt e) (deliveredAt e) (releasedAt e) (refundedAt e)
    v (releasePreimage e) (refundAddress e) (history e).

Definition set_releasePreimage (v : option string) (e : Escrow) : Escrow :=
  mkEscrow (id e) (state e) (amountSats e) (description e) (workerAddress e)
    (workerInvoice e) (clientPubkey e) (workerPubkey e) (metadata e)
    (invoice e) (paymentHash e) (deadline e) (createdAt e) (updatedAt e)
    (fundedAt e) (deliveredAt e) (releasedAt e) (refundedAt e)
    (deliveryProof e) v (refundAddress e) (history e).

Definition set_refundAddress (v : option string) (e : Escrow) : Escrow :=
  mkEscrow (id e) (state e) (amountSats e) (description e) (workerAddress e)
    (workerInvoice e) (clientPubkey e) (workerPubkey e) (metadata e)
    (invoice e) (paymentHash e) (deadline e) (createdAt e) (updatedAt e)
    (fundedAt e) (deliveredAt e) (releasedAt e) (refundedAt e)
    (deliveryProof e) (releasePreimage e) v (history e).

(** The wallet capability, as far as the escrow manager calls it.
    A rejected promise carries the wallet's error message. *)
Record InvoiceResult : Type := mkInvoice {
  inv_invoice : string;
  inv_paymentHash : option string
}.

Record Wallet : Type := mkWallet {
  createInvoice : Z -> string -> Z -> Promise InvoiceResult;
  waitForPayment : string -> Z -> Promise bool;   (* resolves to [result.paid] *)
  payInvoice : string -> Promise (option string); (* resolves to [payResult.preimage] *)
  payAddress : string -> Z -> string -> Promise (option string)
}.

(** The calls made on the wallet, in order. *)
Inductive WalletCall : Type :=
  | CallCreateInvoice (amount : Z) (descr : string) (expiry : Z)
  | CallWaitForPayment (hash : string) (timeoutMs : Z)
  | CallPayInvoice (inv : string)
  | CallPayAddress (addr : string) (amount : Z) (comment : string).

(** The [throw] sites of the source. *)
Inductive Error : Type :=
  | UnknownEscrow (id : string)
  | AmountNotPositive
  | DestinationRequired
  | CannotFund (s : State)
  | PaymentNotReceived
  | CannotDeliver (s : State)
  | CannotRelease (s : State)
  | NoWorkerDestination
  | CannotRefundReleased
  | AlreadyRefunded
  | CannotDispute (s : State)
  | WalletError (msg : string).

Definition message (e : Error) : string :=
  match e with
  | UnknownEscrow i => "Unknown escrow: " ++ i
  | AmountNotPositive => "amountSats must be positive"
  | DestinationRequired => "workerAddress or workerInvoice required"
  | CannotFund s => "Cannot fund escrow in state: " ++ state_name s
  | PaymentNotReceived => "Payment not received within timeout"
  | CannotDeliver s => "Cannot deliver on escrow in state: " ++ state_name s
  | CannotRelease s => "Cannot release escrow in state: " ++ state_name s
  | NoWorkerDestination => "No worker payment destination"
  | CannotRefundReleased => "Cannot refund — already released"
  | AlreadyRefunded => "Already refunded"
  | CannotDispute s => "Cannot dispute — escrow already " ++ state_name s
  | WalletError msg => msg
  end.

(** The closure state of [createEscrowManager]: the [escrows] and [timers]
    maps, the heap reached from the escrow objects, and the two traces of
    what the manager did to the outside (observer calls, wallet calls). *)
Record Manager : Type := mkManager {
  defaultDeadlineMs : Z;
  onStateChange : bool;                     (* is a callback registered *)
  escrows : gmap string Escrow;
  order : list string;                      (* insertion order of [escrows] *)
  histories : gmap loc (list HistEntry);
  metas : gmap loc (gmap string MetaVal);
  timers : gmap string Z;                   (* id -> delay of the pending timeout *)
  notified : list (string * State * State); (* calls of [onStateChange] *)
  calls : list WalletCall
}.

Definition with_escrows (f : gmap string Escrow -> gmap string Escrow) (m : Manager) :=
  mkManager (defaultDeadlineMs m) (onStateChange m) (f (escrows m)) (order m)
    (histories m) (metas m) (timers m) (notified m) (calls m).
Definition with_order (f : list string -> list string) (m : Manager) :=
  mkManager (defaultDeadlineMs m) (onStateChange m) (escrows m) (f (order m))
    (histories m) (metas m) (timers m) (notified m) (calls m).
Definition with_histories
    (f : gmap loc (list HistEntry) -> gmap loc (list HistEntry)) (m : Manager) :=
  mkManager (defaultDeadlineMs m) (onStateChange m) (escrows m) (order m)
    (f (histories m)) (metas m) (timers m) (notified m) (calls m).
Definition with_metas
    (f : gmap loc (gmap string MetaVal) -> gmap loc (gmap string MetaVal)) (m : Manager) :=
  mkManager (defaultDeadlineMs m) (onStateChange m) (escrows m) (order m)
    (histories m) (f (metas m)) (timers m) (notified m) (calls m).
Definition with_timers (f : gmap string Z -> gmap string Z) (m : Manager) :=
  mkManager (defaultDeadlineMs m) (onStateChange m) (escrows m) (order m)
    (histories m) (metas m) (f (timers m)) (notified m) (calls m).
Definition with_notified
    (f : list (string * State * State) -> list (string * State * State)) (m : Manager) :=
  mkManager (defaultDeadlineMs m) (onStateChange m) (escrows m) (order m)
    (histories m) (metas m) (timers m) (f (notified m)) (calls m).
Definition with_calls (f : list WalletCall -> list WalletCall) (m : Manager) :=
  mkManager (defaultDeadlineMs m) (onStateChange m) (escrows m) (order m)
    (histories m) (metas m) (timers m) (notified m) (f (calls m)).

(** [createEscrowManager(wallet, opts)]: the initial closure. *)
Definition createEscrowManager (opt_defaultDeadlineMs : option Z)
    (opt_onStateChange : bool) : Manager :=
  mkManager (or_Z opt_defaultDeadlineMs (60 * 60 * 1000)) opt_onStateChange
    ∅ [] ∅ ∅ ∅ [] [].

(** ** The monad of manager operations: state and exceptions *)

Inductive Outcome (A : Type) : Type :=
  | Return (a : A) (m : Manager)
  | Throw (e : Error) (m : Manager).
Arguments Return {A} a m.
Arguments Throw {A} e m.

Definition M (A : Type) : Type := Manager -> Outcome A.

Definition ret {A} (a : A) : M A := fun m => Return a m.
Definition throw {A} (e : Error) : M A := fun m => Throw e m.
Definition bind {A B} (c : M A) (k : A -> M B) : M B :=
  fun m => match c m with
           | Return a m' => k a m'
           | Throw e m' => Throw e m'
           end.
Definition gets {A} (f : Manager -> A) : M A := fun m => Return (f m) m.
Definition modify (f : Manager -> Manager) : M unit := fun m => Return tt (f m).

Declare Scope mgr_scope.
Delimit Scope mgr_scope with mgr.
Notation "'let*' x ':=' c 'in' k" := (bind c (fun x => k))
  (at level 10, x name, c at level 100, k at level 200) : mgr_scope.
Local Open Scope mgr_scope.

Definition final {A} (o : Outcome A) : Manager :=
  match o with Return _ m => m | Throw _ m => m end.

(** [await wallet.f(...)]: the call is recorded, a rejection is thrown. *)
Definition await {A} (c : WalletCall) (p : Promise A) : M A :=
  let* _ := modify (with_calls (fun l => (l ++ [c])%list)) in
  match p with
  | Resolved a => ret a
  | Rejected msg => throw (WalletError msg)
  end.

(** [escrows.get(id)] followed by [if (!e) throw ...] *)
Definition lookup_escrow (i : string) : M Escrow :=
  let* e := gets (fun m => escrows m !! i) in
  match e with
  | Some e => ret e
  | None => throw (UnknownEscrow i)
  end.

(** An assignment to a field of the stored object. *)
Definition update_escrow (i : string) (f : Escrow -> Escrow) : M unit :=
  modify (with_escrows (alter f i)).

(** [arr.push(x)] on the array at location [l]. *)
Definition push {A} (l : loc) (x : A) (h : gmap loc (list A)) : gmap loc (list A) :=
  <[l := (default [] (h !! l) ++ [x])%list]> h.

(** [obj[k] = v] on the object at location [l]. *)
Definition set_key (l : loc) (k : string) (v : MetaVal)
    (h : gmap loc (gmap string MetaVal)) : gmap loc (gmap string MetaVal) :=
  <[l := <[k := v]> (default ∅ (h !! l))]> h.

(** Allocation of a fresh array, of a fresh object. *)
Definition alloc_history (v : list HistEntry) : M loc :=
  let* l := gets (fun m => fresh (dom (histories m))) in
  let* _ := modify (with_histories <[l := v]>) in
  ret l.

Definition alloc_meta (v : gmap string MetaVal) : M loc :=
  let* l := gets (fun m => fresh (dom (metas m))) in
  let* _ := modify (with_metas <[l := v]>) in
  ret l.

(** A reference to an object of the caller: the object is part of the heap
    from now on, empty if the heap did not hold it yet, so that no object
    made later takes its place. *)
Definition adopt_meta (l : loc) : M loc :=
  let* _ := modify (with_metas (fun h => <[l := default ∅ (h !! l)]> h)) in
  ret l.

(** [escrows.set(id, e)]: a new key goes to the end of the iteration order. *)
Definition set_escrow (i : string) (e : Escrow) : M unit :=
  modify (fun m =>
    with_order (fun o => if bool_decide (is_Some (escrows m !! i)) then o
                         else (o ++ [i])%list)
      (with_escrows <[i := e]> m)).

(** [s === State.FUNDED || s === State.CREATED] *)
Definition funded_or_created (s : State) : bool :=
  bool_decide (s = FUNDED) || bool_decide (s = CREATED).

(** [transition(id, newState)]; [now] is the value of [Date.now()]. The
    observer, when there is one, is called last and returns. *)
Definition transition (i : string) (newState : State) (now : Z) : M Escrow :=
  let* e := lookup_escrow i in
  let old := state e in
  let* _ := update_escrow i (fun e => set_updatedAt now (set_state newState e)) in
  let* _ := modify (with_histories (push (history e) (mkHist (Some old) newState now))) in
  let* cb := gets onStateChange in
  let* _ := (if cb then modify (with_notified (fun l => (l ++ [(i, old, newState)])%list))
             else ret tt) in
  lookup_escrow i.

(** [setTimeout(f, ms)] of Node arms the timer for [ms] milliseconds when
    [1 <= ms <= TIMEOUT_MAX], and for 1 millisecond otherwise. *)
Definition TIMEOUT_MAX : Z := 2147483647.

Definition setTimeout_delay (ms : Z) : Z :=
  if (1 <=? ms) && (ms <=? TIMEOUT_MAX) then ms else 1.

(** [startDeadlineTimer(id)]; [now] is read for [remaining], [tnow] by
    [transition]. The entry of [timers] holds the delay that the timer is
    armed for. *)
Definition startDeadlineTimer (i : string) (now tnow : Z) : M unit :=
  let* eo := gets (fun m => escrows m !! i) in
  match eo with
  | None => ret tt
  | Some e =>
      if Z.eqb (deadline e) 0 then ret tt
      else
        let remaining := deadline e - now in
        if remaining <=? 0 then
          if funded_or_created (state e)
          then let* _ := transition i EXPIRED tnow in ret tt
          else ret tt
        else modify (with_timers <[i := setTimeout_delay remaining]>)
  end.

(** The callback given to [setTimeout] by [startDeadlineTimer], run when
    the timer fires. *)
Definition deadlineTimerFired (i : string) (tnow : Z) : M unit :=
  let* cur := gets (fun m => escrows m !! i) in
  let* _ := match cur with
            | Some c =>
                if funded_or_created (state c)
                then let* _ := transition i EXPIRED tnow in ret tt
                else ret tt
            | None => ret tt
            end in
  modify (with_timers (delete i)).

(** The cancellation [const timer = timers.get(id); if (timer) { ... }]. *)
Definition cancelTimer (i : string) : M unit :=
  modify (with_timers (delete i)).

(** The [config] argument of [create]. [c_metadata] is a reference to an
    object of the caller, when one is given. *)
Record Config : Type := mkConfig {
  c_amountSats : option Z;
  c_workerAddress : option string;
  c_workerInvoice : option string;
  c_description : option string;
  c_deadlineMs : option Z;
  c_clientPubkey : option string;
  c_workerPubkey : option string;
  c_metadata : option loc
}.

(** The [opts] argument of [fund]. *)
Record FundOpts : Type := mkFundOpts {
  autoDetect : option bool;
  timeoutMs : option Z
}.

(** The methods of the object returned by [createEscrowManager]. Every
    method is given whole: it runs from its call to its return without
    another method of the same manager, or a deadline timer, running in
    between. The halves of [fund], [release] and [refund] before and after
    their [await], between which the code lets other calls run, are in
    [EscrowPhases]. *)
Module EscrowManager.

(** [create(config)]; [i] is the random id, [now] the time read by
    [create], [now'] and [tnow] those read by [startDeadlineTimer] and
    [transition]. *)
Definition create (w : Wallet) (config : Config) (i : string) (now now' tnow : Z)
    : M Escrow :=
  if negb (truthyZ (c_amountSats config)) || (default 0 (c_amountSats config) <=? 0)
  then throw AmountNotPositive
  else if negb (truthy (c_workerAddress config)) && negb (truthy (c_workerInvoice config))
  then throw DestinationRequired
  else
    let amount := default 0 (c_amountSats config) in
    let* dflt := gets defaultDeadlineMs in
    let deadlineMs := or_Z (c_deadlineMs config) dflt in
    let descr := "Escrow: " ++ or_str (c_description config) i in
    let expiry := ceil_div_1000 deadlineMs in
    let* inv := await (CallCreateInvoice amount descr expiry)
                      (createInvoice w amount descr expiry) in
    let* ml := match c_metadata config with
               | Some l => adopt_meta l
               | None => alloc_meta ∅
               end in
    let* hl := alloc_history [mkHist None CREATED now] in
    let escrow :=
      mkEscrow i CREATED amount (or_null (c_description config))
        (or_null (c_workerAddress config)) (or_null (c_workerInvoice config))
        (or_null (c_clientPubkey config)) (or_null (c_workerPubkey config))
        ml (inv_invoice inv) (inv_paymentHash inv) (now + deadlineMs)
        now now None None None None None None None hl in
    let* _ := set_escrow i escrow in
    let* _ := startDeadlineTimer i now' tnow in
    lookup_escrow i.

(** The confirmation awaited by [fund]: none when [opts.autoDetect] is
    [false] or the escrow has no payment hash. *)
Definition fund_wait (w : Wallet) (e : Escrow) (opts : FundOpts)
    : option (WalletCall * Promise bool) :=
  let auto := negb (bool_decide (autoDetect opts = Some false)) in
  if auto && truthy (paymentHash e) then
    let h := default EmptyString (paymentHash e) in
    let t := or_Z (timeoutMs opts) 60000 in
    Some (CallWaitForPayment h t, waitForPayment w h t)
  else None.

(** [fund(id, opts)] *)
Definition fund (w : Wallet) (i : string) (opts : FundOpts) (now tnow : Z) : M Escrow :=
  let* e := lookup_escrow i in
  if negb (bool_decide (state e = CREATED)) then throw (CannotFund (state e))
  else
    let* _ := match fund_wait w e opts with
              | Some (c, p) =>
                  let* paid := await c p in
                  if paid : bool then ret tt else throw PaymentNotReceived
              | None => ret tt
              end in
    let* _ := update_escrow i (set_fundedAt (Some now)) in
    transition i FUNDED tnow.

(** [deliver(id, proof)] *)
Definition deliver (i : string) (proof : option string) (now tnow : Z) : M Escrow :=
  let* e := lookup_escrow i in
  if negb (bool_decide (state e = FUNDED)) then throw (CannotDeliver (state e))
  else
    let* _ := update_escrow i (fun e => set_deliveredAt (Some now) (set_deliveryProof proof e)) in
    transition i DELIVERED tnow.

(** The payment chosen by [release]: the worker's invoice when there is
    one, else the worker's address, else none. *)
Definition worker_payment (w : Wallet) (e : Escrow)
    : option (WalletCall * Promise (option string)) :=
  if truthy (workerInvoice e) then
    let inv := default EmptyString (workerInvoice e) in
    Some (CallPayInvoice inv, payInvoice w inv)
  else if truthy (workerAddress e) then
    let addr := default EmptyString (workerAddress e) in
    let comment := "Escrow release: " ++ or_str (description e) (id e) in
    Some (CallPayAddress addr (amountSats e) comment,
          payAddress w addr (amountSats e) comment)
  else None.

(** [release(id)] *)
Definition release (w : Wallet) (i : string) (now tnow : Z) : M Escrow :=
  let* e := lookup_escrow i in
  if negb (bool_decide (state e = FUNDED)) && negb (bool_decide (state e = DELIVERED))
  then throw (CannotRelease (state e))
  else
    let* preimage := match worker_payment w e with
                     | Some (c, p) => await c p
                     | None => throw NoWorkerDestination
                     end in
    let* _ := update_escrow i (fun e => set_releasedAt (Some now) (set_releasePreimage preimage e)) in
    let* _ := cancelTimer i in
    transition i RELEASED tnow.

(** The payment made by [refund] when a refund address is given. *)
Definition refund_payment (w : Wallet) (e : Escrow) (refundAddr reason : option string)
    : option (WalletCall * Promise (option string)) :=
  if truthy refundAddr then
    let addr := default EmptyString refundAddr in
    let comment := "Escrow refund: " ++ or_str reason (id e) in
    Some (CallPayAddress addr (amountSats e) comment,
          payAddress w addr (amountSats e) comment)
  else None.

(** [refund(id, refundAddress, reason)] *)
Definition refund (w : Wallet) (i : string) (refundAddr reason : option string)
    (now tnow : Z) : M Escrow :=
  let* e := lookup_escrow i in
  if bool_decide (state e = RELEASED) then throw CannotRefundReleased
  else if bool_decide (state e = REFUNDED) then throw AlreadyRefunded
  else
    let* _ := match refund_payment w e refundAddr reason with
              | Some (c, p) => let* _ := await c p in ret tt
              | None => ret tt
              end in
    let* _ := update_escrow i (fun e => set_refundedAt (Some now) (set_refundAddress refundAddr e)) in
    let* _ := modify (with_metas (set_key (metadata e) "refundReason"
                                    (MStr (or_str reason "manual")))) in
    let* _ := cancelTimer i in
    transition i REFUNDED tnow.

(** [dispute(id, reason, raisedBy)] *)
Definition dispute (i : string) (reason raisedBy : option string) (now tnow : Z)
    : M Escrow :=
  let* e := lookup_escrow i in
  if bool_decide (state e = RELEASED) || bool_decide (state e = REFUNDED)
  then throw (CannotDispute (state e))
  else
    let* _ := modify (with_metas (set_key (metadata e) "dispute"
                                    (MDispute reason raisedBy now))) in
    transition i DISPUTED tnow.

(** [get(id)]: a spread copy of the stored object, or [null]. *)
Definition get (i : string) : M (option Escrow) :=
  gets (fun m => escrows m !! i).

(** [close()] *)
Definition close : M unit := modify (with_timers (fun _ => ∅)).

(** [list(state)]: spread copies of the stored objects in insertion order. *)
Definition list (st : option State) : M (Datatypes.list Escrow) :=
  gets (fun m =>
    let all := omap (fun i => escrows m !! i) (order m) in
    match st with
    | Some s => List.filter (fun e => bool_decide (state e = s)) all
    | None => all
    end).

End EscrowManager.

(** ** Vocabulary of the properties *)

(** The operations that can move an escrow: the five methods and the
    firing of the deadline timer. *)
Inductive Op : Type :=
  | OpFund (opts : FundOpts)
  | OpDeliver (proof : option string)
  | OpRelease
  | OpRefund (refundAddr reason : option string)
  | OpDispute (reason raisedBy : option string)
  | OpDeadline.

Definition run_op (w : Wallet) (i : string) (op : Op) (now tnow : Z) : M unit :=
  match op with
  | OpFund opts => let* _ := EscrowManager.fund w i opts now tnow in ret tt
  | OpDeliver proof => let* _ := EscrowManager.deliver i proof now tnow in ret tt
  | OpRelease => let* _ := EscrowManager.release w i now tnow in ret tt
  | OpRefund a r => let* _ := EscrowManager.refund w i a r now tnow in ret tt
  | OpDispute r b => let* _ := EscrowManager.dispute i r b now tnow in ret tt
  | OpDeadline => deadlineTimerFired i tnow
  end.

(** The contents of the [history] array and of the [metadata] object that
    an escrow object points to. *)
Definition hist (m : Manager) (e : Escrow) : list HistEntry :=
  default [] (histories m !! history e).

Definition meta (m : Manager) (e : Escrow) : gmap string MetaVal :=
  default ∅ (metas m !! metadata e).

(** What a reader of an escrow object sees: its own fields and what its
    references lead to. *)
Record Snapshot : Type := mkSnapshot {
  snap_fields : Escrow;
  snap_history : list HistEntry;
  snap_metadata : gmap string MetaVal
}.

Definition observe (m : Manager) (e : Escrow) : Snapshot :=
  mkSnapshot e (hist m e) (meta m e).

(** The engine-internal record of an escrow. *)
Definition internal (m : Manager) (i : string) : option Snapshot :=
  observe m <$> escrows m !! i.

(** What a caller can do to an object it was handed: assign to its fields
    ([copy.f = v], any function of the fields), push onto its [history],
    set a key of its [metadata]. The last two write through the
    references, into the heap that the manager reads. *)
Inductive Mutation : Type :=
  | AssignFields (f : Escrow -> Escrow)
  | PushHistory (h : HistEntry)
  | SetMetadata (k : string) (v : MetaVal).

Definition mutate (mu : Mutation) (copy : Escrow) (m : Manager) : Escrow * Manager :=
  match mu with
  | AssignFields f => (f copy, m)
  | PushHistory h => (copy, with_histories (push (history copy) h) m)
  | SetMetadata k v => (copy, with_metas (set_key (metadata copy) k v) m)
  end.

(** The source throws plain [Error] objects. The error classes of the
    specification name its throw sites as follows. *)
Definition StateConflictError (e : Error) : bool :=
  match e with
  | CannotFund _ | CannotDeliver _ | CannotRelease _
  | CannotRefundReleased | AlreadyRefunded | CannotDispute _ => true
  | _ => false
  end.

Definition PaymentFailedError (e : Error) : bool :=
  match e with WalletError _ => true | _ => false end.


(** The transition table of the specification. *)
Definition spec_table (from to : State) : bool :=
  match from, to with
  | CREATED, FUNDED | CREATED, EXPIRED
  | FUNDED, DELIVERED | FUNDED, RELEASED | FUNDED, REFUNDED
  | FUNDED, EXPIRED | FUNDED, DISPUTED
  | DELIVERED, RELEASED | DELIVERED, REFUNDED | DELIVERED, DISPUTED => true
  | _, _ => false
  end.

(** The table extended by what the guards of [refund] and [dispute] also
    let through: from [CREATED], from [DISPUTED] and from [EXPIRED]. *)
Definition code_table (from to : State) : bool :=
  spec_table from to ||
  match from, to with
  | CREATED, REFUNDED | DISPUTED, REFUNDED | EXPIRED, REFUNDED
  | CREATED, DISPUTED | DISPUTED, DISPUTED | EXPIRED, DISPUTED => true
  | _, _ => false
  end.

(** The transition that each operation makes from a state, read off the
    guards of the methods ([None]: rejected, or nothing to do). *)
Definition target (op : Op) (from : State) : option State :=
  match op with
  | OpFund _ => if bool_decide (from = CREATED) then Some FUNDED else None
  | OpDeliver _ => if bool_decide (from = FUNDED) then Some DELIVERED else None
  | OpRelease =>
      if bool_decide (from = FUNDED) || bool_decide (from = DELIVERED)
      then Some RELEASED else None
  | OpRefund _ _ =>
      if bool_decide (from = RELEASED) || bool_decide (from = REFUNDED)
      then None else Some REFUNDED
  | OpDispute _ _ =>
      if bool_decide (from = RELEASED) || bool_decide (from = REFUNDED)
      then None else Some DISPUTED
  | OpDeadline => if funded_or_created from then Some EXPIRED else None
  end.

(** The manager went from [m] to [m'] by one transition of escrow [i],
    whose object was [e] and is now [e'], into state [to]: one entry was
    pushed onto its history, and the observer, if any, was told. *)
Definition moved (m m' : Manager) (i : string) (e e' : Escrow) (to : State)
    (tnow : Z) : Prop :=
  escrows m' !! i = Some e' /\ state e' = to /\ history e' = history e /\
  hist m' e = (hist m e ++ [mkHist (Some (state e)) to tnow])%list /\
  notified m' = (if onStateChange m then (notified m ++ [(i, state e, to)])%list
                 else notified m).

(** Operation [op] on escrow [i] succeeds from manager [m] and takes the
    escrow from state [from] to state [to]. *)
Definition moves (w : Wallet) (op : Op) (i : string) (now tnow : Z) (m : Manager)
    (from to : State) : Prop :=
  exists e e' m',
    escrows m !! i = Some e /\ state e = from /\
    run_op w i op now tnow m = Return tt m' /\
    moved m m' i e e' to tnow.

(** A wallet that confirms and pays whatever it is asked. *)
Definition cooperative : Wallet :=
  mkWallet
    (fun _ _ _ => Resolved (mkInvoice "lnbc500n1escrow" (Some "a1b2")))
    (fun _ _ => Resolved true)
    (fun _ => Resolved (Some "c3d4"))
    (fun _ _ _ => Resolved (Some "e5f6")).


(** A wallet whose every promise is rejected. *)
Definition failing : Wallet :=
  mkWallet
    (fun _ _ _ => Rejected "wallet offline")
    (fun _ _ => Rejected "wallet offline")
    (fun _ => Rejected "wallet offline")
    (fun _ _ _ => Rejected "wallet offline").

(** A manager with an observer and one escrow, ["e1"], brought into each
    state by calls of the methods, starting from [create]. *)
Definition sample_config : Config :=
  mkConfig (Some 500) (Some "worker@x") None (Some "translate") (Some 3600000)
    None None None.

Definition reach (s : State) : Manager :=
  let created :=
    final (EscrowManager.create cooperative sample_config "e1" 1000 1001 1002
             (createEscrowManager None true)) in
  let funded := final (EscrowManager.fund cooperative "e1" (mkFundOpts None None) 2000 2001 created) in
  let delivered := final (EscrowManager.deliver "e1" (Some "sha256ofwork") 3000 3001 funded) in
  match s with
  | CREATED => created
  | FUNDED => funded
  | DELIVERED => delivered
  | RELEASED => final (EscrowManager.release cooperative "e1" 4000 4001 delivered)
  | REFUNDED => final (EscrowManager.refund cooperative "e1" (Some "client@x") None 4000 4001 funded)
  | EXPIRED => final (deadlineTimerFired "e1" 3601000 funded)
  | DISPUTED => final (EscrowManager.dispute "e1" (Some "late") (Some "client") 4000 4001 delivered)
  end.

(** A history entry and a metadata value that the manager never wrote. *)
Definition forged : HistEntry := mkHist (Some CREATED) RELEASED 0.
Definition forged_reason : MetaVal := MStr "paid in full".

(** The operation whose transitions end in a given state. *)
Definition op_into (to : State) : Op :=
  match to with
  | FUNDED => OpFund (mkFundOpts None None)
  | DELIVERED => OpDeliver (Some "sha256ofwork")
  | RELEASED => OpRelease
  | REFUNDED => OpRefund None None
  | DISPUTED => OpDispute (Some "late") (Some "client")
  | EXPIRED | CREATED => OpDeadline
  end.

(** Everything of the manager but the trace of wallet calls. *)
Definition same_engine (m m' : Manager) : Prop :=
  defaultDeadlineMs m' = defaultDeadlineMs m /\
  onStateChange m' = onStateChange m /\
  escrows m' = escrows m /\
  order m' = order m /\
  histories m' = histories m /\
  metas m' = metas m /\
  timers m' = timers m /\
  notified m' = notified m.

End Escrow.

(** * Streaming payments ([lib/stream.js]) *)

Module Stream.

Local Open Scope N_scope.

Definition or_N (a : option N) (b : N) : N :=
  match a with
  | Some n => if N.eqb n 0 then b else n
  | None => b
  end.

(** ** Provider *)

(** [opts] of [createStreamProvider] and the constants of its closure. *)
Record ProviderOpts : Type := mkProviderOpts {
  o_satsPerBatch : option N;
  o_tokensPerBatch : option N;
  o_maxBatches : option N;
  o_paymentTimeoutMs : option Z;
  o_invoiceExpiryS : option N
}.

Record Provider : Type := mkProvider {
  satsPerBatch : N;
  tokensPerBatch : N;
  maxBatches : N;
  paymentTimeoutMs : Z;
  invoiceExpiryS : N
}.

Definition createStreamProvider (opts : ProviderOpts) : Provider :=
  mkProvider (or_N (o_satsPerBatch opts) 1) (or_N (o_tokensPerBatch opts) 50)
    (or_N (o_maxBatches opts) 100) (or_Z (o_paymentTimeoutMs opts) 30000)
    (or_N (o_invoiceExpiryS opts) 120).

(** [session.pendingPayment] and the session object. The [sessions] map
    of the closure is the store of the session objects. *)
Record Pending : Type := mkPending {
  p_paymentHash : option string;
  p_batchIndex : N;
  p_invoice : string
}.

Record Session : Type := mkSession {
  id : string;
  batchIndex : N;
  totalTokens : N;
  totalSats : N;
  pendingPayment : option Pending;
  paid : gset N;
  closed : bool
}.

Definition set_pendingPayment (v : option Pending) (s : Session) : Session :=
  mkSession (id s) (batchIndex s) (totalTokens s) (totalSats s) v (paid s) (closed s).
Definition set_paid (v : gset N) (s : Session) : Session :=
  mkSession (id s) (batchIndex s) (totalTokens s) (totalSats s) (pendingPayment s) v (closed s).
Definition set_closed (v : bool) (s : Session) : Session :=
  mkSession (id s) (batchIndex s) (totalTokens s) (totalSats s) (pendingPayment s) (paid s) v.
Definition set_totalSats (v : N) (s : Session) : Session :=
  mkSession (id s) (batchIndex s) (totalTokens s) v (pendingPayment s) (paid s) (closed s).
(** [session.paid.add(b); session.pendingPayment = null] *)
Definition mark_paid (b : N) (s : Session) : Session :=
  set_pendingPayment None (set_paid (paid s ∪ {[b]}) s).
(** [session.batchIndex++; session.totalTokens += tokenCount] *)
Definition flush_batch (tokenCount : N) (s : Session) : Session :=
  mkSession (id s) (batchIndex s + 1) (totalTokens s + tokenCount) (totalSats s)
    (pendingPayment s) (paid s) (closed s).

(** The events written by [sendSSE]. *)
Inductive DoneReason : Type := Complete | MaxBatches.

Definition reason_name (r : DoneReason) : string :=
  match r with Complete => "complete" | MaxBatches => "max_batches" end.

Inductive SSE : Type :=
  | EvSession (sessionId : string)
  | EvContent (tokens : string) (batchIdx tokenCount : N)
  | EvInvoice (inv : string) (hash : option string) (batchIdx sats : N)
  | EvPaused (batchIdx sats : N) (sessionId : string)
  | EvDone (reason : DoneReason) (batches sats tokens : N)
  | EvError (message : string).

Definition is_content (e : SSE) : bool :=
  match e with EvContent _ _ _ => true | _ => false end.
Definition is_invoice (e : SSE) : bool :=
  match e with EvInvoice _ _ _ _ => true | _ => false end.
Definition is_done (e : SSE) : bool :=
  match e with EvDone _ _ _ _ => true | _ => false end.
Definition is_paused (e : SSE) : bool :=
  match e with EvPaused _ _ _ => true | _ => false end.

(** The body of a proof POST after [JSON.parse]: [BadJson] when parsing
    throws (or yields [null]), else the two fields read from it, which
    the protocol has as strings. *)
Inductive Body : Type :=
  | BadJson
  | Json (sessionId preimage : option string).

(** The replies of [_handlePayment]. *)
Inductive Response : Type :=
  | Unlocked            (* 200 { status: 'ok', batchUnlocked: true } *)
  | UnknownSession      (* 404 { error: 'Unknown session' } *)
  | InvalidPreimage     (* 400 { error: 'Invalid preimage' } *)
  | NoPendingOrMissing  (* 400 { error: 'No pending payment or missing preimage' } *)
  | InvalidJson.        (* 400 { error: 'Invalid JSON' } *)

(** [Buffer.from(s, 'hex')]: pairs of hex digits, up to the first pair
    that is not one. *)
Definition hex_digit (c : ascii) : option N :=
  let n := N_of_ascii c in
  if (48 <=? n) && (n <=? 57) then Some (n - 48)
  else if (97 <=? n) && (n <=? 102) then Some (n - 87)
  else if (65 <=? n) && (n <=? 70) then Some (n - 55)
  else None.

Fixpoint hex_decode (s : string) : list Byte.byte :=
  match s with
  | String a (String b rest) =>
      match hex_digit a, hex_digit b with
      | Some x, Some y => default Byte.x00 (Byte.of_N (16 * x + y)) :: hex_decode rest
      | _, _ => []
      end
  | _ => []
  end.

(** What the environment does during one turn of the polling loop of
    [_waitForPayment]. *)
Record Round : Type := mkRound {
  r_now : Z;                      (* [Date.now()] at the loop test *)
  r_posts_wallet : list Body;     (* proof POSTs handled during the wallet poll *)
  r_wallet : Promise bool;        (* [wallet.waitForPayment]: [result.paid] *)
  r_posts_sleep : list Body       (* proof POSTs handled during the sleep *)
}.

(** What the environment does at one payment gate. *)
Record InvoiceResult : Type := mkInvoice {
  inv_invoice : string;
  inv_paymentHash : option string
}.

Record Gate : Type := mkGate {
  g_invoice : Promise InvoiceResult;  (* [wallet.createInvoice] *)
  g_start : Z;                        (* [Date.now()] read into [start] *)
  g_rounds : list Round
}.

(** The generator ends by returning or by throwing. *)
Inductive GenEnd : Type := GenReturn | GenThrow (msg : string).

(** How the [for await] loop of [handleRequest] is left. *)
Inductive Exit : Type := Finished | Broken | Thrown (msg : string).

Record Loop : Type := mkLoop {
  l_sessions : gmap string Session;
  l_events : list SSE;
  l_buffer : string;
  l_tokenCount : N
}.

Section Provider.

(** [crypto.createHash('sha256').update(b).digest('hex')] *)
Variable sha256_hex : list Byte.byte -> string.

(** [_handlePayment(req, res)], from the parsed body. *)
Definition _handlePayment (body : Body) (ss : gmap string Session)
    : Response * gmap string Session :=
  match body with
  | BadJson => (InvalidJson, ss)
  | Json sessionId preimage =>
      match sessionId with
      | None => (UnknownSession, ss)
      | Some sid =>
          match ss !! sid with
          | None => (UnknownSession, ss)
          | Some session =>
              match truthy preimage, pendingPayment session with
              | true, Some pp =>
                  let hash := sha256_hex (hex_decode (default EmptyString preimage)) in
                  if bool_decide (Some hash = p_paymentHash pp) then
                    (Unlocked, <[sid := mark_paid (p_batchIndex pp) session]> ss)
                  else (InvalidPreimage, ss)
              | _, _ => (NoPendingOrMissing, ss)
              end
          end
      end
  end.

Definition handle_posts (posts : list Body) (ss : gmap string Session)
    : gmap string Session :=
  fold_left (fun ss b => snd (_handlePayment b ss)) posts ss.

(** The [while] loop of [_waitForPayment]. [None]: the rounds given for
    the environment end before the loop does. *)
Fixpoint poll (sid : string) (batchIdx : N) (start timeoutMs : Z)
    (rounds : list Round) (ss : gmap string Session)
    : option (bool * gmap string Session) :=
  match rounds with
  | [] => None
  | r :: rest =>
      if negb (r_now r - start <? timeoutMs)%Z then Some (false, ss)
      else
        session ← ss !! sid;
        if bool_decide (batchIdx ∈ paid session) then Some (true, ss)
        else
          let ss1 := handle_posts (r_posts_wallet r) ss in
          match r_wallet r with
          | Resolved true =>
              Some (true, alter (mark_paid batchIdx) sid ss1)
          | _ => poll sid batchIdx start timeoutMs rest
                   (handle_posts (r_posts_sleep r) ss1)
          end
  end.

(** [_waitForPayment(session, timeoutMs)] *)
Definition _waitForPayment (sid : string) (timeoutMs start : Z)
    (rounds : list Round) (ss : gmap string Session)
    : option (bool * gmap string Session) :=
  session ← ss !! sid;
  match pendingPayment session with
  | None => Some (true, ss)
  | Some pp => poll sid (p_batchIndex pp) start timeoutMs rounds ss
  end.

Variable P : Provider.

(** The [for await (const token of gen)] loop of [handleRequest]. *)
Fixpoint produce (sid : string) (firstBatchFree : bool) (gates : N -> Gate)
    (toks : list string) (gend : GenEnd) (st : Loop) : option (Exit * Loop) :=
  match toks with
  | [] => Some (match gend with GenReturn => Finished | GenThrow msg => Thrown msg end, st)
  | tok :: rest =>
      session ← l_sessions st !! sid;
      if closed session then Some (Broken, st)
      else
        let buffer := (l_buffer st ++ tok)%string in
        let tokenCount := l_tokenCount st + 1 in
        if tokensPerBatch P <=? tokenCount then
          let s1 := flush_batch tokenCount session in
          let ss1 := <[sid := s1]> (l_sessions st) in
          let ev1 := (l_events st ++ [EvContent buffer (batchIndex s1) tokenCount])%list in
          if maxBatches P <=? batchIndex s1 then
            Some (Broken,
                  mkLoop ss1
                    (ev1 ++ [EvDone MaxBatches (batchIndex s1) (totalSats s1)
                               (totalTokens s1)])%list
                    EmptyString 0)
          else if negb (firstBatchFree && (batchIndex s1 =? 1)) then
            match g_invoice (gates (batchIndex s1)) with
            | Rejected msg => Some (Thrown msg, mkLoop ss1 ev1 EmptyString 0)
            | Resolved inv =>
                let pp := mkPending (inv_paymentHash inv) (batchIndex s1 + 1)
                            (inv_invoice inv) in
                let ss2 := <[sid := set_pendingPayment (Some pp) s1]> ss1 in
                let ev2 := (ev1 ++ [EvInvoice (inv_invoice inv) (inv_paymentHash inv)
                                      (batchIndex s1 + 1) (satsPerBatch P)])%list in
                '(confirmed, ss3) ← _waitForPayment sid (paymentTimeoutMs P)
                                      (g_start (gates (batchIndex s1)))
                                      (g_rounds (gates (batchIndex s1))) ss2;
                s3 ← ss3 !! sid;
                if confirmed : bool then
                  produce sid firstBatchFree gates rest gend
                    (mkLoop (<[sid := set_totalSats (totalSats s3 + satsPerBatch P) s3]> ss3)
                       ev2 EmptyString 0)
                else
                  Some (Broken,
                        mkLoop ss3
                          (ev2 ++ [EvPaused (batchIndex s3) (totalSats s3) sid])%list
                          EmptyString 0)
            end
          else produce sid firstBatchFree gates rest gend (mkLoop ss1 ev1 EmptyString 0)
        else produce sid firstBatchFree gates rest gend
               (mkLoop (l_sessions st) (l_events st) buffer tokenCount)
  end.

(** What follows the loop inside the [try]: the flush of the rest and the
    [done] event, or the [catch]. *)
Definition after_loop (sid : string) (exit : Exit) (st : Loop) : option Loop :=
  match exit with
  | Thrown msg =>
      Some (mkLoop (l_sessions st) (l_events st ++ [EvError msg])%list
              (l_buffer st) (l_tokenCount st))
  | _ =>
      s ← l_sessions st !! sid;
      let st1 :=
        if (0 <? N.of_nat (String.length (l_buffer st))) && negb (closed s) then
          let s1 := flush_batch (l_tokenCount st) s in
          mkLoop (<[sid := s1]> (l_sessions st))
            (l_events st ++ [EvContent (l_buffer st) (batchIndex s1) (l_tokenCount st)])%list
            (l_buffer st) (l_tokenCount st)
        else st in
      s' ← l_sessions st1 !! sid;
      Some (if negb (closed s') then
              mkLoop (l_sessions st1)
                (l_events st1 ++ [EvDone Complete (batchIndex s') (totalSats s')
                                    (totalTokens s')])%list
                (l_buffer st1) (l_tokenCount st1)
            else st1)
  end.

(** [handleRequest(req, res, generator, streamOpts)] for a request that is
    not a POST (a POST goes to [_handlePayment]). [sid] is the random
    session id; the result is the [sessions] map after the [finally] block
    and the events written to [res] before [res.end()] ([sendSSE] writes
    every event it is given, [res.writableEnded] being false until then).
    Of the proof POSTs that the server handles meanwhile, those handled
    during a payment wait are part of the input (in [gates]). *)
Definition handleRequest (sid : string) (firstBatchFree : option bool)
    (gates : N -> Gate) (toks : list string) (gend : GenEnd)
    (ss : gmap string Session) : option (gmap string Session * list SSE) :=
  let fbf := negb (bool_decide (firstBatchFree = Some false)) in
  let session := mkSession sid 0 0 0 None ∅ false in
  let st0 := mkLoop (<[sid := session]> ss) [EvSession sid] EmptyString 0 in
  '(exit, st1) ← produce sid fbf gates toks gend st0;
  st ← after_loop sid exit st1;
  Some (alter (set_closed true) sid (l_sessions st), l_events st).

(** The callback of the [setTimeout] in the [finally] block. *)
Definition cleanup (sid : string) (ss : gmap string Session) : gmap string Session :=
  delete sid ss.

End Provider.

(** ** Client *)


Record ClientOpts : Type := mkClientOpts {
  co_maxSats : option Z;
  co_autoPay : option bool
}.

Record Client : Type := mkClient {
  maxSats : Z;
  autoPay : bool
}.

Definition createStreamClient (opts : ClientOpts) : Client :=
  mkClient (or_Z (co_maxSats opts) 1000)
    (negb (bool_decide (co_autoPay opts = Some false))).

(** [data.sats] as [JSON.parse] leaves it: the provider is not trusted, so
    the field is any integer, [null], or missing. Fractions and values
    that are not numbers are left out. *)
Inductive Sats : Type :=
  | SatsInt (z : Z)
  | SatsNull
  | SatsAbsent.

(** [spent + data.sats]: [null] counts as 0, and with the field missing
    the sum is NaN ([None]). *)
Definition plus_sats (spent : Z) (sats : Sats) : option Z :=
  match sats with
  | SatsInt z => Some (spent + z)%Z
  | SatsNull => Some spent
  | SatsAbsent => None
  end.

(** A complete event as the client has it after [JSON.parse(eventData)]:
    the [eventType] and the fields of [data] that the [switch] reads.
    [Unhandled] is any other event type. *)
Inductive Inbound : Type :=
  | InSession (sessionId : option string)
  | InContent (tokens : string)
  | InInvoice (inv : string) (sats : Sats)
  | InDone
  | InError (message : option string)
  | InPaused
  | Unhandled.

(** [wallet.payInvoice] of the client: its answer may depend on the
    invoices it was asked to pay before. It resolves to
    [payResult.preimage]. *)
Definition PayInvoice : Type := list string -> string -> Promise (option string).

(** The variables of one [stream] call, and what it did to the outside:
    the chunks yielded, the invoices handed to the wallet (with the [sats]
    their event announced), those of them that the wallet paid, and the
    proofs POSTed back. *)
Record Consumer : Type := mkConsumer {
  spent : Z;
  sessionId : option string;
  yielded : list string;
  attempted : list (string * Sats);
  settled : list (string * Sats);
  proofs : list (string * string)
}.

(** How the generator stands after an event. *)
Inductive Status : Type :=
  | Reading
  | Returned
  | Failed (msg : string).

(** The body of the [switch (eventType)]. In the [invoice] case the test
    [spent + data.sats <= budget] is false when the sum is NaN, and
    [spent += data.sats] is reached only once the wallet has paid. *)
Definition on_event (budget : Z) (auto : bool) (pay : PayInvoice)
    (ev : Inbound) (c : Consumer) : Status * Consumer :=
  match ev with
  | InSession sid =>
      (Reading, mkConsumer (spent c) sid (yielded c) (attempted c) (settled c) (proofs c))
  | InContent tokens =>
      (Reading, mkConsumer (spent c) (sessionId c) (yielded c ++ [tokens])%list
                  (attempted c) (settled c) (proofs c))
  | InInvoice inv sats =>
      match plus_sats (spent c) sats with
      | Some total =>
          if auto && (total <=? budget)%Z then
            let tried := (attempted c ++ [(inv, sats)])%list in
            match pay (fst <$> attempted c) inv with
            | Resolved preimage =>
                (Reading,
                 mkConsumer total (sessionId c) (yielded c) tried
                   (settled c ++ [(inv, sats)])%list
                   (if truthy (sessionId c) && truthy preimage
                    then (proofs c ++ [(default EmptyString (sessionId c),
                                        default EmptyString preimage)])%list
                    else proofs c))
            | Rejected _ =>
                (Reading, mkConsumer (spent c) (sessionId c) (yielded c) tried
                            (settled c) (proofs c))
            end
          else (Reading, c)
      | None => (Reading, c)
      end
  | InDone => (Returned, c)
  | InError message => (Failed (or_str message "Stream error"), c)
  | InPaused => (Reading, c)
  | Unhandled => (Reading, c)
  end.

(** The events of the response, handled in order until [done] or [error]. *)
Fixpoint consume (budget : Z) (auto : bool) (pay : PayInvoice)
    (evs : list Inbound) (c : Consumer) : Status * Consumer :=
  match evs with
  | [] => (Reading, c)
  | ev :: rest =>
      match on_event budget auto pay ev c with
      | (Reading, c') => consume budget auto pay rest c'
      | stop => stop
      end
  end.

(** The budget of one call: [reqOpts.maxSats || maxSats]. *)
Definition budget_of (cl : Client) (req_maxSats : option Z) : Z :=
  or_Z req_maxSats (maxSats cl).

(** [stream(url, reqOpts)], from the events that the response carries. *)
Definition stream (cl : Client) (req_maxSats : option Z) (pay : PayInvoice)
    (evs : list Inbound) : Status * Consumer :=
  consume (budget_of cl req_maxSats) (autoPay cl) pay evs
    (mkConsumer 0%Z None [] [] [] []).




(** ** Vocabulary of the properties *)




(** The proof in [body] names session [sid], holds a preimage [pre], and
    the session has a pending payment [pp] whose payment hash is the
    SHA-256 of the preimage. *)
Definition matches (sha256_hex : list Byte.byte -> string) (body : Body)
    (ss : gmap string Session) (sid pre : string) (session : Session)
    (pp : Pending) : Prop :=
  body = Json (Some sid) (Some pre) /\ pre <> EmptyString /\
  ss !! sid = Some session /\ pendingPayment session = Some pp /\
  p_paymentHash pp = Some (sha256_hex (hex_decode pre)).

Definition accepts (sha256_hex : list Byte.byte -> string) (body : Body)
    (ss : gmap string Session) : Prop :=
  exists sid pre session pp, matches sha256_hex body ss sid pre session pp.

(** No [paused] event among the events. *)
Definition no_pause (evs : list SSE) : Prop :=
  Forall (fun e => is_paused e = false) evs.

(** The tokens of a batch, joined as [buffer += token] joins them. *)
Definition join (toks : list string) : string :=
  fold_right String.append EmptyString toks.

(** The provider of the specification's example: 50 tokens a batch, one
    batch at most. *)
Definition one_batch (sats : option N) (timeout : option Z) (expiry : option N)
    : Provider :=
  createStreamProvider (mkProviderOpts sats (Some 50) (Some 1) timeout expiry).

(** A provider with batches of two tokens, and a payment gate at which
    the wallet issues an invoice for the preimage [c0ffee] and nobody
    pays: the wallet poll answers unpaid, then fails, and the clock passes
    the 30 s of the timeout. *)
Definition two_token_batches : Provider :=
  createStreamProvider (mkProviderOpts None (Some 2) None None None).

Definition unpaid_gate (sha256_hex : list Byte.byte -> string) : N -> Gate :=
  fun _ =>
    mkGate (Resolved (mkInvoice "lnbc10n1stream"
                        (Some (sha256_hex (hex_decode "c0ffee")))))
      1000
      [ mkRound 1000 [] (Resolved false) [];
        mkRound 5000 [] (Rejected "relay timeout") [];
        mkRound 31000 [] (Resolved false) [] ].

End Stream.

(** * The two halves of the asynchronous methods *)

Module EscrowPhases.

Import Escrow.
Local Open Scope mgr_scope.

(** [fund], [release] and [refund] are [async] functions with one [await]
    on the wallet. What stands before it (the lookup, the guard, the call
    of the wallet) runs when the method is called; what stands after it
    runs once the promise has settled, and calls of other methods and
    deadline timers may run in between. The first half returns what the
    second goes on with; a rejected promise is thrown by the first half,
    nothing being written before it. *)

Definition fund_begin (w : Wallet) (i : string) (opts : FundOpts) : M unit :=
  let* e := lookup_escrow i in
  if negb (bool_decide (state e = CREATED)) then throw (CannotFund (state e))
  else
    match EscrowManager.fund_wait w e opts with
    | Some (c, p) =>
        let* paid := await c p in
        if paid : bool then ret tt else throw PaymentNotReceived
    | None => ret tt
    end.

Definition fund_resume (i : string) (now tnow : Z) : M Escrow :=
  let* _ := update_escrow i (set_fundedAt (Some now)) in
  transition i FUNDED tnow.

Definition release_begin (w : Wallet) (i : string) : M (option string) :=
  let* e := lookup_escrow i in
  if negb (bool_decide (state e = FUNDED)) && negb (bool_decide (state e = DELIVERED))
  then throw (CannotRelease (state e))
  else
    match EscrowManager.worker_payment w e with
    | Some (c, p) => await c p
    | None => throw NoWorkerDestination
    end.

Definition release_resume (i : string) (preimage : option string) (now tnow : Z)
    : M Escrow :=
  let* _ := update_escrow i
              (fun e => set_releasedAt (Some now) (set_releasePreimage preimage e)) in
  let* _ := cancelTimer i in
  transition i RELEASED tnow.

(** The first half of [refund] returns the object [e] that the method
    holds: the second half writes to its [metadata]. *)
Definition refund_begin (w : Wallet) (i : string) (refundAddr reason : option string)
    : M Escrow :=
  let* e := lookup_escrow i in
  if bool_decide (state e = RELEASED) then throw CannotRefundReleased
  else if bool_decide (state e = REFUNDED) then throw AlreadyRefunded
  else
    let* _ := match EscrowManager.refund_payment w e refundAddr reason with
              | Some (c, p) => let* _ := await c p in ret tt
              | None => ret tt
              end in
    ret e.

Definition refund_resume (i : string) (e : Escrow) (refundAddr reason : option string)
    (now tnow : Z) : M Escrow :=
  let* _ := update_escrow i
              (fun e => set_refundedAt (Some now) (set_refundAddress refundAddr e)) in
  let* _ := modify (with_metas (set_key (metadata e) "refundReason"
                                  (MStr (or_str reason "manual")))) in
  let* _ := cancelTimer i in
  transition i REFUNDED tnow.

End EscrowPhases.

(** * Managers built by calls of the methods *)

Module EscrowRuns.

Import Escrow.
Local Open Scope mgr_scope.

(** A call made on the manager: [create], one of the operations (the
    firing of a deadline timer among them), or [close]. A call is taken
    whole: it runs from its guard to its return before the next call
    begins, none being in flight at the wallet meanwhile. *)
Inductive Call : Type :=
  | DoCreate (w : Wallet) (config : Config) (i : string) (now now' tnow : Z)
  | DoOp (w : Wallet) (i : string) (op : Op) (now tnow : Z)
  | DoClose.

Definition perform (c : Call) (m : Manager) : Manager :=
  match c with
  | DoCreate w config i now now' tnow =>
      final (EscrowManager.create w config i now now' tnow m)
  | DoOp w i op now tnow => final (run_op w i op now tnow m)
  | DoClose => final (EscrowManager.close m)
  end.

(** The managers that calls of the methods lead to when the calls do not
    overlap, from the closure that [createEscrowManager] returns. The
    objects handed out are not written to by their holders. *)
Inductive reachable : Manager -> Prop :=
  | reachable_new (deadlineMs : option Z) (observer : bool) :
      reachable (createEscrowManager deadlineMs observer)
  | reachable_call (m : Manager) (c : Call) :
      reachable m -> reachable (perform c m).

(** The pairs of states that some guard lets through. *)
Definition permitted (from to : State) : bool :=
  bool_decide (target (op_into to) from = Some to).

(** Reading a history from its first entry: the state it leads to, if
    every entry starts where the one before ended and makes a permitted
    move. *)
Fixpoint follow (s : State) (l : list HistEntry) : option State :=
  match l with
  | [] => Some s
  | h :: rest =>
      if bool_decide (h_from h = Some s) && permitted s (h_to h)
      then follow (h_to h) rest
      else None
  end.

Definition replay (l : list HistEntry) : option State :=
  match l with
  | [] => None
  | h :: rest =>
      if bool_decide (h_from h = None) && bool_decide (h_to h = CREATED)
      then follow CREATED rest
      else None
  end.

(** The fields of an escrow that no method assigns after [create]. *)
Definition fixed_fields (e : Escrow) :=
  (id e, amountSats e, description e, workerAddress e, workerInvoice e,
   clientPubkey e, workerPubkey e, metadata e, invoice e, paymentHash e,
   deadline e, createdAt e, history e).

(** What holds of every escrow of a manager built by the methods. *)
Definition sound (m : Manager) (i : string) (e : Escrow) : Prop :=
  id e = i /\
  0 < amountSats e /\
  truthy (workerInvoice e) || truthy (workerAddress e) = true /\
  is_Some (histories m !! history e) /\
  replay (hist m e) = Some (state e) /\
  h_at <$> head (hist m e) = Some (createdAt e) /\
  h_at <$> last (hist m e) = Some (updatedAt e).

Definition well_formed (m : Manager) : Prop :=
  (forall i e, escrows m !! i = Some e -> sound m i e) /\
  (forall i j e e', escrows m !! i = Some e -> escrows m !! j = Some e' ->
                    history e = history e' -> i = j) /\
  NoDup (order m) /\
  (forall i, i ∈ order m <-> is_Some (escrows m !! i)).

(** What a successful [create] leaves: the escrow [e] it returns and the
    manager [m'], from the reply [inv] of the wallet. *)
Definition created (config : Config) (inv : InvoiceResult) (i : string)
    (now now' tnow : Z) (m : Manager) (e : Escrow) (m' : Manager) : Prop :=
  let dl := or_Z (c_deadlineMs config) (defaultDeadlineMs m) in
  let amount := default 0 (c_amountSats config) in
  let descr := ("Escrow: " ++ or_str (c_description config) i)%string in
  let call := CallCreateInvoice amount descr (ceil_div_1000 dl) in
  let first := mkHist None CREATED now in
  escrows m' = <[i := e]> (escrows m) /\
  (id e = i /\ amountSats e = amount /\
   workerAddress e = or_null (c_workerAddress config) /\
   workerInvoice e = or_null (c_workerInvoice config) /\
   description e = or_null (c_description config) /\
   invoice e = inv_invoice inv /\ paymentHash e = inv_paymentHash inv /\
   deadline e = now + dl /\ createdAt e = now) /\
  histories m !! history e = None /\
  match c_metadata config with
  | Some l => metadata e = l /\
              metas m' = <[l := default ∅ (metas m !! l)]> (metas m)
  | None => metas m !! metadata e = None /\
            metas m' = <[metadata e := ∅]> (metas m)
  end /\
  order m' = (if bool_decide (is_Some (escrows m !! i)) then order m
              else (order m ++ [i])%list) /\
  calls m' = (calls m ++ [call])%list /\
  onStateChange m' = onStateChange m /\
  defaultDeadlineMs m' = defaultDeadlineMs m /\
  if now + dl =? 0 then
    state e = CREATED /\ updatedAt e = now /\
    histories m' = <[history e := [first]]> (histories m) /\
    timers m' = timers m /\ notified m' = notified m
  else if now + dl - now' <=? 0 then
    state e = EXPIRED /\ updatedAt e = tnow /\
    histories m' = <[history e := [first; mkHist (Some CREATED) EXPIRED tnow]]>
                     (histories m) /\
    timers m' = timers m /\
    notified m' = (if onStateChange m
                   then (notified m ++ [(i, CREATED, EXPIRED)])%list
                   else notified m)
  else
    state e = CREATED /\ updatedAt e = now /\
    histories m' = <[history e := [first]]> (histories m) /\
    timers m' = <[i := setTimeout_delay (now + dl - now')]> (timers m) /\
    notified m' = notified m.

(** The states whose transition, made by an operation, also removes the
    pending timer. *)
Definition clears (s : State) : bool :=
  match s with
  | RELEASED | REFUNDED | EXPIRED => true
  | _ => false
  end.

(** The three ways an operation on a stored escrow ends. *)
Definition thrown (m m' : Manager) : Prop :=
  same_engine m m' /\
  (calls m' = calls m \/ exists c, calls m' = (calls m ++ [c])%list).

Definition stepped (m m' : Manager) (i : string) (e e' : Escrow) (s : State)
    (tnow : Z) : Prop :=
  escrows m' = <[i := e']> (escrows m) /\
  fixed_fields e' = fixed_fields e /\ state e' = s /\ updatedAt e' = tnow /\
  histories m' = push (history e) (mkHist (Some (state e)) s tnow) (histories m) /\
  order m' = order m /\ onStateChange m' = onStateChange m /\
  defaultDeadlineMs m' = defaultDeadlineMs m /\
  notified m' = (if onStateChange m then (notified m ++ [(i, state e, s)])%list
                 else notified m) /\
  timers m' = (if clears s then delete i (timers m) else timers m) /\
  (calls m' = calls m \/ exists c, calls m' = (calls m ++ [c])%list) /\
  (metas m' = metas m \/ exists k v, metas m' = set_key (metadata e) k v (metas m)).

(** Calls made one after the other. *)
Definition perform_all (cs : list Call) (m : Manager) : Manager :=
  fold_left (fun m c => perform c m) cs m.

(** The identifier that a call works on. *)
Definition call_id (c : Call) : option string :=
  match c with
  | DoCreate _ _ i _ _ _ => Some i
  | DoOp _ i _ _ _ => Some i
  | DoClose => None
  end.

(** Is the call a [create] that draws identifier [i]. *)
Definition creates (i : string) (c : Call) : bool :=
  match c with
  | DoCreate _ _ j _ _ _ => bool_decide (j = i)
  | _ => false
  end.

(** The record stored under an identifier, with the contents of its
    history. *)
Definition record_and_history (m : Manager) (i : string)
    : option (Escrow * list HistEntry) :=
  (fun e => (e, hist m e)) <$> escrows m !! i.

Definition NoDestinationError (e : Error) : bool :=
  match e with NoWorkerDestination => true | _ => false end.

Definition settled (s : State) : bool :=
  bool_decide (s = RELEASED) || bool_decide (s = REFUNDED).

(** Every pending timer has a positive delay and belongs to a stored
    escrow that is neither released nor refunded. *)
Definition timers_ok (m : Manager) : Prop :=
  forall i d, timers m !! i = Some d ->
    0 < d /\ exists e, escrows m !! i = Some e /\ settled (state e) = false.

(** The wallet calls that a call of a method may make. *)
Definition quiet (c : Call) : bool :=
  match c with
  | DoOp _ _ (OpDeliver _) _ _ | DoOp _ _ (OpDispute _ _) _ _
  | DoOp _ _ OpDeadline _ _ | DoClose => true
  | _ => false
  end.

(** A fresh manager with an observer, and sample calls on it. *)
Definition fresh_manager : Manager := createEscrowManager None true.

Definition second_create : Call :=
  DoCreate cooperative sample_config "e2" 5000 5001 5002.

(** A configuration that hands the manager a metadata object of the
    caller. *)
Definition tagged_config : Config :=
  mkConfig (Some 500) (Some "worker@x") None (Some "translate") (Some 3600000)
    None None (Some 7%positive).

(** A configuration whose deadline is thirty days ahead. *)
Definition far_config : Config :=
  mkConfig (Some 500) (Some "worker@x") None (Some "translate") (Some 2592000000)
    None None None.

(** The sample configuration with a deadline that has passed when the
    timer is started. *)
Definition late_config : Config :=
  mkConfig (Some 500) (Some "worker@x") None (Some "translate") (Some (-5))
    None None None.

End EscrowRuns.

(** * Runs of the producer loop *)

Module StreamRuns.

Import Stream.
Local Open Scope N_scope.

(** What the events of a response carry. *)
Definition tokens_of (e : SSE) : string :=
  match e with EvContent t _ _ => t | _ => EmptyString end.

(** The text delivered by the [content] events, in order. *)
Definition delivered (evs : list SSE) : string :=
  join (tokens_of <$> evs).

(** The batch indices of the [content] events, in order. *)
Definition content_indices (evs : list SSE) : list N :=
  omap (fun e => match e with EvContent _ b _ => Some b | _ => None end) evs.

Definition count (f : SSE -> bool) (evs : list SSE) : N :=
  N.of_nat (length (List.filter f evs)).

Definition is_error (e : SSE) : bool :=
  match e with EvError _ => true | _ => false end.

Definition is_max_batches (e : SSE) : bool :=
  match e with EvDone MaxBatches _ _ _ => true | _ => false end.

(** The events that tell of a stream cut short. *)
Definition cut (e : SSE) : bool :=
  is_paused e || is_max_batches e || is_error e.

(** The events written inside the loop before it is left. *)
Definition in_loop (e : SSE) : bool :=
  is_content e || is_invoice e.

(** The numbers [b + 1], ..., [b + k]. *)
Definition from (b : N) (k : nat) : list N :=
  (fun j => b + N.of_nat j) <$> seq 1 k.

(** What every [invoice] event of a response is like: it asks for the
    price of a batch, for a batch after the first, and after the second
    when the first is free. *)
Definition invoice_ok (P : Provider) (firstBatchFree : bool) (e : SSE) : Prop :=
  match e with
  | EvInvoice _ _ b sats =>
      sats = satsPerBatch P /\ 2 <= b /\ (firstBatchFree = true -> 3 <= b)
  | _ => True
  end.

(** The totals that a [done] event with reason [complete] reports are
    those of the session. *)
Definition done_reports (s : Session) (e : SSE) : Prop :=
  match e with
  | EvDone Complete b t k =>
      b = batchIndex s /\ t = totalSats s /\ k = totalTokens s
  | _ => True
  end.

(** The fields of a session that only [handleRequest] writes. *)
Definition counters (s : Session) : string * N * N * N * bool :=
  (id s, batchIndex s, totalTokens s, totalSats s, closed s).

Section Run.

Variable sha256_hex : list Byte.byte -> string.
Variable P : Provider.
Variable sid : string.
Variable firstBatchFree : bool.
Variable gates : N -> Gate.
Variable gend : GenEnd.

(** The runs of the [for await] loop, one constructor for each way
    through its body. *)
Inductive Run : list string -> Loop -> Exit -> Loop -> Prop :=
  | run_end (st : Loop) :
      Run [] st (match gend with GenReturn => Finished | GenThrow msg => Thrown msg end) st
  | run_closed (tok : string) (rest : list string) (st : Loop) (s : Session) :
      l_sessions st !! sid = Some s -> closed s = true ->
      Run (tok :: rest) st Broken st
  | run_more (tok : string) (rest : list string) (st : Loop) (s : Session)
        (exit : Exit) (st' : Loop) :
      l_sessions st !! sid = Some s -> closed s = false ->
      l_tokenCount st + 1 < tokensPerBatch P ->
      Run rest (mkLoop (l_sessions st) (l_events st) (l_buffer st ++ tok)%string
                  (l_tokenCount st + 1)) exit st' ->
      Run (tok :: rest) st exit st'
  | run_cap (tok : string) (rest : list string) (st : Loop) (s : Session) :
      l_sessions st !! sid = Some s -> closed s = false ->
      tokensPerBatch P <= l_tokenCount st + 1 ->
      maxBatches P <= batchIndex s + 1 ->
      let s1 := flush_batch (l_tokenCount st + 1) s in
      Run (tok :: rest) st Broken
        (mkLoop (<[sid := s1]> (l_sessions st))
           (l_events st ++
            [EvContent (l_buffer st ++ tok)%string (batchIndex s1) (l_tokenCount st + 1);
             EvDone MaxBatches (batchIndex s1) (totalSats s1) (totalTokens s1)])%list
           EmptyString 0)
  | run_free (tok : string) (rest : list string) (st : Loop) (s : Session)
        (exit : Exit) (st' : Loop) :
      l_sessions st !! sid = Some s -> closed s = false ->
      tokensPerBatch P <= l_tokenCount st + 1 ->
      batchIndex s + 1 < maxBatches P ->
      firstBatchFree = true -> batchIndex s + 1 = 1 ->
      let s1 := flush_batch (l_tokenCount st + 1) s in
      Run rest
        (mkLoop (<[sid := s1]> (l_sessions st))
           (l_events st ++
            [EvContent (l_buffer st ++ tok)%string (batchIndex s1) (l_tokenCount st + 1)])%list
           EmptyString 0) exit st' ->
      Run (tok :: rest) st exit st'
  | run_no_invoice (tok : string) (rest : list string) (st : Loop) (s : Session)
        (msg : string) :
      l_sessions st !! sid = Some s -> closed s = false ->
      tokensPerBatch P <= l_tokenCount st + 1 ->
      batchIndex s + 1 < maxBatches P ->
      firstBatchFree && (batchIndex s + 1 =? 1) = false ->
      g_invoice (gates (batchIndex s + 1)) = Rejected msg ->
      let s1 := flush_batch (l_tokenCount st + 1) s in
      Run (tok :: rest) st (Thrown msg)
        (mkLoop (<[sid := s1]> (l_sessions st))
           (l_events st ++
            [EvContent (l_buffer st ++ tok)%string (batchIndex s1) (l_tokenCount st + 1)])%list
           EmptyString 0)
  | run_paid (tok : string) (rest : list string) (st : Loop) (s : Session)
        (inv : InvoiceResult) (ss3 : gmap string Session) (s3 : Session)
        (exit : Exit) (st' : Loop) :
      l_sessions st !! sid = Some s -> closed s = false ->
      tokensPerBatch P <= l_tokenCount st + 1 ->
      batchIndex s + 1 < maxBatches P ->
      firstBatchFree && (batchIndex s + 1 =? 1) = false ->
      g_invoice (gates (batchIndex s + 1)) = Resolved inv ->
      let s1 := flush_batch (l_tokenCount st + 1) s in
      let pp := mkPending (inv_paymentHash inv) (batchIndex s1 + 1) (inv_invoice inv) in
      _waitForPayment sha256_hex sid (paymentTimeoutMs P)
        (g_start (gates (batchIndex s1))) (g_rounds (gates (batchIndex s1)))
        (<[sid := set_pendingPayment (Some pp) s1]> (<[sid := s1]> (l_sessions st)))
      = Some (true, ss3) ->
      ss3 !! sid = Some s3 ->
      Run rest
        (mkLoop (<[sid := set_totalSats (totalSats s3 + satsPerBatch P) s3]> ss3)
           (l_events st ++
            [EvContent (l_buffer st ++ tok)%string (batchIndex s1) (l_tokenCount st + 1);
             EvInvoice (inv_invoice inv) (inv_paymentHash inv) (batchIndex s1 + 1)
               (satsPerBatch P)])%list
           EmptyString 0) exit st' ->
      Run (tok :: rest) st exit st'
  | run_unpaid (tok : string) (rest : list string) (st : Loop) (s : Session)
        (inv : InvoiceResult) (ss3 : gmap string Session) (s3 : Session) :
      l_sessions st !! sid = Some s -> closed s = false ->
      tokensPerBatch P <= l_tokenCount st + 1 ->
      batchIndex s + 1 < maxBatches P ->
      firstBatchFree && (batchIndex s + 1 =? 1) = false ->
      g_invoice (gates (batchIndex s + 1)) = Resolved inv ->
      let s1 := flush_batch (l_tokenCount st + 1) s in
      let pp := mkPending (inv_paymentHash inv) (batchIndex s1 + 1) (inv_invoice inv) in
      _waitForPayment sha256_hex sid (paymentTimeoutMs P)
        (g_start (gates (batchIndex s1))) (g_rounds (gates (batchIndex s1)))
        (<[sid := set_pendingPayment (Some pp) s1]> (<[sid := s1]> (l_sessions st)))
      = Some (false, ss3) ->
      ss3 !! sid = Some s3 ->
      Run (tok :: rest) st Broken
        (mkLoop ss3
           (l_events st ++
            [EvContent (l_buffer st ++ tok)%string (batchIndex s1) (l_tokenCount st + 1);
             EvInvoice (inv_invoice inv) (inv_paymentHash inv) (batchIndex s1 + 1)
               (satsPerBatch P);
             EvPaused (batchIndex s3) (totalSats s3) sid])%list
           EmptyString 0).

End Run.

(** [break] inside [for await] calls [gen.return()] and awaits it: the
    [finally] blocks of the generator run, and when they throw, the loop
    throws in place of being left. [on_return] is the message of what is
    thrown, if anything is. *)
Definition leave (on_return : option string) (exit : Exit) : Exit :=
  match exit with
  | Broken => match on_return with Some msg => Thrown msg | None => Broken end
  | _ => exit
  end.

(** [handleRequest] for a generator whose [return()] may throw. *)
Definition respond (sha256_hex : list Byte.byte -> string) (P : Provider)
    (sid : string) (firstBatchFree : option bool) (gates : N -> Gate)
    (toks : list string) (gend : GenEnd) (on_return : option string)
    (ss : gmap string Session) : option (gmap string Session * list SSE) :=
  let fbf := negb (bool_decide (firstBatchFree = Some false)) in
  let session := mkSession sid 0 0 0 None ∅ false in
  let st0 := mkLoop (<[sid := session]> ss) [EvSession sid] EmptyString 0 in
  '(exit, st1) ← produce sha256_hex P sid fbf gates toks gend st0;
  st ← after_loop sid (leave on_return exit) st1;
  Some (alter (set_closed true) sid (l_sessions st), l_events st).

(** A SHA-256 for the sample runs, and a payment gate at which the wallet
    confirms the payment at the first poll. *)
Definition sample_sha (b : list Byte.byte) : string := EmptyString.

Definition paid_gate : N -> Gate :=
  fun _ =>
    mkGate (Resolved (mkInvoice "lnbc10n1stream" (Some "00ff"))) 1000
      [ mkRound 1000 [] (Resolved true) [] ].

End StreamRuns.


(** * Properties of the escrow manager *)

Module EscrowProps.

Import Escrow.
Local Open Scope mgr_scope.

(** ** Running the operations *)

(** Unfolding of the monad around a known lookup. *)
Ltac run_with H :=
  cbv beta iota delta
    [EscrowManager.fund EscrowManager.deliver EscrowManager.release
     EscrowManager.refund EscrowManager.dispute deadlineTimerFired run_op
     await update_escrow cancelTimer modify
     bind lookup_escrow gets throw ret];
  rewrite ?H; cbv beta iota.

(** Comparisons of known states. *)
Ltac decide_states :=
  repeat first
    [ rewrite bool_decide_eq_true_2 by reflexivity
    | rewrite bool_decide_eq_false_2 by discriminate ];
  cbn.

Lemma transition_spec (m : Manager) (i : string) (e : Escrow) (s : State) (tnow : Z) :
  escrows m !! i = Some e ->
  exists m',
    transition i s tnow m = Return (set_updatedAt tnow (set_state s e)) m' /\
    escrows m' = alter (fun e => set_updatedAt tnow (set_state s e)) i (escrows m) /\
    histories m' = push (history e) (mkHist (Some (state e)) s tnow) (histories m) /\
    notified m' = (if onStateChange m then (notified m ++ [(i, state e, s)])%list
                   else notified m) /\
    metas m' = metas m /\ timers m' = timers m /\ calls m' = calls m /\
    order m' = order m /\ onStateChange m' = onStateChange m /\
    defaultDeadlineMs m' = defaultDeadlineMs m.
Proof.
  intros Hi. unfold transition.
  cbv beta iota delta [bind lookup_escrow gets throw ret update_escrow modify].
  rewrite Hi. cbn.
  destruct (onStateChange m) eqn:Hcb; cbn; rewrite lookup_alter_eq, Hi; cbn;
    eexists; (split; [reflexivity |]); cbn; rewrite ?Hcb; repeat split.
Qed.

(** [transition] after assignments that leave the state, the history
    reference, the heap of histories and the observer trace alone. *)
Lemma transition_moved (m0 m : Manager) (i : string) (e0 e : Escrow) (s : State)
    (tnow : Z) :
  escrows m !! i = Some e ->
  state e = state e0 -> history e = history e0 ->
  histories m = histories m0 -> notified m = notified m0 ->
  onStateChange m = onStateChange m0 ->
  exists e' m', transition i s tnow m = Return e' m' /\ moved m0 m' i e0 e' s tnow /\
    e' = set_updatedAt tnow (set_state s e) /\
    metas m' = metas m /\ timers m' = timers m /\ calls m' = calls m /\
    order m' = order m.
Proof.
  intros Hi Hs Hh Hhs Hn Hc.
  destruct (transition_spec m i e s tnow Hi)
    as (m' & Heq & Hes & Hhist & Hnot & Hme & Hti & Hca & Hor & _).
  exists (set_updatedAt tnow (set_state s e)), m'. split; [exact Heq |].
  split; [| tauto].
  unfold moved, hist. rewrite Hes, Hhist, Hnot, Hs, Hh, Hhs, Hn, Hc.
  rewrite lookup_alter_eq, Hi. unfold push. rewrite lookup_insert_eq. cbn.
  repeat split; try reflexivity. exact Hh.
Qed.

(** After the guard of a method: its assignments [f], then [transition]. *)
Ltac finish_with Hi f :=
  match goal with
  | |- context [transition ?i ?s ?t ?m1] =>
      match goal with
      | |- context [moved ?m0 _ _ ?e0 _ _ _] =>
          let e' := fresh "e'" in
          let m' := fresh "m'" in
          let Heq := fresh "Heq" in
          let Hmv := fresh "Hmv" in
          let He := fresh "He" in
          let Hrest := fresh "Hrest" in
          destruct (transition_moved m0 m1 i e0 (f e0) s t)
            as (e' & m' & Heq & Hmv & He & Hrest);
          [ cbn; rewrite ?lookup_alter_eq, Hi; reflexivity
          | reflexivity | reflexivity | reflexivity | reflexivity | reflexivity | ];
          rewrite Heq; exists e', m'; cbn in Hrest; subst e'
      end
  end.

Lemma fund_run (w : Wallet) (m : Manager) (i : string) (e : Escrow)
    (opts : FundOpts) (now tnow : Z) :
  escrows m !! i = Some e -> state e = CREATED ->
  match EscrowManager.fund_wait w e opts with
  | Some (c, Rejected msg) =>
      EscrowManager.fund w i opts now tnow m
      = Throw (WalletError msg) (with_calls (fun l => (l ++ [c])%list) m)
  | Some (c, Resolved false) =>
      EscrowManager.fund w i opts now tnow m
      = Throw PaymentNotReceived (with_calls (fun l => (l ++ [c])%list) m)
  | Some (c, Resolved true) =>
      exists e' m', EscrowManager.fund w i opts now tnow m = Return e' m' /\
        moved m m' i e e' FUNDED tnow /\ fundedAt e' = Some now /\
        calls m' = (calls m ++ [c])%list /\ metas m' = metas m
  | None =>
      exists e' m', EscrowManager.fund w i opts now tnow m = Return e' m' /\
        moved m m' i e e' FUNDED tnow /\ fundedAt e' = Some now /\
        calls m' = calls m /\ metas m' = metas m
  end.
Proof.
  intros Hi Hs. run_with Hi. rewrite Hs. decide_states.
  destruct (EscrowManager.fund_wait w e opts) as [[c [[|] | msg]] |]; cbn;
    try reflexivity.
  - finish_with Hi (set_fundedAt (Some now)). intuition congruence.
  - finish_with Hi (set_fundedAt (Some now)). intuition congruence.
Qed.

Lemma deliver_run (m : Manager) (i : string) (e : Escrow) (proof : option string)
    (now tnow : Z) :
  escrows m !! i = Some e -> state e = FUNDED ->
  exists e' m', EscrowManager.deliver i proof now tnow m = Return e' m' /\
    moved m m' i e e' DELIVERED tnow /\ deliveryProof e' = proof /\
    calls m' = calls m /\ metas m' = metas m.
Proof.
  intros Hi Hs. run_with Hi. rewrite Hs. decide_states.
  finish_with Hi (fun e => set_deliveredAt (Some now) (set_deliveryProof proof e)).
  intuition congruence.
Qed.

Lemma release_run (w : Wallet) (m : Manager) (i : string) (e : Escrow) (now tnow : Z) :
  escrows m !! i = Some e -> state e = FUNDED \/ state e = DELIVERED ->
  match EscrowManager.worker_payment w e with
  | Some (c, Rejected msg) =>
      EscrowManager.release w i now tnow m
      = Throw (WalletError msg) (with_calls (fun l => (l ++ [c])%list) m)
  | Some (c, Resolved preimage) =>
      exists e' m', EscrowManager.release w i now tnow m = Return e' m' /\
        moved m m' i e e' RELEASED tnow /\ releasePreimage e' = preimage /\
        releasedAt e' = Some now /\
        calls m' = (calls m ++ [c])%list /\ metas m' = metas m /\
        timers m' = delete i (timers m)
  | None => EscrowManager.release w i now tnow m = Throw NoWorkerDestination m
  end.
Proof.
  intros Hi Hs. run_with Hi.
  destruct (EscrowManager.worker_payment w e) as [[c [preimage | msg]] |];
    destruct Hs as [-> | ->]; decide_states; try reflexivity;
    finish_with Hi
      (fun e => set_releasedAt (Some now) (set_releasePreimage preimage e));
    intuition congruence.
Qed.

Lemma refund_run (w : Wallet) (m : Manager) (i : string) (e : Escrow)
    (refundAddr reason : option string) (now tnow : Z) :
  escrows m !! i = Some e -> state e <> RELEASED -> state e <> REFUNDED ->
  match EscrowManager.refund_payment w e refundAddr reason with
  | Some (c, Rejected msg) =>
      EscrowManager.refund w i refundAddr reason now tnow m
      = Throw (WalletError msg) (with_calls (fun l => (l ++ [c])%list) m)
  | Some (c, Resolved _) =>
      exists e' m', EscrowManager.refund w i refundAddr reason now tnow m = Return e' m' /\
        moved m m' i e e' REFUNDED tnow /\ refundAddress e' = refundAddr /\
        calls m' = (calls m ++ [c])%list /\
        metas m' = set_key (metadata e) "refundReason" (MStr (or_str reason "manual"))
                     (metas m) /\
        timers m' = delete i (timers m)
  | None =>
      exists e' m', EscrowManager.refund w i refundAddr reason now tnow m = Return e' m' /\
        moved m m' i e e' REFUNDED tnow /\ refundAddress e' = refundAddr /\
        calls m' = calls m /\
        metas m' = set_key (metadata e) "refundReason" (MStr (or_str reason "manual"))
                     (metas m) /\
        timers m' = delete i (timers m)
  end.
Proof.
  intros Hi H1 H2. run_with Hi.
  rewrite !bool_decide_eq_false_2 by assumption.
  destruct (EscrowManager.refund_payment w e refundAddr reason)
    as [[c [preimage | msg]] |]; cbn; try reflexivity;
    finish_with Hi (fun e => set_refundedAt (Some now) (set_refundAddress refundAddr e));
    intuition congruence.
Qed.

Lemma dispute_run (m : Manager) (i : string) (e : Escrow)
    (reason raisedBy : option string) (now tnow : Z) :
  escrows m !! i = Some e -> state e <> RELEASED -> state e <> REFUNDED ->
  exists e' m', EscrowManager.dispute i reason raisedBy now tnow m = Return e' m' /\
    moved m m' i e e' DISPUTED tnow /\ calls m' = calls m /\
    metas m' = set_key (metadata e) "dispute" (MDispute reason raisedBy now) (metas m).
Proof.
  intros Hi H1 H2. run_with Hi.
  rewrite !bool_decide_eq_false_2 by assumption. cbn.
  finish_with Hi (fun e : Escrow => e). intuition congruence.
Qed.

Lemma funded_or_created_spec (s : State) :
  funded_or_created s = true <-> s = CREATED \/ s = FUNDED.
Proof.
  destruct s; vm_compute; split; intros H; try discriminate; auto;
    destruct H; discriminate.
Qed.

Lemma deadline_run (m : Manager) (i : string) (e : Escrow) (tnow : Z) :
  escrows m !! i = Some e ->
  if funded_or_created (state e) then
    exists e' m', deadlineTimerFired i tnow m = Return tt m' /\
      moved m m' i e e' EXPIRED tnow /\ calls m' = calls m /\ metas m' = metas m /\
      timers m' = delete i (timers m)
  else deadlineTimerFired i tnow m = Return tt (with_timers (delete i) m).
Proof.
  intros Hi. run_with Hi.
  destruct (funded_or_created (state e)); [| reflexivity].
  destruct (transition_moved m m i e e EXPIRED tnow Hi)
    as (e' & m' & Heq & Hmv & He & Hme & Hti & Hca & Hor); try reflexivity.
  rewrite Heq. cbn. exists e', (with_timers (delete i) m'). split; [reflexivity |].
  cbn. rewrite Hti. unfold moved in *. cbn. tauto.
Qed.

(** A method called in a state that its guard excludes throws, and the
    manager is returned as it was. *)
Lemma guard_rejects (w : Wallet) (m : Manager) (i : string) (e : Escrow) (op : Op)
    (now tnow : Z) :
  escrows m !! i = Some e ->
  target op (state e) = None -> op <> OpDeadline ->
  exists err, run_op w i op now tnow m = Throw err m /\ StateConflictError err = true.
Proof.
  intros Hi Ht Hop.
  destruct op; try congruence; run_with Hi;
    destruct (state e); try discriminate Ht; decide_states; eauto.
Qed.

Lemma same_engine_calls (f : list WalletCall -> list WalletCall) (m : Manager) :
  same_engine m (with_calls f m).
Proof. repeat split. Qed.

Lemma same_engine_refl (m : Manager) : same_engine m m.
Proof. repeat split. Qed.

(** What an operation does to an escrow: in a state that its guard
    lets through it either throws, leaving the engine as it was, or makes the
    move that [target] gives; in any other state a method throws and the
    deadline only clears its timer. *)
Lemma run_op_cases (w : Wallet) (m : Manager) (i : string) (e : Escrow) (op : Op)
    (now tnow : Z) :
  escrows m !! i = Some e ->
  match target op (state e) with
  | Some s =>
      (exists err m', run_op w i op now tnow m = Throw err m' /\ same_engine m m'
                      /\ StateConflictError err = false)
      \/ (exists e' m', run_op w i op now tnow m = Return tt m' /\
                        moved m m' i e e' s tnow)
  | None =>
      (exists err, run_op w i op now tnow m = Throw err m /\
                   StateConflictError err = true)
      \/ (op = OpDeadline /\
          run_op w i op now tnow m = Return tt (with_timers (delete i) m))
  end.
Proof.
  intros Hi.
  destruct (target op (state e)) as [s |] eqn:Ht.
  - destruct op; cbn in Ht.
    + case_bool_decide as Hs; [| discriminate]. injection Ht as <-.
      pose proof (fund_run w m i e opts now tnow Hi Hs) as Hr.
      unfold run_op, bind.
      destruct (EscrowManager.fund_wait w e opts) as [[c [[|] | msg]] |].
      * destruct Hr as (e2 & m2 & -> & Hmv2 & _). right. eauto.
      * rewrite Hr. left. eauto using same_engine_calls.
      * rewrite Hr. left. eauto using same_engine_calls.
      * destruct Hr as (e2 & m2 & -> & Hmv2 & _). right. eauto.
    + case_bool_decide as Hs; [| discriminate]. injection Ht as <-.
      destruct (deliver_run m i e proof now tnow Hi Hs) as (e2 & m2 & Hr & Hmv2 & _).
      unfold run_op, bind. rewrite Hr. right. eauto.
    + assert (Hs : state e = FUNDED \/ state e = DELIVERED).
      { destruct (state e); vm_compute in Ht; try discriminate; auto. }
      assert (s = RELEASED) as ->.
      { destruct Hs as [Hs | Hs]; rewrite Hs in Ht; vm_compute in Ht; congruence. }
      pose proof (release_run w m i e now tnow Hi Hs) as Hr.
      unfold run_op, bind.
      destruct (EscrowManager.worker_payment w e) as [[c [preimage | msg]] |].
      * destruct Hr as (e2 & m2 & -> & Hmv2 & _). right. eauto.
      * rewrite Hr. left. eauto using same_engine_calls.
      * rewrite Hr. left. eauto using same_engine_refl.
    + assert (Hs : state e <> RELEASED /\ state e <> REFUNDED).
      { destruct (state e); vm_compute in Ht; try discriminate; split; discriminate. }
      assert (s = REFUNDED) as ->.
      { destruct (state e); vm_compute in Ht; congruence. }
      destruct Hs as [H1 H2].
      pose proof (refund_run w m i e refundAddr reason now tnow Hi H1 H2) as Hr.
      unfold run_op, bind.
      destruct (EscrowManager.refund_payment w e refundAddr reason)
        as [[c [preimage | msg]] |].
      * destruct Hr as (e2 & m2 & -> & Hmv2 & _). right. eauto.
      * rewrite Hr. left. eauto using same_engine_calls.
      * destruct Hr as (e2 & m2 & -> & Hmv2 & _). right. eauto.
    + assert (Hs : state e <> RELEASED /\ state e <> REFUNDED).
      { destruct (state e); vm_compute in Ht; try discriminate; split; discriminate. }
      assert (s = DISPUTED) as ->.
      { destruct (state e); vm_compute in Ht; congruence. }
      destruct Hs as [H1 H2].
      destruct (dispute_run m i e reason raisedBy now tnow Hi H1 H2)
        as (e2 & m2 & Hr & Hmv2 & _).
      unfold run_op, bind. rewrite Hr. right. eauto.
    + pose proof (deadline_run m i e tnow Hi) as Hr.
      destruct (funded_or_created (state e)); [| discriminate].
      injection Ht as <-.
      destruct Hr as (e2 & m2 & Hr & Hmv2 & _).
      unfold run_op. rewrite Hr. right. eauto.
  - destruct op.
    1-5: left; apply guard_rejects with (e := e); [assumption .. | discriminate].
    right. split; [reflexivity |].
    pose proof (deadline_run m i e tnow Hi) as Hr. cbn in Ht.
    destruct (funded_or_created (state e)); [discriminate | exact Hr].
Qed.

Lemma moved_same_target (m m' : Manager) (i : string) (e e1 e2 : Escrow)
    (s1 s2 : State) (tnow : Z) :
  moved m m' i e e1 s1 tnow -> moved m m' i e e2 s2 tnow -> s1 = s2.
Proof. intros (H1 & <- & _) (H2 & <- & _). congruence. Qed.

Lemma moved_changes (m m' : Manager) (i : string) (e e' : Escrow) (s : State) (tnow : Z) :
  moved m m' i e e' s tnow -> histories m' <> histories m.
Proof.
  intros (_ & _ & _ & Hh & _) Heq. unfold hist in Hh. rewrite Heq in Hh.
  apply (f_equal length) in Hh. rewrite length_app in Hh. cbn in Hh. lia.
Qed.

(** A successful operation makes the move that [target] gives for it. *)
Lemma moves_target (w : Wallet) (op : Op) (i : string) (now tnow : Z) (m : Manager)
    (from to : State) :
  moves w op i now tnow m from to -> target op from = Some to.
Proof.
  intros (e & e' & m' & Hi & Hfrom & Hrun & Hmv). subst from.
  pose proof (run_op_cases w m i e op now tnow Hi) as Hc.
  destruct (target op (state e)) as [s |].
  - destruct Hc as [(err & m2 & Hr & _) | (e2 & m2 & Hr & Hmv2)]; [congruence |].
    rewrite Hr in Hrun. injection Hrun as ->.
    f_equal. eapply moved_same_target; eassumption.
  - exfalso. destruct Hc as [(err & Hr & _) | (_ & Hr)]; [congruence |].
    rewrite Hr in Hrun. injection Hrun as <-.
    apply moved_changes in Hmv. apply Hmv. reflexivity.
Qed.

(** With a wallet that pays, an operation makes the move that [target]
    gives (a release needs a destination to pay to). *)
Lemma target_moves (m : Manager) (i : string) (e : Escrow) (op : Op) (to : State)
    (now tnow : Z) :
  escrows m !! i = Some e ->
  target op (state e) = Some to ->
  truthy (workerInvoice e) || truthy (workerAddress e) = true ->
  moves cooperative op i now tnow m (state e) to.
Proof.
  intros Hi Ht Hdest.
  pose proof (run_op_cases cooperative m i e op now tnow Hi) as Hc.
  rewrite Ht in Hc.
  destruct Hc as [(err & m' & Hr & _ & Herr) | (e' & m' & Hr & Hmv)].
  - exfalso. revert Hr Herr.
    destruct op; run_with Hi; destruct (state e); try discriminate Ht;
      decide_states;
      unfold EscrowManager.fund_wait, EscrowManager.worker_payment,
        EscrowManager.refund_payment;
      repeat match goal with
             | |- context [if ?b then _ else _] =>
                 let Hb := fresh in destruct b eqn:Hb; cbn
             end;
      try discriminate;
      try (intros [= <- <-]; discriminate);
      try (apply orb_true_iff in Hdest; destruct Hdest; congruence).
    all: match goal with
         | |- context [transition ?i ?s ?t ?m1] =>
             edestruct (transition_spec m1 i) as (m2 & -> & _);
             [ cbn; rewrite ?lookup_alter_eq, Hi; reflexivity | discriminate ]
         end.
  - exists e, e', m'. auto.
Qed.

Lemma reach_state (s : State) :
  exists e, escrows (reach s) !! "e1" = Some e /\ state e = s /\
            truthy (workerInvoice e) || truthy (workerAddress e) = true.
Proof. destruct s; vm_compute; eauto. Qed.

(** The escrow that [create] returns for the sample configuration. *)
Example create_sample :
  exists e m,
    EscrowManager.create cooperative sample_config "e1" 1000 1001 1002
      (createEscrowManager None true) = Return e m /\
    state e = CREATED /\ amountSats e = 500 /\ invoice e = "lnbc500n1escrow" /\
    deadline e = 1000 + 3600000 /\
    hist m e = [mkHist None CREATED 1000] /\
    timers m !! "e1" = Some (3601000 - 1001) /\
    calls m = [CallCreateInvoice 500 "Escrow: translate" 3600].
Proof. do 2 eexists. split; [vm_compute; reflexivity |]. repeat split. Qed.

(** C1 (amended). Calls on a manager are taken one at a time: a call of
    a method runs from its guard to its transition before another call or
    a deadline timer touches the manager ([run_op]). Then the state
    machine permits exactly the transitions of the specification's table
    and CREATED->REFUNDED, DISPUTED->REFUNDED, EXPIRED->REFUNDED,
    CREATED->DISPUTED, DISPUTED->DISPUTED and EXPIRED->DISPUTED: an
    operation (fund, deliver, release, refund, dispute, deadline expiry)
    succeeds with a transition only when the pair of states is one of
    these; each of these pairs is taken by an operation on an escrow
    brought into the first state by the methods; no transition leaves
    RELEASED or REFUNDED; and only [refund] and [dispute] leave EXPIRED. *)
Theorem escrow_transition_table :
  (forall w op i now tnow m from to,
     moves w op i now tnow m from to -> code_table from to = true) /\
  (forall from to,
     code_table from to = true ->
     moves cooperative (op_into to) "e1" 5000 5001 (reach from) from to) /\
  (forall w op i now tnow m from to,
     moves w op i now tnow m from to -> from <> RELEASED /\ from <> REFUNDED) /\
  (forall w op i now tnow m to,
     moves w op i now tnow m EXPIRED to ->
     (exists a r, op = OpRefund a r /\ to = REFUNDED) \/
     (exists r b, op = OpDispute r b /\ to = DISPUTED)).
Proof.
  split; [| split; [| split]].
  - intros w op i now tnow m from to Hm.
    apply moves_target in Hm.
    destruct op, from; vm_compute in Hm;
      try discriminate; injection Hm as <-; reflexivity.
  - intros from to Ht.
    destruct (reach_state from) as (e & Hi & <- & Hd).
    apply target_moves; [assumption | | assumption].
    destruct (state e), to; try discriminate Ht; reflexivity.
  - intros w op i now tnow m from to Hm.
    apply moves_target in Hm.
    split; intros ->; destruct op; vm_compute in Hm; discriminate.
  - intros w op i now tnow m to Hm.
    apply moves_target in Hm.
    destruct op; vm_compute in Hm; try discriminate; injection Hm as <-; eauto.
Qed.

(** Against C1 as stated: [refund] and [dispute] succeed from CREATED,
    from DISPUTED and from EXPIRED; none of these pairs is in the table of
    the specification, and EXPIRED is left. *)
Lemma refund_and_dispute_leave_table :
  (moves cooperative (OpRefund None None) "e1" 5000 5001 (reach CREATED) CREATED REFUNDED
   /\ spec_table CREATED REFUNDED = false) /\
  (moves cooperative (OpRefund None None) "e1" 5000 5001 (reach DISPUTED) DISPUTED REFUNDED
   /\ spec_table DISPUTED REFUNDED = false) /\
  (moves cooperative (OpDispute None None) "e1" 5000 5001 (reach CREATED) CREATED DISPUTED
   /\ spec_table CREATED DISPUTED = false) /\
  (moves cooperative (OpDispute None None) "e1" 5000 5001 (reach DISPUTED) DISPUTED DISPUTED
   /\ spec_table DISPUTED DISPUTED = false) /\
  (moves cooperative (OpRefund (Some "client@x") None) "e1" 5000 5001 (reach EXPIRED)
     EXPIRED REFUNDED
   /\ spec_table EXPIRED REFUNDED = false) /\
  (moves cooperative (OpDispute (Some "late") (Some "client")) "e1" 5000 5001
     (reach EXPIRED) EXPIRED DISPUTED
   /\ spec_table EXPIRED DISPUTED = false).
Proof.
  repeat split;
    match goal with
    | |- moves _ ?op _ _ _ (reach ?s) _ ?to =>
        destruct (reach_state s) as (e & Hi & Hs & Hd);
        rewrite <- Hs at 2; apply target_moves;
        [ exact Hi | rewrite Hs; reflexivity | exact Hd ]
    end.
Qed.

(** C2. Once an escrow is RELEASED or REFUNDED, each of [release],
    [refund], [fund] and [deliver] throws the error of a state conflict
    and returns the manager as it was: the state of the escrow and the
    rest of its record, its history and its metadata are unchanged, and
    the wallet is not called. *)
Theorem settled_escrow_rejects (w : Wallet) (m : Manager) (i : string) (e : Escrow)
    (opts : FundOpts) (proof refundAddr reason : option string) (now tnow : Z) :
  escrows m !! i = Some e ->
  state e = RELEASED \/ state e = REFUNDED ->
  (exists err, EscrowManager.release w i now tnow m = Throw err m
               /\ StateConflictError err = true) /\
  (exists err, EscrowManager.refund w i refundAddr reason now tnow m = Throw err m
               /\ StateConflictError err = true) /\
  (exists err, EscrowManager.fund w i opts now tnow m = Throw err m
               /\ StateConflictError err = true) /\
  (exists err, EscrowManager.deliver i proof now tnow m = Throw err m
               /\ StateConflictError err = true).
Proof.
  intros Hi Hs.
  split; [| split; [| split]]; run_with Hi;
    destruct Hs as [-> | ->]; cbn; eauto.
Qed.


(** C8. The firing of a deadline timer does nothing to an escrow that is
    neither CREATED nor FUNDED (RELEASED in particular): its object, its
    history and its metadata are as before, the observer is not called
    and the wallet is not touched; only the timer entry is dropped. An
    escrow that is CREATED or FUNDED is moved to EXPIRED. *)
Theorem deadline_firing (m : Manager) (i : string) (e : Escrow) (tnow : Z) :
  escrows m !! i = Some e ->
  exists m', deadlineTimerFired i tnow m = Return tt m' /\
    (state e = CREATED \/ state e = FUNDED ->
     exists e', moved m m' i e e' EXPIRED tnow) /\
    (state e <> CREATED -> state e <> FUNDED ->
     escrows m' = escrows m /\ histories m' = histories m /\ metas m' = metas m /\
     notified m' = notified m /\ calls m' = calls m /\ order m' = order m /\
     internal m' i = internal m i).
Proof.
  intros Hi. pose proof (deadline_run m i e tnow Hi) as Hr.
  destruct (funded_or_created (state e)) eqn:Hfc.
  - destruct Hr as (e' & m' & Hr & Hmv & _). exists m'.
    split; [exact Hr |]. split; [eauto |].
    intros H1 H2. apply funded_or_created_spec in Hfc. tauto.
  - rewrite Hr. eexists. split; [reflexivity |].
    split; [| intros _ _; repeat split].
    intros Hs. apply funded_or_created_spec in Hs. congruence.
Qed.

(** [startDeadlineTimer] on a deadline that has already passed takes the
    same decision at once. *)
Lemma startDeadlineTimer_passed (m : Manager) (i : string) (e : Escrow) (now tnow : Z) :
  escrows m !! i = Some e -> deadline e <> 0 -> deadline e - now <= 0 ->
  if funded_or_created (state e) then
    exists e' m', startDeadlineTimer i now tnow m = Return tt m' /\
                  moved m m' i e e' EXPIRED tnow
  else startDeadlineTimer i now tnow m = Return tt m.
Proof.
  intros Hi Hd Hrem. unfold startDeadlineTimer.
  cbv beta iota delta [bind gets ret]. rewrite Hi.
  destruct (Z.eqb_spec (deadline e) 0) as [| _]; [contradiction |].
  destruct (Z.leb_spec (deadline e - now) 0) as [_ |]; [| lia].
  destruct (funded_or_created (state e)); [| reflexivity].
  destruct (transition_moved m m i e e EXPIRED tnow Hi)
    as (e' & m' & Heq & Hmv & _); try reflexivity.
  rewrite Heq. eauto.
Qed.

(** C10. [fund(id, { autoDetect: false })] on a CREATED escrow moves it to
    FUNDED whatever the wallet is: the result is the same for every
    wallet, the one that rejects every call included, and no call is
    made on the wallet. *)
Theorem fund_without_detection (m : Manager) (i : string) (e : Escrow)
    (timeout : option Z) (now tnow : Z) :
  escrows m !! i = Some e -> state e = CREATED ->
  exists e' m',
    (forall w, EscrowManager.fund w i (mkFundOpts (Some false) timeout) now tnow m
               = Return e' m') /\
    moved m m' i e e' FUNDED tnow /\ fundedAt e' = Some now /\
    calls m' = calls m.
Proof.
  intros Hi Hs.
  pose proof (fund_run failing m i e (mkFundOpts (Some false) timeout) now tnow Hi Hs)
    as Hr.
  unfold EscrowManager.fund_wait in Hr. cbn in Hr.
  destruct Hr as (e' & m' & Hr & Hmv & Hf & Hc & _).
  exists e', m'. split; [| auto].
  intros w. rewrite <- Hr. run_with Hi. rewrite Hs. decide_states.
  unfold EscrowManager.fund_wait. cbn. reflexivity.
Qed.

(** A push onto the history of an object handed out by [get], or a key
    set in its metadata, is a push onto the history, a key set in the
    metadata, of the stored escrow. *)
Lemma get_aliases (m : Manager) (i : string) (copy : Escrow) (h : HistEntry)
    (k : string) (v : MetaVal) :
  EscrowManager.get i m = Return (Some copy) m ->
  snap_history <$> internal (mutate (PushHistory h) copy m).2 i
    = Some (hist m copy ++ [h])%list /\
  snap_metadata <$> internal (mutate (SetMetadata k v) copy m).2 i
    = Some (<[k := v]> (meta m copy)).
Proof.
  unfold EscrowManager.get, gets. intros [= Hi].
  unfold internal, observe, hist, meta. cbn. rewrite Hi. cbn.
  unfold push, set_key. rewrite !lookup_insert_eq. auto.
Qed.

(** An assignment to a field of the object handed out stays with the
    caller. *)
Lemma get_copies_fields (m : Manager) (i : string) (copy : Escrow)
    (f : Escrow -> Escrow) :
  EscrowManager.get i m = Return (Some copy) m ->
  internal (mutate (AssignFields f) copy m).2 i = internal m i.
Proof. reflexivity. Qed.

(** C7 fails on the code: on the manager that has created escrow ["e1"],
    the object returned by [get] (and by [list]) carries the references
    of the stored object, so a caller who pushes an entry onto its
    [history] or sets a key of its [metadata] has changed the history and
    the metadata of the escrow inside the manager. *)
Theorem get_and_list_share_history_and_metadata :
  exists copy,
    EscrowManager.get "e1" (reach CREATED) = Return (Some copy) (reach CREATED) /\
    EscrowManager.list None (reach CREATED) = Return [copy] (reach CREATED) /\
    snap_history <$> internal (reach CREATED) "e1" = Some [mkHist None CREATED 1000] /\
    snap_history <$> internal (mutate (PushHistory forged) copy (reach CREATED)).2 "e1"
      = Some [mkHist None CREATED 1000; forged] /\
    snap_metadata <$> internal (reach CREATED) "e1" = Some ∅ /\
    snap_metadata <$> internal (mutate (SetMetadata "refundReason" forged_reason) copy
                                  (reach CREATED)).2 "e1"
      = Some {[ "refundReason" := forged_reason ]}.
Proof.
  eexists. split; [vm_compute; reflexivity |].
  repeat split; vm_compute; reflexivity.
Qed.

(** The theorems above at the sample manager. *)
Lemma settled_escrow_rejects_witness :
  (exists err, EscrowManager.release failing "e1" 5000 5001 (reach RELEASED)
               = Throw err (reach RELEASED) /\ StateConflictError err = true) /\
  (exists err, EscrowManager.refund failing "e1" (Some "client@x") None 5000 5001
                 (reach RELEASED)
               = Throw err (reach RELEASED) /\ StateConflictError err = true) /\
  (exists err, EscrowManager.fund failing "e1" (mkFundOpts None None) 5000 5001
                 (reach RELEASED)
               = Throw err (reach RELEASED) /\ StateConflictError err = true) /\
  (exists err, EscrowManager.deliver "e1" (Some "late work") 5000 5001 (reach RELEASED)
               = Throw err (reach RELEASED) /\ StateConflictError err = true).
Proof.
  eapply (settled_escrow_rejects failing (reach RELEASED) "e1" _
            (mkFundOpts None None) (Some "late work") (Some "client@x") None 5000 5001).
  - vm_compute. reflexivity.
  - left. reflexivity.
Defined.


Lemma deadline_firing_witness :
  exists m', deadlineTimerFired "e1" 3601000 (reach RELEASED) = Return tt m' /\
    escrows m' = escrows (reach RELEASED) /\
    histories m' = histories (reach RELEASED) /\
    notified m' = notified (reach RELEASED).
Proof.
  epose proof (deadline_firing (reach RELEASED) "e1" _ 3601000) as H.
  edestruct H as (m' & Hrun & _ & Hsame).
  - vm_compute. reflexivity.
  - exists m'. split; [exact Hrun |].
    destruct Hsame as (He & Hh & _ & Hn & _); [discriminate | discriminate |].
    auto.
Defined.

Lemma fund_without_detection_witness :
  exists e' m',
    EscrowManager.fund failing "e1" (mkFundOpts (Some false) None) 2000 2001
      (reach CREATED) = Return e' m' /\
    state e' = FUNDED /\ calls m' = calls (reach CREATED).
Proof.
  epose proof (fund_without_detection (reach CREATED) "e1" _ None 2000 2001) as H.
  edestruct H as (e' & m' & Hrun & Hmv & _ & Hc).
  - vm_compute. reflexivity.
  - reflexivity.
  - exists e', m'. split; [apply Hrun |]. split; [apply Hmv | exact Hc].
Defined.

End EscrowProps.

(** * Properties of the streaming provider and client *)

Module StreamProps.

Import Stream.
Local Open Scope N_scope.

(** ** Proof submission *)

Example hex_decode_stops_at_non_hex :
  hex_decode "c0ffee" = [Byte.xc0; Byte.xff; Byte.xee] /\
  hex_decode "C0fFzz11" = [Byte.xc0; Byte.xff] /\
  hex_decode "abc" = [Byte.xab].
Proof. repeat split. Qed.

Lemma truthy_Some (s : string) : truthy (Some s) = true <-> s <> EmptyString.
Proof.
  unfold truthy. destruct (String.eqb_spec s EmptyString); cbn; split;
    congruence.
Qed.

Section Submission.

Variable sha256_hex : list Byte.byte -> string.

Lemma matching_proof_unlocks (body : Body) (ss : gmap string Session)
    (sid pre : string) (session : Session) (pp : Pending) :
  matches sha256_hex body ss sid pre session pp ->
  _handlePayment sha256_hex body ss
  = (Unlocked, <[sid := mark_paid (p_batchIndex pp) session]> ss).
Proof.
  intros (-> & Hpre & Hs & Hpp & Hhash). unfold _handlePayment.
  rewrite Hs, Hpp. apply truthy_Some in Hpre. rewrite Hpre. cbn.
  rewrite bool_decide_eq_true_2 by congruence. reflexivity.
Qed.

Lemma unlocked_matches (body : Body) (ss : gmap string Session) :
  (_handlePayment sha256_hex body ss).1 = Unlocked -> accepts sha256_hex body ss.
Proof.
  unfold _handlePayment, accepts, matches.
  destruct body as [| [sid |] preimage]; try discriminate.
  destruct (ss !! sid) as [session |] eqn:Hs; try discriminate.
  destruct (truthy preimage) eqn:Hpre;
    destruct (pendingPayment session) as [pp |] eqn:Hpp; try discriminate.
  case_bool_decide as Hhash; try discriminate. intros _.
  destruct preimage as [pre |]; [| discriminate].
  exists sid, pre, session, pp. apply truthy_Some in Hpre. auto.
Qed.

(** Every reply but [Unlocked] comes with the sessions as they were. *)
Lemma rejected_unchanged (body : Body) (ss : gmap string Session) :
  (_handlePayment sha256_hex body ss).1 <> Unlocked ->
  (_handlePayment sha256_hex body ss).2 = ss.
Proof.
  unfold _handlePayment.
  repeat case_match; cbn; intros Hrej; try reflexivity; congruence.
Qed.

(** The reply to each kind of rejected submission. *)
Lemma rejection_replies (ss : gmap string Session) :
  _handlePayment sha256_hex BadJson ss = (InvalidJson, ss) /\
  (forall preimage, _handlePayment sha256_hex (Json None preimage) ss
                    = (UnknownSession, ss)) /\
  (forall sid preimage, ss !! sid = None ->
     _handlePayment sha256_hex (Json (Some sid) preimage) ss = (UnknownSession, ss)) /\
  (forall sid preimage session, ss !! sid = Some session ->
     pendingPayment session = None ->
     _handlePayment sha256_hex (Json (Some sid) preimage) ss = (NoPendingOrMissing, ss)) /\
  (forall sid preimage session, ss !! sid = Some session ->
     truthy preimage = false ->
     _handlePayment sha256_hex (Json (Some sid) preimage) ss = (NoPendingOrMissing, ss)) /\
  (forall sid pre session pp, ss !! sid = Some session ->
     pendingPayment session = Some pp -> pre <> EmptyString ->
     p_paymentHash pp <> Some (sha256_hex (hex_decode pre)) ->
     _handlePayment sha256_hex (Json (Some sid) (Some pre)) ss = (InvalidPreimage, ss)).
Proof.
  unfold _handlePayment. repeat split.
  - intros sid preimage ->. reflexivity.
  - intros sid preimage session -> ->. destruct (truthy preimage); reflexivity.
  - intros sid preimage session -> ->. reflexivity.
  - intros sid pre session pp -> -> Hpre Hhash.
    apply truthy_Some in Hpre. rewrite Hpre. cbn.
    rewrite bool_decide_eq_false_2 by congruence. reflexivity.
Qed.

End Submission.

(** C4. A submitted proof is accepted exactly when its session exists,
    the session has a pending payment, the proof holds a preimage and the
    SHA-256 of the preimage is the payment hash of that pending payment.
    When accepted, the reply signals the unlocked batch, the batch index
    of the pending payment joins [paid] and [pendingPayment] is cleared;
    no other session changes. In every other case (malformed body,
    unknown session, no pending payment, missing preimage, other hash)
    the reply is a rejection and the sessions are unchanged, [paid] and
    [pendingPayment] of every session included. *)
Theorem proof_accepted_iff (sha256_hex : list Byte.byte -> string) (body : Body)
    (ss : gmap string Session) :
  (accepts sha256_hex body ss <-> (_handlePayment sha256_hex body ss).1 = Unlocked) /\
  (forall sid pre session pp,
     matches sha256_hex body ss sid pre session pp ->
     _handlePayment sha256_hex body ss
     = (Unlocked, <[sid := mark_paid (p_batchIndex pp) session]> ss) /\
     paid (mark_paid (p_batchIndex pp) session) = paid session ∪ {[p_batchIndex pp]} /\
     pendingPayment (mark_paid (p_batchIndex pp) session) = None) /\
  (~ accepts sha256_hex body ss ->
   (_handlePayment sha256_hex body ss).1 <> Unlocked /\
   (_handlePayment sha256_hex body ss).2 = ss).
Proof.
  split; [| split].
  - split.
    + intros (sid & pre & session & pp & Hm).
      rewrite (matching_proof_unlocks _ _ _ _ _ _ _ Hm). reflexivity.
    + apply unlocked_matches.
  - intros sid pre session pp Hm. split; [| split; reflexivity].
    exact (matching_proof_unlocks _ _ _ _ _ _ _ Hm).
  - intros Hno.
    assert (Hr : (_handlePayment sha256_hex body ss).1 <> Unlocked).
    { intros Hu. apply Hno, unlocked_matches, Hu. }
    split; [exact Hr | apply rejected_unchanged, Hr].
Qed.

(** ** The producer loop *)

Lemma append_empty_r (s : string) : (s ++ EmptyString)%string = s.
Proof.
  induction s as [| c s IH]; [reflexivity |].
  change (String c (s ++ EmptyString)%string = String c s). now rewrite IH.
Qed.

Lemma append_assoc (a b c : string) : ((a ++ b) ++ c)%string = (a ++ (b ++ c))%string.
Proof.
  induction a as [| x a IH]; [reflexivity |].
  change (String x ((a ++ b) ++ c)%string = String x (a ++ (b ++ c))%string).
  now rewrite IH.
Qed.

(** After a [break] that left the buffer empty, the code after the loop
    writes the [done] event of a completed stream. *)
Lemma after_break (sid : string) (st : Loop) (s : Session) :
  l_sessions st !! sid = Some s -> closed s = false ->
  l_buffer st = EmptyString ->
  after_loop sid Broken st
  = Some (mkLoop (l_sessions st)
            (l_events st ++ [EvDone Complete (batchIndex s) (totalSats s)
                               (totalTokens s)])%list
            EmptyString (l_tokenCount st)).
Proof.
  intros Hs Hopen Hbuf. unfold after_loop.
  rewrite Hs, Hbuf. cbn [mbind option_bind String.length].
  change (0 <? N.of_nat 0) with false. cbn [andb]. rewrite Hs.
  cbn [mbind option_bind]. rewrite Hopen. cbn [negb]. rewrite Hbuf. reflexivity.
Qed.

Section OneBatch.

Variable sha256_hex : list Byte.byte -> string.
Variable P : Provider.
Hypothesis one_batch_at_most : maxBatches P = 1.

Variable sid : string.
Variable firstBatchFree : bool.
Variable gates : N -> Gate.
Variable gend : GenEnd.

(** With at most one batch allowed, the loop runs until the batch is
    full, writes it and the [done] event of the cap, and breaks. *)
Lemma produce_one_batch (toks : list string) :
  forall (ss : gmap string Session) (evs : list SSE) (buf : string) (k : N)
         (s : Session),
  ss !! sid = Some s -> closed s = false ->
  k < tokensPerBatch P -> tokensPerBatch P <= k + N.of_nat (length toks) ->
  produce sha256_hex P sid firstBatchFree gates toks gend (mkLoop ss evs buf k)
  = Some (Broken,
          mkLoop (<[sid := flush_batch (tokensPerBatch P) s]> ss)
            (evs ++ [EvContent
                       (buf ++ join (take (N.to_nat (tokensPerBatch P - k)) toks))%string
                       (batchIndex s + 1) (tokensPerBatch P);
                     EvDone MaxBatches (batchIndex s + 1) (totalSats s)
                       (totalTokens s + tokensPerBatch P)])%list
            EmptyString 0).
Proof.
  induction toks as [| tok rest IH]; intros ss evs buf k s Hs Hopen Hk Hlen.
  - cbn in Hlen. lia.
  - cbn [produce l_sessions l_events l_buffer l_tokenCount]. rewrite Hs. cbn.
    rewrite Hopen.
    destruct (N.leb_spec (tokensPerBatch P) (k + 1)) as [Hfull | Hmore].
    + assert (Hk1 : k + 1 = tokensPerBatch P) by lia.
      rewrite one_batch_at_most.
      destruct (N.leb_spec 1 (batchIndex s + 1)) as [_ | Hlt]; [| lia].
      rewrite Hk1.
      replace (N.to_nat (tokensPerBatch P - k)) with 1%nat by lia.
      cbn. rewrite append_empty_r, <- app_assoc. reflexivity.
    + rewrite (IH ss evs (buf ++ tok)%string (k + 1) s Hs Hopen Hmore)
        by (cbn [length] in Hlen; lia).
      replace (N.to_nat (tokensPerBatch P - k))
        with (S (N.to_nat (tokensPerBatch P - (k + 1)))) by lia.
      cbn [take join fold_right]. rewrite append_assoc. reflexivity.
Qed.

End OneBatch.

(** C6 fails on the code: with 50 tokens a batch and one batch at most,
    whatever the tokens (50 or more), the session id, the wallet and the
    other options, [handleRequest] writes the [session] event, one
    [content] event with the first 50 tokens, the [done] event with reason
    [max_batches], and then a second [done] event, with reason
    [complete]; it writes no [invoice] event. *)
Theorem max_batches_done_twice (sha256_hex : list Byte.byte -> string)
    (sats : option N) (timeout : option Z) (expiry : option N)
    (sid : string) (firstBatchFree : option bool) (gates : N -> Gate)
    (toks : list string) (gend : GenEnd) (ss : gmap string Session) :
  (50 <= length toks)%nat ->
  exists ss',
    handleRequest sha256_hex (one_batch sats timeout expiry) sid firstBatchFree
      gates toks gend ss
    = Some (ss', [EvSession sid;
                  EvContent (join (take 50 toks)) 1 50;
                  EvDone MaxBatches 1 0 50;
                  EvDone Complete 1 0 50]) /\
    closed <$> ss' !! sid = Some true.
Proof.
  intros Hlen. unfold handleRequest.
  erewrite produce_one_batch;
    [ | reflexivity | apply lookup_insert_eq | reflexivity
      | cbn; lia | cbn; lia ].
  cbn [mbind option_bind].
  erewrite after_break; [| apply lookup_insert_eq | reflexivity | reflexivity].
  cbn [mbind option_bind l_sessions l_events].
  eexists. split; [reflexivity |].
  rewrite lookup_alter_eq, lookup_insert_eq. reflexivity.
Qed.

Lemma max_batches_done_twice_witness :
  exists ss',
    handleRequest (fun _ => EmptyString) (one_batch None None None) "s1" None
      (fun _ => mkGate (Rejected "no invoice") 0 []) (repeat "tok " 60) GenReturn ∅
    = Some (ss', [EvSession "s1";
                  EvContent (join (take 50 (repeat "tok " 60))) 1 50;
                  EvDone MaxBatches 1 0 50;
                  EvDone Complete 1 0 50]) /\
    closed <$> ss' !! "s1" = Some true.
Proof.
  apply (max_batches_done_twice (fun _ => EmptyString) None None None "s1" None
           (fun _ => mkGate (Rejected "no invoice") 0 []) (repeat "tok " 60)
           GenReturn ∅).
  simpl. lia.
Defined.

(** Whatever happened before, [handleRequest] leaves its session closed. *)
Lemma handleRequest_closes (sha256_hex : list Byte.byte -> string) (P : Provider)
    (sid : string) (firstBatchFree : option bool) (gates : N -> Gate)
    (toks : list string) (gend : GenEnd) (ss ss' : gmap string Session)
    (evs : list SSE) (s : Session) :
  handleRequest sha256_hex P sid firstBatchFree gates toks gend ss = Some (ss', evs) ->
  ss' !! sid = Some s -> closed s = true.
Proof.
  unfold handleRequest. intros Hrun Hs.
  destruct (produce _ _ _ _ _ _ _ _) as [[exit st1] |]; [| discriminate].
  cbn [mbind option_bind] in Hrun.
  destruct (after_loop sid exit st1) as [st |]; [| discriminate].
  injection Hrun as <- <-.
  rewrite lookup_alter_eq in Hs.
  destruct (l_sessions st !! sid); [| discriminate].
  injection Hs as <-. reflexivity.
Qed.

(** *** A pause is always followed by [done] *)

Ltac no_pause_events :=
  unfold no_pause in *;
  repeat (apply Forall_app; split); try assumption; repeat constructor.

Section Pause.

Variable sha256_hex : list Byte.byte -> string.

(** Proof submissions never touch the [closed] flag of a session. *)
Lemma handlePayment_closed (body : Body) (ss : gmap string Session) (k : string) :
  closed <$> (_handlePayment sha256_hex body ss).2 !! k = closed <$> ss !! k.
Proof.
  unfold _handlePayment.
  repeat case_match; cbn [snd]; try reflexivity.
  subst. destruct (decide (s = k)) as [-> | Hne].
  - rewrite lookup_insert_eq. match goal with H : ss !! k = Some _ |- _ => rewrite H end.
    reflexivity.
  - rewrite lookup_insert_ne by assumption. reflexivity.
Qed.

Lemma handle_posts_closed (posts : list Body) :
  forall (ss : gmap string Session) (k : string),
  closed <$> handle_posts sha256_hex posts ss !! k = closed <$> ss !! k.
Proof.
  induction posts as [| b posts IH]; intros ss k; cbn [handle_posts fold_left].
  - reflexivity.
  - unfold handle_posts in IH. rewrite IH. apply handlePayment_closed.
Qed.

Lemma poll_closed (sid : string) (batchIdx : N) (start timeoutMs : Z)
    (rounds : list Round) :
  forall (ss ss' : gmap string Session) (confirmed : bool) (k : string),
  poll sha256_hex sid batchIdx start timeoutMs rounds ss = Some (confirmed, ss') ->
  closed <$> ss' !! k = closed <$> ss !! k.
Proof.
  induction rounds as [| r rounds IH]; intros ss ss' confirmed k; cbn [poll].
  - discriminate.
  - destruct (negb _); [intros [= <- <-]; reflexivity |].
    destruct (ss !! sid) as [session |] eqn:Hs; cbn [mbind option_bind];
      [| discriminate].
    case_bool_decide; [intros [= <- <-]; reflexivity |].
    destruct (r_wallet r) as [[|] | msg].
    + intros [= <- <-]. rewrite lookup_alter.
      case_decide as Hk.
      * subst k. rewrite <- option_fmap_compose.
        rewrite <- (handle_posts_closed (r_posts_wallet r) ss sid).
        destruct (handle_posts sha256_hex (r_posts_wallet r) ss !! sid); reflexivity.
      * apply handle_posts_closed.
    + intros Hrec. rewrite (IH _ _ _ _ Hrec). rewrite !handle_posts_closed. reflexivity.
    + intros Hrec. rewrite (IH _ _ _ _ Hrec). rewrite !handle_posts_closed. reflexivity.
Qed.

Lemma waitForPayment_closed (sid : string) (timeoutMs start : Z) (rounds : list Round)
    (ss ss' : gmap string Session) (confirmed : bool) (k : string) :
  _waitForPayment sha256_hex sid timeoutMs start rounds ss = Some (confirmed, ss') ->
  closed <$> ss' !! k = closed <$> ss !! k.
Proof.
  unfold _waitForPayment.
  destruct (ss !! sid) as [session |]; cbn [mbind option_bind]; [| discriminate].
  destruct (pendingPayment session).
  - apply poll_closed.
  - intros [= <- <-]. reflexivity.
Qed.

Variable P : Provider.
Variable sid : string.
Variable firstBatchFree : bool.
Variable gates : N -> Gate.
Variable gend : GenEnd.

(** The loop writes a [paused] event only as its last act: it then
    breaks with an empty buffer and an open session. *)
Lemma produce_pause (toks : list string) :
  forall (st st' : Loop) (exit : Exit),
  produce sha256_hex P sid firstBatchFree gates toks gend st = Some (exit, st') ->
  no_pause (l_events st) ->
  no_pause (l_events st') \/
  (exit = Broken /\ l_buffer st' = EmptyString /\
   (exists s, l_sessions st' !! sid = Some s /\ closed s = false) /\
   exists pre b t, l_events st' = (pre ++ [EvPaused b t sid])%list /\ no_pause pre).
Proof.
  induction toks as [| tok rest IH]; intros st st' exit; cbn [produce].
  - intros [= <- <-]. auto.
  - destruct (l_sessions st !! sid) as [session |] eqn:Hs;
      cbn [mbind option_bind]; [| discriminate].
    destruct (closed session) eqn:Hopen; [intros [= <- <-]; auto |].
    destruct (tokensPerBatch P <=? l_tokenCount st + 1);
      [| intros Hrec Hnp; exact (IH _ _ _ Hrec Hnp)].
    destruct (maxBatches P <=? batchIndex (flush_batch (l_tokenCount st + 1) session)).
    { intros [= <- <-] Hnp. left. cbn [l_events]. no_pause_events. }
    destruct (negb _);
      [| intros Hrec Hnp; apply (IH _ _ _ Hrec); cbn [l_events]; no_pause_events].
    destruct (g_invoice _) as [inv | msg];
      [| intros [= <- <-] Hnp; left; cbn [l_events]; no_pause_events].
    destruct (_waitForPayment _ _ _ _ _ _) as [[confirmed ss3] |] eqn:Hwait;
      cbn [mbind option_bind]; [| discriminate].
    destruct (ss3 !! sid) as [s3 |] eqn:Hs3; cbn [mbind option_bind]; [| discriminate].
    destruct confirmed.
    + intros Hrec Hnp. apply (IH _ _ _ Hrec). cbn [l_events]. no_pause_events.
    + intros [= <- <-] Hnp. right. cbn [l_events l_buffer l_sessions].
      split; [reflexivity |]. split; [reflexivity |]. split.
      * exists s3. split; [exact Hs3 |].
        pose proof (waitForPayment_closed _ _ _ _ _ _ _ sid Hwait) as Hc.
        rewrite Hs3, lookup_insert_eq in Hc. cbn in Hc. congruence.
      * eexists _, _, _. split; [reflexivity |]. no_pause_events.
Qed.

End Pause.

(** Whenever [handleRequest] writes a [paused] event, the next event it
    writes is a [done] event with reason [complete], which is the last
    one, and the session is left closed. *)
Lemma paused_then_done (sha256_hex : list Byte.byte -> string) (P : Provider)
    (sid : string) (firstBatchFree : option bool) (gates : N -> Gate)
    (toks : list string) (gend : GenEnd) (ss ss' : gmap string Session)
    (evs : list SSE) :
  handleRequest sha256_hex P sid firstBatchFree gates toks gend ss = Some (ss', evs) ->
  ~ no_pause evs ->
  (exists pre b t n1 n2 n3,
     evs = (pre ++ [EvPaused b t sid; EvDone Complete n1 n2 n3])%list /\ no_pause pre) /\
  closed <$> ss' !! sid = Some true.
Proof.
  unfold handleRequest. intros Hrun Hpause.
  destruct (produce _ _ _ _ _ _ _ _) as [[exit st1] |] eqn:Hprod; [| discriminate].
  cbn [mbind option_bind] in Hrun.
  apply produce_pause in Hprod; [| no_pause_events].
  destruct Hprod as [Hnp | (-> & Hbuf & (s & Hs & Hopen) & pre & b & t & Hev & Hnp)].
  - exfalso. apply Hpause. clear Hpause.
    destruct (after_loop sid exit st1) as [st |] eqn:Hafter; [| discriminate].
    injection Hrun as <- <-.
    revert Hafter. unfold after_loop.
    destruct exit as [| | msg].
    3: { intros [= <-]. cbn [l_events]. no_pause_events. }
    all: destruct (l_sessions st1 !! sid) as [s |]; cbn [mbind option_bind];
           [| discriminate];
         destruct (_ && _); cbn [l_sessions l_events];
           rewrite ?lookup_insert_eq; cbn [mbind option_bind];
           try (destruct (l_sessions st1 !! sid); cbn [mbind option_bind];
                [| discriminate]);
           repeat case_match; intros [= <-]; cbn [l_events]; no_pause_events.
  - rewrite (after_break sid st1 s Hs Hopen Hbuf) in Hrun.
    cbn [mbind option_bind l_sessions l_events] in Hrun. injection Hrun as <- <-.
    split.
    + exists pre, b, t. do 3 eexists. rewrite Hev, <- app_assoc. split; [reflexivity | exact Hnp].
    + rewrite lookup_alter_eq, Hs. reflexivity.
Qed.

(** C5 fails on the code: at a payment gate where nobody pays (batches of
    two tokens, five tokens to send, the first batch free), after the
    [paused] event [handleRequest] writes a [done] event with reason
    [complete], and it leaves the session closed, with its payment still
    pending. A proof that comes later is accepted by [_handlePayment],
    but the response has ended and the loop is over: the third batch and
    the fifth token are never sent. *)
Theorem timeout_closes_and_writes_done (sha256_hex : list Byte.byte -> string) :
  exists ss' s,
    handleRequest sha256_hex two_token_batches "s1" None (unpaid_gate sha256_hex)
      ["a"; "b"; "c"; "d"; "e"] GenReturn ∅
    = Some (ss', [EvSession "s1";
                  EvContent "ab" 1 2;
                  EvContent "cd" 2 2;
                  EvInvoice "lnbc10n1stream" (Some (sha256_hex (hex_decode "c0ffee"))) 3 1;
                  EvPaused 2 0 "s1";
                  EvDone Complete 2 0 4]) /\
    ss' !! "s1" = Some s /\ closed s = true /\
    pendingPayment s
    = Some (mkPending (Some (sha256_hex (hex_decode "c0ffee"))) 3 "lnbc10n1stream") /\
    (_handlePayment sha256_hex (Json (Some "s1") (Some "c0ffee")) ss').1 = Unlocked.
Proof.
  eexists. eexists.
  split; [vm_compute; reflexivity |].
  split; [vm_compute; reflexivity |].
  split; [reflexivity |]. split; [reflexivity |].
  erewrite matching_proof_unlocks; [reflexivity |].
  unfold matches. split; [reflexivity |]. split; [discriminate |].
  split; [vm_compute; reflexivity |]. split; reflexivity.
Qed.

(** ** The budget of the client *)

Local Open Scope Z_scope.


Section Budget.

Variable budget : Z.
Variable auto : bool.
Variable pay : PayInvoice.





End Budget.

(** A [maxSats] of 0 counts as not given: the budget is then the default. *)
Remark zero_maxSats_is_default :
  budget_of (createStreamClient (mkClientOpts (Some 0) None)) (Some 0) = 1000 /\
  budget_of (createStreamClient (mkClientOpts (Some 10) None)) None = 10 /\
  budget_of (createStreamClient (mkClientOpts (Some 10) None)) (Some 25) = 25.
Proof. repeat split. Qed.

(** With a budget of 10 sats an invoice for 20 sats is not paid, and the
    events that follow are still read. *)
Example over_budget_invoice_skipped (pay : PayInvoice) :
  stream (createStreamClient (mkClientOpts (Some 10) None)) None pay
    [InSession (Some "s1"); InContent "ab"; InInvoice "lnbc200n1" (SatsInt 20);
     InPaused; InDone]
  = (Returned, mkConsumer 0 (Some "s1") ["ab"] [] [] []).
Proof. reflexivity. Qed.




End StreamProps.

(** * Further properties of the escrow manager *)

Module EscrowMore.

Import Escrow EscrowPhases EscrowRuns EscrowProps.
Local Open Scope mgr_scope.

Lemma alter_known {A} (f : A -> A) (i : string) (x : A) (m : gmap string A) :
  m !! i = Some x -> alter f i m = <[i := f x]> m.
Proof.
  intros Hx. apply map_eq. intros j. destruct (decide (i = j)) as [<- | Hne].
  - rewrite lookup_alter_eq, lookup_insert_eq, Hx. reflexivity.
  - rewrite lookup_alter_ne, lookup_insert_ne by assumption. reflexivity.
Qed.

(** [startDeadlineTimer] on a stored escrow. *)
Lemma startDeadlineTimer_run (m : Manager) (i : string) (e : Escrow) (now tnow : Z) :
  escrows m !! i = Some e ->
  if Z.eqb (deadline e) 0 then startDeadlineTimer i now tnow m = Return tt m
  else if deadline e - now <=? 0 then
    if funded_or_created (state e) then
      exists m', startDeadlineTimer i now tnow m = Return tt m' /\
        escrows m' = <[i := set_updatedAt tnow (set_state EXPIRED e)]> (escrows m) /\
        histories m' = push (history e) (mkHist (Some (state e)) EXPIRED tnow)
                         (histories m) /\
        notified m' = (if onStateChange m then (notified m ++ [(i, state e, EXPIRED)])%list
                       else notified m) /\
        metas m' = metas m /\ timers m' = timers m /\ calls m' = calls m /\
        order m' = order m /\ onStateChange m' = onStateChange m /\
        defaultDeadlineMs m' = defaultDeadlineMs m
    else startDeadlineTimer i now tnow m = Return tt m
  else startDeadlineTimer i now tnow m
       = Return tt (with_timers <[i := setTimeout_delay (deadline e - now)]> m).
Proof.
  intros Hi. unfold startDeadlineTimer.
  cbv beta iota zeta delta [bind gets ret modify]. rewrite Hi.
  destruct (deadline e =? 0); [reflexivity |].
  destruct (deadline e - now <=? 0); [| reflexivity].
  destruct (funded_or_created (state e)); [| reflexivity].
  destruct (transition_spec m i e EXPIRED tnow Hi) as (m' & Heq & Hes & Hrest).
  rewrite Heq. exists m'. split; [reflexivity |].
  rewrite Hes, (alter_known _ _ _ _ Hi). tauto.
Qed.

Lemma fresh_unused {A} (h : gmap loc A) : h !! fresh (dom h) = None.
Proof. apply not_elem_of_dom, is_fresh. Qed.

(** The end of [create]: the timer is started and the stored object is
    read back. *)
Lemma create_tail (m1 : Manager) (i : string) (e0 : Escrow) (now' tnow : Z) :
  escrows m1 !! i = Some e0 -> state e0 = CREATED ->
  exists e m',
    match startDeadlineTimer i now' tnow m1 with
    | Return _ m2 => lookup_escrow i m2
    | Throw err m2 => Throw err m2
    end = Return e m' /\
    escrows m' = <[i := e]> (escrows m1) /\
    fixed_fields e = fixed_fields e0 /\
    metas m' = metas m1 /\ order m' = order m1 /\ calls m' = calls m1 /\
    onStateChange m' = onStateChange m1 /\
    defaultDeadlineMs m' = defaultDeadlineMs m1 /\
    if deadline e0 =? 0 then
      e = e0 /\ histories m' = histories m1 /\ timers m' = timers m1 /\
      notified m' = notified m1
    else if deadline e0 - now' <=? 0 then
      state e = EXPIRED /\ updatedAt e = tnow /\
      histories m' = push (history e0) (mkHist (Some CREATED) EXPIRED tnow)
                       (histories m1) /\
      timers m' = timers m1 /\
      notified m' = (if onStateChange m1
                     then (notified m1 ++ [(i, CREATED, EXPIRED)])%list
                     else notified m1)
    else
      e = e0 /\ histories m' = histories m1 /\
      timers m' = <[i := setTimeout_delay (deadline e0 - now')]> (timers m1) /\
      notified m' = notified m1.
Proof.
  intros Hi Hs. pose proof (startDeadlineTimer_run m1 i e0 now' tnow Hi) as Hstart.
  rewrite Hs in Hstart. change (funded_or_created CREATED) with true in Hstart.
  cbv beta iota in Hstart.
  destruct (deadline e0 =? 0).
  - rewrite Hstart. unfold lookup_escrow. cbv beta iota delta [bind gets ret].
    rewrite Hi. exists e0, m1. rewrite insert_id by assumption. repeat split.
  - destruct (deadline e0 - now' <=? 0).
    + destruct Hstart as (m' & -> & Hes & Hh & Hn & Hme & Hti & Hca & Hor & Hcb & Hdf).
      unfold lookup_escrow. cbv beta iota delta [bind gets ret].
      rewrite Hes, lookup_insert_eq. do 2 eexists. split; [reflexivity |].
      repeat split; assumption.
    + rewrite Hstart. unfold lookup_escrow. cbv beta iota delta [bind gets ret].
      cbn [with_timers escrows]. rewrite Hi. exists e0. eexists.
      split; [reflexivity |]. cbn. rewrite insert_id by assumption. repeat split.
Qed.

(** [create], case by case. *)
Lemma create_run (w : Wallet) (config : Config) (i : string) (now now' tnow : Z)
    (m : Manager) :
  let dl := or_Z (c_deadlineMs config) (defaultDeadlineMs m) in
  let amount := default 0 (c_amountSats config) in
  let descr := ("Escrow: " ++ or_str (c_description config) i)%string in
  let call := CallCreateInvoice amount descr (ceil_div_1000 dl) in
  if negb (truthyZ (c_amountSats config)) || (amount <=? 0) then
    EscrowManager.create w config i now now' tnow m = Throw AmountNotPositive m
  else if negb (truthy (c_workerAddress config)) && negb (truthy (c_workerInvoice config))
  then EscrowManager.create w config i now now' tnow m = Throw DestinationRequired m
  else
    match createInvoice w amount descr (ceil_div_1000 dl) with
    | Rejected msg =>
        EscrowManager.create w config i now now' tnow m
        = Throw (WalletError msg) (with_calls (fun l => (l ++ [call])%list) m)
    | Resolved inv =>
        exists e m',
          EscrowManager.create w config i now now' tnow m = Return e m' /\
          created config inv i now now' tnow m e m'
    end.
Proof.
  unfold created. cbv zeta. unfold EscrowManager.create.
  destruct (negb _ || _) eqn:Hamt; [reflexivity |].
  destruct (negb _ && _) eqn:Hdest; [reflexivity |].
  cbv beta iota zeta delta [bind gets await modify throw ret alloc_meta adopt_meta alloc_history set_escrow].
  destruct (createInvoice w _ _ _) as [inv | msg]; [| reflexivity].
  cbn [with_calls with_metas with_histories with_escrows with_order escrows histories metas order calls].
  destruct (c_metadata config) as [l |];
    cbn [with_calls with_metas with_histories with_escrows with_order escrows
         histories metas order calls];
    match goal with
    | |- context [startDeadlineTimer i now' tnow ?m1] =>
        edestruct (create_tail m1 i) as (e & m' & -> & Hes & Hfix & Hme & Hor & Hca & Hcb & Hdf & Hcase);
        [ apply lookup_insert_eq | reflexivity | ]
    end;
    exists e, m'; (split; [reflexivity |]);
    cbn [with_calls with_metas with_histories with_escrows with_order escrows
         histories metas order calls notified onStateChange defaultDeadlineMs timers
         deadline history] in *;
    rewrite insert_insert_eq in Hes;
    injection Hfix as Hf1 Hf2 Hf3 Hf4 Hf5 Hf6 Hf7 Hf8 Hf9 Hf10 Hf11 Hf12 Hf13;
    (split; [exact Hes |]);
    (split; [repeat split; assumption |]);
    rewrite Hf13, Hf8;
    (split; [apply fresh_unused |]);
    (split; [first [split; [reflexivity | exact Hme]
                   | split; [apply fresh_unused | exact Hme]] |]);
    (split; [exact Hor |]); (split; [exact Hca |]);
    (split; [exact Hcb |]); (split; [exact Hdf |]);
    destruct (now + or_Z (c_deadlineMs config) (defaultDeadlineMs m) =? 0);
    [ destruct Hcase as (-> & Hh & Hti & Hn); repeat split; assumption
    | destruct (now + or_Z (c_deadlineMs config) (defaultDeadlineMs m) - now' <=? 0);
      [ destruct Hcase as (Hst & Hup & Hh & Hti & Hn);
        unfold push in Hh; rewrite lookup_insert_eq, insert_insert_eq in Hh;
        repeat split; assumption
      | destruct Hcase as (-> & Hh & Hti & Hn); repeat split; assumption ]
    | destruct Hcase as (-> & Hh & Hti & Hn); repeat split; assumption
    | destruct (now + or_Z (c_deadlineMs config) (defaultDeadlineMs m) - now' <=? 0);
      [ destruct Hcase as (Hst & Hup & Hh & Hti & Hn);
        unfold push in Hh; rewrite lookup_insert_eq, insert_insert_eq in Hh;
        repeat split; assumption
      | destruct Hcase as (-> & Hh & Hti & Hn); repeat split; assumption ] ].
Qed.



(** [transition] in terms of the record it stores. *)
Lemma transition_full (m : Manager) (i : string) (e : Escrow) (s : State) (tnow : Z) :
  escrows m !! i = Some e ->
  exists m',
    transition i s tnow m = Return (set_updatedAt tnow (set_state s e)) m' /\
    escrows m' = <[i := set_updatedAt tnow (set_state s e)]> (escrows m) /\
    histories m' = push (history e) (mkHist (Some (state e)) s tnow) (histories m) /\
    notified m' = (if onStateChange m then (notified m ++ [(i, state e, s)])%list
                   else notified m) /\
    metas m' = metas m /\ timers m' = timers m /\ calls m' = calls m /\
    order m' = order m /\ onStateChange m' = onStateChange m /\
    defaultDeadlineMs m' = defaultDeadlineMs m.
Proof.
  intros Hi. destruct (transition_spec m i e s tnow Hi) as (m' & Heq & Hes & Hrest).
  exists m'. split; [exact Heq |]. rewrite Hes, (alter_known _ _ _ _ Hi). tauto.
Qed.

Ltac step_with Hi f :=
  match goal with
  | |- context [transition ?i ?s ?t ?m1] =>
      let m' := fresh "m'" in
      let Heq := fresh "Heq" in
      let Hes := fresh "Hes" in
      let Hh := fresh "Hh" in
      let Hn := fresh "Hn" in
      let Hme := fresh "Hme" in
      let Hti := fresh "Hti" in
      let Hca := fresh "Hca" in
      let Hor := fresh "Hor" in
      let Hcb := fresh "Hcb" in
      let Hdf := fresh "Hdf" in
      destruct (transition_full m1 i (f) s t)
        as (m' & Heq & Hes & Hh & Hn & Hme & Hti & Hca & Hor & Hcb & Hdf);
      [ cbn; rewrite ?lookup_alter_eq, Hi; reflexivity | ];
      rewrite Heq; cbv beta iota;
      cbn [with_calls with_metas with_histories with_escrows with_order with_timers
           escrows histories metas order calls notified onStateChange
           defaultDeadlineMs timers] in Hes, Hh, Hn, Hme, Hti, Hca, Hor, Hcb, Hdf;
      rewrite ?(alter_known _ _ _ _ Hi), ?insert_insert_eq in Hes
  end.

Ltac close_step :=
  do 3 eexists; (split; [reflexivity |]); (split; [reflexivity |]);
  unfold stepped;
  cbn [with_timers escrows histories metas order calls notified onStateChange
       defaultDeadlineMs timers];
  (split; [eassumption |]);
  repeat apply conj;
  first [ reflexivity | eassumption | left; eassumption
        | cbn [clears]; f_equal; eassumption
        | right; eexists; eassumption | right; do 2 eexists; eassumption ].

Ltac close_throw :=
  left; do 2 eexists; (split; [reflexivity |]); split;
  [ first [apply same_engine_refl | apply same_engine_calls]
  | first [left; reflexivity | right; eexists; reflexivity] ].

Lemma run_op_shape (w : Wallet) (m : Manager) (i : string) (e : Escrow) (op : Op)
    (now tnow : Z) :
  escrows m !! i = Some e ->
  (exists err m', run_op w i op now tnow m = Throw err m' /\ thrown m m') \/
  (op = OpDeadline /\ target op (state e) = None /\
   run_op w i op now tnow m = Return tt (with_timers (delete i) m)) \/
  (exists s e' m', target op (state e) = Some s /\
     run_op w i op now tnow m = Return tt m' /\ stepped m m' i e e' s tnow).
Proof.
  intros Hi. destruct op.
  - run_with Hi. unfold target. case_bool_decide as Hs; cbn; [| close_throw].
    destruct (EscrowManager.fund_wait w e opts) as [[c [[|] | msg]] |]; cbn;
      try close_throw;
      right; right; step_with Hi (set_fundedAt (Some now) e); close_step.
  - run_with Hi. unfold target. case_bool_decide as Hs; cbn; [| close_throw].
    right; right.
    step_with Hi (set_deliveredAt (Some now) (set_deliveryProof proof e)).
    close_step.
  - run_with Hi. unfold target.
    destruct (bool_decide (state e = FUNDED)) eqn:H1;
      destruct (bool_decide (state e = DELIVERED)) eqn:H2; cbn;
      try close_throw;
      (destruct (EscrowManager.worker_payment w e) as [[c [preimage | msg]] |]; cbn;
       try close_throw;
       right; right;
       step_with Hi (set_releasedAt (Some now) (set_releasePreimage preimage e));
       close_step).
  - run_with Hi. unfold target.
    destruct (bool_decide (state e = RELEASED)) eqn:H1; cbn; [close_throw |].
    destruct (bool_decide (state e = REFUNDED)) eqn:H2; cbn; [close_throw |].
    destruct (EscrowManager.refund_payment w e refundAddr reason)
      as [[c [preimage | msg]] |]; cbn; try close_throw;
      right; right;
      step_with Hi (set_refundedAt (Some now) (set_refundAddress refundAddr e));
      close_step.
  - run_with Hi. unfold target.
    destruct (bool_decide (state e = RELEASED)) eqn:H1; cbn; [close_throw |].
    destruct (bool_decide (state e = REFUNDED)) eqn:H2; cbn; [close_throw |].
    right; right. step_with Hi e. close_step.
  - run_with Hi. unfold target.
    destruct (funded_or_created (state e)); [| right; left; auto].
    right; right. step_with Hi e. close_step.
Qed.


Lemma truthy_or_null (a : option string) : truthy (or_null a) = truthy a.
Proof. unfold or_null. destruct (truthy a) eqn:H; [exact H | reflexivity]. Qed.

(** What [create] returned with, and what it threw with. *)
Lemma create_returns (w : Wallet) (config : Config) (i : string) (now now' tnow : Z)
    (m : Manager) (e : Escrow) (m' : Manager) :
  EscrowManager.create w config i now now' tnow m = Return e m' ->
  0 < default 0 (c_amountSats config) /\
  truthy (c_workerInvoice config) || truthy (c_workerAddress config) = true /\
  exists inv,
    createInvoice w (default 0 (c_amountSats config))
      ("Escrow: " ++ or_str (c_description config) i)%string
      (ceil_div_1000 (or_Z (c_deadlineMs config) (defaultDeadlineMs m)))
    = Resolved inv /\
    created config inv i now now' tnow m e m'.
Proof.
  intros Hr. pose proof (create_run w config i now now' tnow m) as Hc.
  cbv zeta in Hc.
  destruct (negb _ || _) eqn:Hamt; [congruence |].
  destruct (negb _ && _) eqn:Hdest; [congruence |].
  apply orb_false_iff in Hamt as [_ Hamt]. apply Z.leb_gt in Hamt.
  split; [exact Hamt |]. split.
  { destruct (truthy (c_workerInvoice config)), (truthy (c_workerAddress config));
      try reflexivity; discriminate. }
  destruct (createInvoice w _ _ _) as [inv | msg]; [| congruence].
  destruct Hc as (e2 & m2 & Heq & Hcr). rewrite Heq in Hr. injection Hr as <- <-.
  exists inv. split; [reflexivity | exact Hcr].
Qed.

Lemma create_throws (w : Wallet) (config : Config) (i : string) (now now' tnow : Z)
    (m : Manager) (err : Error) (m' : Manager) :
  EscrowManager.create w config i now now' tnow m = Throw err m' ->
  (err = AmountNotPositive /\ m' = m /\
   (c_amountSats config = None \/ default 0 (c_amountSats config) <= 0)) \/
  (err = DestinationRequired /\ m' = m /\
   truthy (c_workerAddress config) = false /\
   truthy (c_workerInvoice config) = false) \/
  (exists msg,
     err = WalletError msg /\
     createInvoice w (default 0 (c_amountSats config))
       ("Escrow: " ++ or_str (c_description config) i)%string
       (ceil_div_1000 (or_Z (c_deadlineMs config) (defaultDeadlineMs m)))
     = Rejected msg /\
     m' = with_calls
            (fun l => (l ++ [CallCreateInvoice (default 0 (c_amountSats config))
                               ("Escrow: " ++ or_str (c_description config) i)%string
                               (ceil_div_1000 (or_Z (c_deadlineMs config)
                                                 (defaultDeadlineMs m)))])%list) m).
Proof.
  intros Hr. pose proof (create_run w config i now now' tnow m) as Hc.
  cbv zeta in Hc.
  destruct (negb _ || _) eqn:Hamt.
  { left. rewrite Hc in Hr. injection Hr as <- <-. repeat split.
    destruct (c_amountSats config) as [a |]; [| auto]. right. cbn in *.
    destruct (a =? 0) eqn:Ha; cbn in Hamt; [apply Z.eqb_eq in Ha; lia |].
    apply Z.leb_le. exact Hamt. }
  destruct (negb _ && _) eqn:Hdest.
  { right; left. rewrite Hc in Hr. injection Hr as <- <-.
    apply andb_true_iff in Hdest as [H1 H2].
    apply negb_true_iff in H1, H2. auto. }
  right; right.
  destruct (createInvoice w _ _ _) as [inv | msg].
  - destruct Hc as (e2 & m2 & Heq & _). congruence.
  - rewrite Hc in Hr. injection Hr as <- <-. eauto.
Qed.

(** An operation on an identifier that is not stored. *)
Lemma unknown_id (w : Wallet) (m : Manager) (i : string) (op : Op) (now tnow : Z) :
  escrows m !! i = None ->
  run_op w i op now tnow m
  = match op with
    | OpDeadline => Return tt (with_timers (delete i) m)
    | _ => Throw (UnknownEscrow i) m
    end.
Proof. intros Hi. destruct op; run_with Hi; reflexivity. Qed.

(** ** Histories *)

Lemma follow_snoc (l : list HistEntry) (s s' : State) (h : HistEntry) :
  follow s l = Some s' -> h_from h = Some s' -> permitted s' (h_to h) = true ->
  follow s (l ++ [h]) = Some (h_to h).
Proof.
  revert s. induction l as [| x l IH]; intros s Hf Hfrom Hp; simpl in *.
  - injection Hf as ->. rewrite Hfrom, Hp.
    rewrite bool_decide_eq_true_2 by reflexivity. reflexivity.
  - destruct (bool_decide (h_from x = Some s) && permitted s (h_to x));
      [auto | discriminate].
Qed.

Lemma replay_snoc (l : list HistEntry) (s' : State) (h : HistEntry) :
  replay l = Some s' -> h_from h = Some s' -> permitted s' (h_to h) = true ->
  replay (l ++ [h]) = Some (h_to h).
Proof.
  destruct l as [| x l]; simpl; [discriminate |].
  destruct (bool_decide (h_from x = None) && bool_decide (h_to x = CREATED));
    [apply follow_snoc | discriminate].
Qed.

Lemma replay_nonempty (l : list HistEntry) (s : State) : replay l = Some s -> l <> [].
Proof. destruct l; [discriminate | discriminate]. Qed.

Lemma target_permitted (op : Op) (from to : State) :
  target op from = Some to -> permitted from to = true.
Proof.
  intros H. apply bool_decide_eq_true_2.
  destruct op, from; vm_compute in H; try discriminate; injection H as <-;
    reflexivity.
Qed.

Lemma hist_push_same (m m' : Manager) (e e' : Escrow) (x : HistEntry) :
  histories m' = push (history e) x (histories m) -> history e' = history e ->
  hist m' e' = (hist m e ++ [x])%list.
Proof. unfold hist, push. intros -> ->. rewrite lookup_insert_eq. reflexivity. Qed.

Lemma hist_push_other (m m' : Manager) (e e2 : Escrow) (x : HistEntry) :
  histories m' = push (history e) x (histories m) -> history e2 <> history e ->
  hist m' e2 = hist m e2.
Proof.
  unfold hist, push. intros -> Hne. rewrite lookup_insert_ne by congruence.
  reflexivity.
Qed.


(** ** The invariant of the manager *)

Lemma well_formed_ext (m m' : Manager) :
  escrows m' = escrows m -> order m' = order m -> histories m' = histories m ->
  well_formed m -> well_formed m'.
Proof.
  unfold well_formed, sound, hist. intros -> -> ->. exact (fun H => H).
Qed.

Lemma well_formed_thrown (m m' : Manager) :
  thrown m m' -> well_formed m -> well_formed m'.
Proof.
  intros [(_ & _ & Hes & Hor & Hh & _) _]. apply well_formed_ext; assumption.
Qed.

Lemma well_formed_new (deadlineMs : option Z) (observer : bool) :
  well_formed (createEscrowManager deadlineMs observer).
Proof.
  unfold well_formed, createEscrowManager. cbn. repeat split.
  - rewrite lookup_empty in H. discriminate.
  - rewrite lookup_empty in H. discriminate.
  - rewrite lookup_empty in H. discriminate.
  - rewrite lookup_empty in H. discriminate.
  - rewrite lookup_empty in H. discriminate.
  - rewrite lookup_empty in H. discriminate.
  - rewrite lookup_empty in H. discriminate.
  - intros ? ? ? ? H. rewrite lookup_empty in H. discriminate.
  - constructor.
  - intros H. inversion H.
  - intros [? H]. rewrite lookup_empty in H. discriminate.
Qed.

Lemma sound_step (m m' : Manager) (i : string) (e e' : Escrow) (s : State)
    (tnow : Z) :
  stepped m m' i e e' s tnow -> permitted (state e) s = true ->
  sound m i e -> sound m' i e'.
Proof.
  intros (Hes & Hfix & Hs & Hup & Hh & _) Hp (Hid & Hamt & Hdest & Hin & Hre & Hhd & Hla).
  injection Hfix as Hf1 Hf2 Hf3 Hf4 Hf5 Hf6 Hf7 Hf8 Hf9 Hf10 Hf11 Hf12 Hf13.
  pose proof (hist_push_same m m' e e' _ Hh Hf13) as Hhist.
  unfold sound. rewrite Hhist, Hf1, Hf2, Hf4, Hf5, Hf12, Hf13, Hs, Hup.
  repeat split; try assumption.
  - rewrite Hh. unfold push. rewrite lookup_insert_eq. eauto.
  - apply (replay_snoc _ (state e)); [assumption | reflexivity | assumption].
  - apply replay_nonempty in Hre.
    destruct (hist m e) as [| x l]; [contradiction | exact Hhd].
  - rewrite last_snoc. reflexivity.
Qed.

Lemma sound_frame (m m' : Manager) (j : string) (e2 : Escrow) :
  histories m' !! history e2 = histories m !! history e2 ->
  sound m j e2 -> sound m' j e2.
Proof. unfold sound, hist. intros ->. exact (fun H => H). Qed.

Lemma well_formed_step (m m' : Manager) (i : string) (e e' : Escrow) (s : State)
    (tnow : Z) :
  escrows m !! i = Some e ->
  stepped m m' i e e' s tnow -> permitted (state e) s = true ->
  well_formed m -> well_formed m'.
Proof.
  intros Hi Hst Hp (Hsound & Hinj & Hnd & Hord).
  pose proof (sound_step m m' i e e' s tnow Hst Hp (Hsound i e Hi)) as Hnew.
  destruct Hst as (Hes & Hfix & Hs & Hup & Hh & Hor & _).
  assert (Hhe : history e' = history e) by (injection Hfix; auto).
  unfold well_formed. rewrite Hes, Hor. repeat apply conj.
  - intros j ej Hj. destruct (decide (i = j)) as [<- | Hne].
    + rewrite lookup_insert_eq in Hj. injection Hj as <-. exact Hnew.
    + rewrite lookup_insert_ne in Hj by assumption.
      apply (sound_frame m); [| auto].
      rewrite Hh. unfold push. apply lookup_insert_ne.
      intros Heq. apply Hne. apply (Hinj i j e ej); auto.
  - intros j k ej ek Hj Hk Heq.
    destruct (decide (i = j)) as [<- | Hnj]; destruct (decide (i = k)) as [<- | Hnk].
    + reflexivity.
    + rewrite lookup_insert_eq in Hj. rewrite lookup_insert_ne in Hk by assumption.
      injection Hj as <-. apply (Hinj i k e ek); congruence.
    + rewrite lookup_insert_eq in Hk. rewrite lookup_insert_ne in Hj by assumption.
      injection Hk as <-. apply (Hinj j i ej e); congruence.
    + rewrite lookup_insert_ne in Hj, Hk by assumption.
      apply (Hinj j k ej ek); assumption.
  - exact Hnd.
  - intros j. rewrite Hord. destruct (decide (i = j)) as [<- | Hne].
    + rewrite lookup_insert_eq, Hi. split; eauto.
    + rewrite lookup_insert_ne by assumption. reflexivity.
Qed.

Lemma well_formed_created (config : Config) (inv : InvoiceResult) (i : string)
    (now now' tnow : Z) (m : Manager) (e : Escrow) (m' : Manager) :
  0 < default 0 (c_amountSats config) ->
  truthy (c_workerInvoice config) || truthy (c_workerAddress config) = true ->
  created config inv i now now' tnow m e m' ->
  well_formed m -> well_formed m'.
Proof.
  intros Hamt Hdest (Hes & Hf & Hfresh & _ & Hor & _ & _ & _ & Hcase)
    (Hsound & Hinj & Hnd & Hord).
  destruct Hf as (Hid & Ham & Hwa & Hwi & _ & _ & _ & _ & Hcr).
  assert (Hhist : exists l, histories m' = <[history e := l]> (histories m) /\
                            replay l = Some (state e) /\
                            h_at <$> head l = Some (createdAt e) /\
                            h_at <$> last l = Some (updatedAt e)).
  { destruct (_ =? 0); [| destruct (_ <=? 0)];
      destruct Hcase as (-> & -> & Hh & _); eexists; (split; [exact Hh |]);
      rewrite Hcr; repeat split. }
  destruct Hhist as (l & Hh & Hre & Hhd & Hla).
  assert (Hother : forall j ej, escrows m !! j = Some ej ->
                                history ej <> history e).
  { intros j ej Hj Heq. destruct (Hsound j ej Hj) as (_ & _ & _ & [x Hx] & _).
    congruence. }
  unfold well_formed. rewrite Hes, Hor. repeat apply conj.
  - intros j ej Hj. destruct (decide (i = j)) as [<- | Hne].
    + rewrite lookup_insert_eq in Hj. injection Hj as <-.
      unfold sound, hist. rewrite Hh, lookup_insert_eq, Ham, Hwa, Hwi.
      rewrite !truthy_or_null. cbn. eauto 10.
    + rewrite lookup_insert_ne in Hj by assumption.
      apply (sound_frame m); [| auto].
      rewrite Hh. apply lookup_insert_ne. intros Heq.
      apply (Hother j ej Hj). congruence.
  - intros j k ej ek Hj Hk Heq.
    destruct (decide (i = j)) as [<- | Hnj]; destruct (decide (i = k)) as [<- | Hnk].
    + reflexivity.
    + rewrite lookup_insert_eq in Hj. rewrite lookup_insert_ne in Hk by assumption.
      injection Hj as <-. exfalso. apply (Hother k ek Hk). congruence.
    + rewrite lookup_insert_eq in Hk. rewrite lookup_insert_ne in Hj by assumption.
      injection Hk as <-. exfalso. apply (Hother j ej Hj). congruence.
    + rewrite lookup_insert_ne in Hj, Hk by assumption.
      apply (Hinj j k ej ek); assumption.
  - case_bool_decide as Hin; [exact Hnd |].
    apply NoDup_app. repeat split; [exact Hnd | | apply NoDup_singleton].
    intros x Hx Hx'. apply list_elem_of_singleton in Hx'. subst x.
    apply Hin, Hord, Hx.
  - intros j. destruct (decide (i = j)) as [<- | Hne].
    + rewrite lookup_insert_eq. case_bool_decide as Hin.
      * rewrite Hord. split; eauto.
      * rewrite elem_of_app, list_elem_of_singleton. split; eauto.
    + rewrite lookup_insert_ne by assumption. case_bool_decide as Hin.
      * apply Hord.
      * rewrite elem_of_app, list_elem_of_singleton, Hord. split; [| auto].
        intros [H | H]; [exact H | congruence].
Qed.

Lemma well_formed_perform (c : Call) (m : Manager) :
  well_formed m -> well_formed (perform c m).
Proof.
  intros Hwf. destruct c as [w config i now now' tnow | w i op now tnow |]; cbn.
  - destruct (EscrowManager.create w config i now now' tnow m) as [e m' | err m'] eqn:Hc.
    + apply create_returns in Hc as (Hamt & Hdest & inv & _ & Hcr).
      eapply well_formed_created; eassumption.
    + apply create_throws in Hc as [(_ & -> & _) | [(_ & -> & _) | (msg & _ & _ & ->)]];
        exact Hwf.
  - destruct (escrows m !! i) as [e |] eqn:Hi.
    + destruct (run_op_shape w m i e op now tnow Hi)
        as [(err & m' & -> & Hth) | [(-> & _ & ->) | (s & e' & m' & Ht & -> & Hst)]]; cbn.
      * eapply well_formed_thrown; eassumption.
      * revert Hwf. apply well_formed_ext; reflexivity.
      * eapply well_formed_step; eauto using target_permitted.
    + rewrite (unknown_id w m i op now tnow Hi). destruct op; exact Hwf.
  - revert Hwf. apply well_formed_ext; reflexivity.
Qed.

Lemma reachable_well_formed (m : Manager) : reachable m -> well_formed m.
Proof.
  induction 1 as [| m c _ IH]; [apply well_formed_new | apply well_formed_perform, IH].
Qed.


Lemma reach_reachable (s : State) : reachable (reach s).
Proof.
  pose (m0 := createEscrowManager None true).
  pose (c1 := DoCreate cooperative sample_config "e1" 1000 1001 1002).
  pose (c2 := DoOp cooperative "e1" (OpFund (mkFundOpts None None)) 2000 2001).
  pose (c3 := DoOp cooperative "e1" (OpDeliver (Some "sha256ofwork")) 3000 3001).
  assert (H1 : reachable (perform c1 m0)) by apply reachable_call, reachable_new.
  assert (H2 : reachable (perform c2 (perform c1 m0))) by apply reachable_call, H1.
  assert (H3 : reachable (perform c3 (perform c2 (perform c1 m0))))
    by apply reachable_call, H2.
  pose (c4 := match s with
              | RELEASED => DoOp cooperative "e1" OpRelease 4000 4001
              | REFUNDED =>
                  DoOp cooperative "e1" (OpRefund (Some "client@x") None) 4000 4001
              | EXPIRED => DoOp cooperative "e1" OpDeadline 0 3601000
              | _ => DoOp cooperative "e1" (OpDispute (Some "late") (Some "client"))
                       4000 4001
              end).
  assert (E : reach s = match s with
                        | CREATED => perform c1 m0
                        | FUNDED => perform c2 (perform c1 m0)
                        | DELIVERED => perform c3 (perform c2 (perform c1 m0))
                        | REFUNDED | EXPIRED => perform c4 (perform c2 (perform c1 m0))
                        | _ => perform c4 (perform c3 (perform c2 (perform c1 m0)))
                        end)
    by (destruct s; vm_compute; reflexivity).
  rewrite E.
  destruct s;
    [ exact H1 | exact H2 | exact H3
    | exact (reachable_call _ c4 H3) | exact (reachable_call _ c4 H2)
    | exact (reachable_call _ c4 H2) | exact (reachable_call _ c4 H3) ].
Qed.

(** ** Pending timers *)

Lemma timers_ok_ext (m m' : Manager) :
  escrows m' = escrows m -> timers m' = timers m -> timers_ok m -> timers_ok m'.
Proof. unfold timers_ok. intros -> ->. exact (fun H => H). Qed.

Lemma timers_ok_delete (m : Manager) (i : string) :
  timers_ok m -> timers_ok (with_timers (delete i) m).
Proof.
  intros Hok j d Hj. cbn in Hj. apply lookup_delete_Some in Hj as [_ Hj].
  exact (Hok j d Hj).
Qed.

Lemma timers_ok_perform (c : Call) (m : Manager) :
  timers_ok m -> timers_ok (perform c m).
Proof.
  intros Hok. destruct c as [w config i now now' tnow | w i op now tnow |]; cbn.
  - destruct (EscrowManager.create w config i now now' tnow m) as [e m' | err m'] eqn:Hc.
    + apply create_returns in Hc as (_ & _ & inv & _ & Hcr).
      destruct Hcr as (Hes & _ & _ & _ & _ & _ & _ & _ & Hcase). cbn.
      intros j d Hj. rewrite Hes. destruct (decide (i = j)) as [<- | Hne].
      * rewrite lookup_insert_eq.
        destruct (_ =? 0); [| destruct (_ <=? 0) eqn:Hle];
          destruct Hcase as (Hs & _ & _ & Hti & _); rewrite Hti in Hj.
        -- split; [exact (proj1 (Hok _ _ Hj)) |]. exists e. rewrite Hs. auto.
        -- split; [exact (proj1 (Hok _ _ Hj)) |]. exists e. rewrite Hs. auto.
        -- rewrite lookup_insert_eq in Hj. injection Hj as <-.
           apply Z.leb_gt in Hle.
           split; [unfold setTimeout_delay; case_match; lia |].
           exists e. rewrite Hs. auto.
      * rewrite lookup_insert_ne by assumption. apply Hok.
        destruct (_ =? 0); [| destruct (_ <=? 0)];
          destruct Hcase as (_ & _ & _ & Hti & _); rewrite Hti in Hj;
          rewrite ?lookup_insert_ne in Hj by assumption; exact Hj.
    + apply create_throws in Hc as [(_ & -> & _) | [(_ & -> & _) | (msg & _ & _ & ->)]];
        exact Hok.
  - destruct (escrows m !! i) as [e |] eqn:Hi.
    + destruct (run_op_shape w m i e op now tnow Hi)
        as [(err & m' & -> & Hth) | [(-> & _ & ->) | (s & e' & m' & Ht & -> & Hst)]]; cbn.
      * destruct Hth as [(_ & _ & Hes & _ & _ & _ & Hti & _) _].
        revert Hok. apply timers_ok_ext; assumption.
      * apply timers_ok_delete, Hok.
      * destruct Hst as (Hes & _ & Hs & _ & _ & _ & _ & _ & _ & Hti & _).
        intros j d Hj. rewrite Hes, Hti in *.
        destruct (decide (i = j)) as [<- | Hne].
        -- rewrite lookup_insert_eq. destruct (clears s) eqn:Hcl.
           ++ rewrite lookup_delete_eq in Hj. discriminate.
           ++ split; [exact (proj1 (Hok _ _ Hj)) |]. exists e'. split; [reflexivity |].
              rewrite Hs. destruct s; try discriminate Hcl; reflexivity.
        -- rewrite lookup_insert_ne by assumption. apply Hok.
           destruct (clears s); rewrite ?lookup_delete_ne in Hj by assumption;
             exact Hj.
    + rewrite (unknown_id w m i op now tnow Hi).
      destruct op; try exact Hok. apply timers_ok_delete, Hok.
  - intros j d Hj. cbn in Hj. rewrite lookup_empty in Hj. discriminate.
Qed.

Lemma reachable_timers_ok (m : Manager) : reachable m -> timers_ok m.
Proof.
  induction 1 as [dl ob | m c _ IH]; [| apply timers_ok_perform, IH].
  intros j d Hj. cbn in Hj. rewrite lookup_empty in Hj. discriminate.
Qed.


(** ** [create] *)

(** X1. A [create] that does not call the observer (none is registered,
    or the deadline still lies ahead when the timer is started) is all or
    nothing: when it throws, no escrow was stored, no timer armed and no
    observer told. A validation error is raised before the wallet is asked
    and leaves the manager untouched; the only other error is the wallet's
    own, after the one invoice request. *)
Theorem create_all_or_nothing (w : Wallet) (config : Config) (i : string)
    (now now' tnow : Z) (m : Manager) (err : Error) (m' : Manager) :
  EscrowManager.create w config i now now' tnow m = Throw err m' ->
  onStateChange m = false \/
  now' < now + or_Z (c_deadlineMs config) (defaultDeadlineMs m) ->
  same_engine m m' /\
  (if PaymentFailedError err
   then exists c, calls m' = (calls m ++ [c])%list
   else m' = m /\ (err = AmountNotPositive \/ err = DestinationRequired)).
Proof.
  intros Hc _.
  apply create_throws in Hc as [(-> & -> & _) | [(-> & -> & _) | (msg & -> & _ & ->)]].
  - split; [apply same_engine_refl | cbn; auto].
  - split; [apply same_engine_refl | cbn; auto].
  - split; [apply same_engine_calls | cbn; eauto].
Qed.

(** X2. A [create] whose deadline lies ahead returns an escrow in state
    CREATED that [get] then returns under its id, with a history of the one
    entry null -> CREATED, the deadline at the creation time plus
    [deadlineMs] (the manager's default when [config.deadlineMs] is absent
    or 0), and a timer: armed for what remains of the deadline when that
    is at most [TIMEOUT_MAX] milliseconds (some 24.8 days), and for one
    millisecond when it is more, as [setTimeout] has it; the wallet was
    asked for one invoice over the amount. *)
Theorem create_arms_timer (w : Wallet) (config : Config) (i : string)
    (now now' tnow : Z) (m : Manager) (e : Escrow) (m' : Manager) :
  EscrowManager.create w config i now now' tnow m = Return e m' ->
  now' < now + or_Z (c_deadlineMs config) (defaultDeadlineMs m) ->
  state e = CREATED /\
  EscrowManager.get i m' = Return (Some e) m' /\
  hist m' e = [mkHist None CREATED now] /\
  deadline e = now + or_Z (c_deadlineMs config) (defaultDeadlineMs m) /\
  (now + or_Z (c_deadlineMs config) (defaultDeadlineMs m) <> 0 ->
   timers m' !! i = Some (if deadline e - now' <=? TIMEOUT_MAX
                          then deadline e - now' else 1)) /\
  0 < amountSats e /\
  exists descr expiry,
    calls m' = (calls m ++ [CallCreateInvoice (amountSats e) descr expiry])%list.
Proof.
  intros Hc Hlt.
  apply create_returns in Hc as (Hamt & _ & inv & _ & Hcr).
  destruct Hcr as (Hes & Hf & _ & _ & _ & Hca & _ & _ & Hcase).
  destruct Hf as (_ & Ham & _ & _ & _ & _ & _ & Hdl & _).
  assert (Hst : state e = CREATED /\
                histories m' !! history e = Some [mkHist None CREATED now] /\
                (now + or_Z (c_deadlineMs config) (defaultDeadlineMs m) <> 0 ->
                 timers m' !! i = Some (if deadline e - now' <=? TIMEOUT_MAX
                                        then deadline e - now' else 1))).
  { destruct (_ =? 0) eqn:Hz; [| destruct (_ <=? 0) eqn:Hle].
    - destruct Hcase as (Hs & _ & Hh & _). apply Z.eqb_eq in Hz.
      rewrite Hh, lookup_insert_eq. repeat split; [exact Hs | contradiction].
    - apply Z.leb_le in Hle. lia.
    - destruct Hcase as (Hs & _ & Hh & Hti & _).
      rewrite Hh, Hti, !lookup_insert_eq, Hdl. unfold setTimeout_delay.
      replace (1 <=? now + or_Z (c_deadlineMs config) (defaultDeadlineMs m) - now')
        with true by (symmetry; apply Z.leb_le; lia).
      auto. }
  destruct Hst as (Hs & Hh & Hti).
  split; [exact Hs |]. split.
  { unfold EscrowManager.get, gets. rewrite Hes, lookup_insert_eq. reflexivity. }
  split; [unfold hist; rewrite Hh; reflexivity |].
  split; [exact Hdl |]. split; [exact Hti |].
  rewrite Ham. split; [exact Hamt |]. eauto.
Qed.

(** X3. A [create] whose deadline has already passed when the timer is
    started (a negative [deadlineMs], say) still asks the wallet for the
    invoice and stores the escrow, but returns it in state EXPIRED: its
    history holds null -> CREATED and CREATED -> EXPIRED, the observer is
    told of the expiry, and no timer is armed. *)
Theorem create_past_deadline (w : Wallet) (config : Config) (i : string)
    (now now' tnow : Z) (m : Manager) (e : Escrow) (m' : Manager) :
  EscrowManager.create w config i now now' tnow m = Return e m' ->
  now + or_Z (c_deadlineMs config) (defaultDeadlineMs m) <> 0 ->
  now + or_Z (c_deadlineMs config) (defaultDeadlineMs m) <= now' ->
  state e = EXPIRED /\
  EscrowManager.get i m' = Return (Some e) m' /\
  hist m' e = [mkHist None CREATED now; mkHist (Some CREATED) EXPIRED tnow] /\
  createdAt e = now /\ updatedAt e = tnow /\
  timers m' = timers m /\
  notified m' = (if onStateChange m then (notified m ++ [(i, CREATED, EXPIRED)])%list
                 else notified m) /\
  exists c, calls m' = (calls m ++ [c])%list.
Proof.
  intros Hc Hnz Hle.
  apply create_returns in Hc as (_ & _ & inv & _ & Hcr).
  destruct Hcr as (Hes & Hf & _ & _ & _ & Hca & _ & _ & Hcase).
  destruct Hf as (_ & _ & _ & _ & _ & _ & _ & _ & Hcr).
  apply Z.eqb_neq in Hnz. apply Z.sub_le_mono_r with (p := now') in Hle.
  rewrite Z.sub_diag in Hle. apply Z.leb_le in Hle.
  rewrite Hnz, Hle in Hcase. destruct Hcase as (Hs & Hup & Hh & Hti & Hn).
  split; [exact Hs |]. split.
  { unfold EscrowManager.get, gets. rewrite Hes, lookup_insert_eq. reflexivity. }
  split; [unfold hist; rewrite Hh, lookup_insert_eq; reflexivity |].
  eauto 10.
Qed.

(** ** Unknown identifiers *)

(** X4. On an identifier that is not stored every method throws
    "Unknown escrow: <id>" before anything else: the manager, and with it
    the trace of wallet calls, is as before. [get] returns null. *)
Theorem unknown_escrow_rejected (w : Wallet) (m : Manager) (i : string) (op : Op)
    (now tnow : Z) :
  escrows m !! i = None -> op <> OpDeadline ->
  run_op w i op now tnow m = Throw (UnknownEscrow i) m /\
  message (UnknownEscrow i) = ("Unknown escrow: " ++ i)%string /\
  EscrowManager.get i m = Return None m.
Proof.
  intros Hi Hop. rewrite (unknown_id w m i op now tnow Hi).
  unfold EscrowManager.get, gets. rewrite Hi.
  destruct op; try congruence; auto.
Qed.

(** ** What holds of every manager built by the methods *)

(** X5. In a manager built by calls that do not overlap (each call runs
    from its guard to its return before the next call or deadline timer
    begins), the history of a stored escrow is a faithful record: it
    starts with null -> CREATED, every later entry starts in the state the
    one before ended in and makes a move that a guard permits, and the
    last one ends in the escrow's current state; the first entry is
    stamped [createdAt] and the last [updatedAt]. The escrow is stored
    under its own id. *)
Theorem history_replays (m : Manager) (i : string) (e : Escrow) :
  reachable m -> escrows m !! i = Some e ->
  id e = i /\
  replay (hist m e) = Some (state e) /\
  h_at <$> head (hist m e) = Some (createdAt e) /\
  h_at <$> last (hist m e) = Some (updatedAt e).
Proof.
  intros Hr Hi. apply reachable_well_formed in Hr as (Hsound & _).
  destruct (Hsound i e Hi) as (Hid & _ & _ & _ & Hre & Hhd & Hla). auto.
Qed.

(** X6. Every stored escrow has a positive amount and a worker
    destination, so [release] always finds a payment to make: its
    "No worker payment destination" branch is never taken. *)
Theorem release_has_destination (w : Wallet) (m : Manager) (i : string)
    (now tnow : Z) (err : Error) (m' : Manager) :
  reachable m ->
  EscrowManager.release w i now tnow m = Throw err m' ->
  NoDestinationError err = false /\
  forall e, escrows m !! i = Some e ->
    0 < amountSats e /\ is_Some (EscrowManager.worker_payment w e).
Proof.
  intros Hr Hrel. apply reachable_well_formed in Hr as (Hsound & _).
  assert (Hpay : forall e, escrows m !! i = Some e ->
            0 < amountSats e /\ is_Some (EscrowManager.worker_payment w e)).
  { intros e Hi. destruct (Hsound i e Hi) as (_ & Hamt & Hdest & _).
    split; [exact Hamt |]. unfold EscrowManager.worker_payment.
    destruct (truthy (workerInvoice e)); [eauto |].
    destruct (truthy (workerAddress e)); [eauto | discriminate]. }
  split; [| exact Hpay].
  destruct (escrows m !! i) as [e |] eqn:Hi.
  - destruct (Hpay e eq_refl) as [_ [p Hp]]. revert Hrel. run_with Hi.
    destruct (negb _ && negb _); [intros [= <- _]; reflexivity |].
    rewrite Hp. destruct p as [c [pre | msg]]; cbn.
    + step_with Hi (set_releasedAt (Some now) (set_releasePreimage pre e)).
      discriminate.
    + intros [= <- _]. reflexivity.
  - revert Hrel. run_with Hi. intros [= <- _]. reflexivity.
Qed.


(** ** One call and the other escrows *)

Lemma hist_insert_other (m m' : Manager) (l : loc) (v : list HistEntry) (e : Escrow) :
  histories m' = <[l := v]> (histories m) -> history e <> l ->
  hist m' e = hist m e.
Proof.
  unfold hist. intros -> Hne. rewrite lookup_insert_ne by congruence. reflexivity.
Qed.

Lemma created_history (config : Config) (inv : InvoiceResult) (i : string)
    (now now' tnow : Z) (m : Manager) (e : Escrow) (m' : Manager) :
  created config inv i now now' tnow m e m' ->
  exists v, histories m' = <[history e := v]> (histories m) /\
            histories m !! history e = None.
Proof.
  intros (_ & _ & Hfresh & _ & _ & _ & _ & _ & Hcase).
  destruct (_ =? 0); [| destruct (_ <=? 0)];
    destruct Hcase as (_ & _ & Hh & _); eauto.
Qed.

Lemma perform_frame (c : Call) (m : Manager) (i : string) :
  well_formed m -> call_id c <> Some i ->
  record_and_history (perform c m) i = record_and_history m i.
Proof.
  intros (Hsound & Hinj & _) Hc. unfold record_and_history.
  destruct c as [w config j now now' tnow | w j op now tnow |]; cbn in *;
    [| | reflexivity]; assert (Hne : j <> i) by congruence.
  - destruct (EscrowManager.create w config j now now' tnow m) as [e m' | err m'] eqn:Hcr.
    + apply create_returns in Hcr as (_ & _ & inv & _ & Hcr).
      destruct (created_history _ _ _ _ _ _ _ _ _ Hcr) as (v & Hh & Hfresh).
      destruct Hcr as (Hes & _). cbn. rewrite Hes, lookup_insert_ne by assumption.
      destruct (escrows m !! i) as [ei |] eqn:Hi; [| reflexivity]. cbn.
      rewrite (hist_insert_other m m' _ v ei Hh); [reflexivity |].
      destruct (Hsound i ei Hi) as (_ & _ & _ & [x Hx] & _). congruence.
    + apply create_throws in Hcr as [(_ & -> & _) | [(_ & -> & _) | (msg & _ & _ & ->)]];
        reflexivity.
  - destruct (escrows m !! j) as [ej |] eqn:Hj.
    + destruct (run_op_shape w m j ej op now tnow Hj)
        as [(err & m' & -> & Hth) | [(-> & _ & ->) | (s & e' & m' & Ht & -> & Hst)]]; cbn.
      * destruct Hth as [(_ & _ & Hes & _ & Hh & _) _]. unfold hist.
        rewrite Hes, Hh. reflexivity.
      * reflexivity.
      * destruct Hst as (Hes & _ & _ & _ & Hh & _).
        rewrite Hes, lookup_insert_ne by assumption.
        destruct (escrows m !! i) as [ei |] eqn:Hi; [| reflexivity]. cbn.
        rewrite (hist_push_other m m' ej ei _ Hh); [reflexivity |].
        intros Heq. apply Hne. apply (Hinj j i ej ei); auto.
    + rewrite (unknown_id w m j op now tnow Hj). destruct op; reflexivity.
Qed.

Lemma target_settled (op : Op) (s : State) :
  settled s = true -> target op s = None.
Proof. destruct op, s; vm_compute; congruence. Qed.

Lemma perform_settled (c : Call) (m : Manager) (i : string) (e : Escrow) :
  well_formed m -> escrows m !! i = Some e -> settled (state e) = true ->
  creates i c = false ->
  record_and_history (perform c m) i = record_and_history m i.
Proof.
  intros Hwf Hi Hs Hc.
  destruct (decide (call_id c = Some i)) as [Heq | Hne];
    [| apply perform_frame; assumption].
  destruct c as [w config j now now' tnow | w j op now tnow |]; cbn in *.
  - injection Heq as ->. rewrite bool_decide_eq_true_2 in Hc by reflexivity.
    discriminate.
  - injection Heq as ->. unfold record_and_history.
    destruct (run_op_shape w m i e op now tnow Hi)
      as [(err & m' & -> & Hth) | [(-> & _ & ->) | (s & e' & m' & Ht & _)]]; cbn.
    + destruct Hth as [(_ & _ & Hes & _ & Hh & _) _]. unfold hist.
      rewrite Hes, Hh. reflexivity.
    + reflexivity.
    + rewrite (target_settled op _ Hs) in Ht. discriminate.
  - discriminate.
Qed.

Lemma reachable_all (cs : list Call) (m : Manager) :
  reachable m -> reachable (perform_all cs m).
Proof.
  revert m. induction cs as [| c cs IH]; intros m Hr; [exact Hr |].
  apply IH, reachable_call, Hr.
Qed.

(** X7. Among calls that do not overlap, RELEASED and REFUNDED are
    final: once an escrow is released or refunded in a manager built by
    such calls, with no call in flight at the wallet, then whatever calls
    follow one after the other (short of a [create] that draws the same id
    again), its stored record and its history stay exactly as they are. *)
Theorem settled_is_final (cs : list Call) (m : Manager) (i : string) (e : Escrow) :
  reachable m -> escrows m !! i = Some e -> settled (state e) = true ->
  forallb (fun c => negb (creates i c)) cs = true ->
  escrows (perform_all cs m) !! i = Some e /\
  hist (perform_all cs m) e = hist m e.
Proof.
  intros Hr Hi Hs Hcs.
  assert (Hkeep : record_and_history (perform_all cs m) i = record_and_history m i).
  { revert m Hr Hi. induction cs as [| c cs IH]; intros m Hr Hi; [reflexivity |].
    cbn in Hcs. apply andb_true_iff in Hcs as [Hc Hcs]. apply negb_true_iff in Hc.
    pose proof (perform_settled c m i e (reachable_well_formed m Hr) Hi Hs Hc) as Hp.
    change (perform_all (c :: cs) m) with (perform_all cs (perform c m)).
    rewrite (IH Hcs (perform c m)); [exact Hp | apply reachable_call, Hr |].
    unfold record_and_history in Hp. rewrite Hi in Hp. cbn in Hp.
    destruct (escrows (perform c m) !! i); [| discriminate].
    injection Hp as -> _. reflexivity. }
  unfold record_and_history in Hkeep. rewrite Hi in Hkeep. cbn in Hkeep.
  destruct (escrows (perform_all cs m) !! i) as [e2 |]; [| discriminate].
  injection Hkeep as -> Hh. auto.
Qed.

(** X8. A call on one id leaves every other id alone: the record stored
    under another id, and the contents of its history, are the same before
    and after any call of a method on a different id (or of [close]). *)
Theorem other_escrows_untouched (c : Call) (m : Manager) (i : string) :
  reachable m -> call_id c <> Some i ->
  escrows (perform c m) !! i = escrows m !! i /\
  forall e, escrows m !! i = Some e -> hist (perform c m) e = hist m e.
Proof.
  intros Hr Hc.
  pose proof (perform_frame c m i (reachable_well_formed m Hr) Hc) as Hp.
  unfold record_and_history in Hp.
  destruct (escrows m !! i) as [e |], (escrows (perform c m) !! i) as [e2 |];
    try discriminate; [| split; [reflexivity | discriminate]].
  injection Hp as -> Hh. split; [reflexivity |]. intros ? [= <-]. exact Hh.
Qed.

(** ** Histories only grow *)

Lemma perform_grows (c : Call) (m : Manager) (l : loc) (h : list HistEntry) :
  histories m !! l = Some h ->
  exists h2, histories (perform c m) !! l = Some h2 /\ h `prefix_of` h2.
Proof.
  intros Hl.
  assert (Hsame : exists h2, histories m !! l = Some h2 /\ h `prefix_of` h2)
    by (exists h; split; [exact Hl | reflexivity]).
  destruct c as [w config j now now' tnow | w j op now tnow |]; cbn;
    [| | exact Hsame].
  - destruct (EscrowManager.create w config j now now' tnow m) as [e m' | err m'] eqn:Hcr.
    + apply create_returns in Hcr as (_ & _ & inv & _ & Hcr).
      destruct (created_history _ _ _ _ _ _ _ _ _ Hcr) as (v & Hh & Hfresh).
      cbn. rewrite Hh, lookup_insert_ne by congruence. exact Hsame.
    + apply create_throws in Hcr as [(_ & -> & _) | [(_ & -> & _) | (msg & _ & _ & ->)]];
        exact Hsame.
  - destruct (escrows m !! j) as [ej |] eqn:Hj.
    + destruct (run_op_shape w m j ej op now tnow Hj)
        as [(err & m' & -> & Hth) | [(-> & _ & ->) | (s & e' & m' & Ht & -> & Hst)]]; cbn.
      * destruct Hth as [(_ & _ & _ & _ & Hh & _) _]. rewrite Hh. exact Hsame.
      * exact Hsame.
      * destruct Hst as (_ & _ & _ & _ & Hh & _). rewrite Hh. unfold push.
        destruct (decide (history ej = l)) as [-> | Hne].
        -- rewrite lookup_insert_eq, Hl. cbn. eexists. split; [reflexivity |].
           apply prefix_app_r. reflexivity.
        -- rewrite lookup_insert_ne by assumption. exact Hsame.
    + rewrite (unknown_id w m j op now tnow Hj). destruct op; exact Hsame.
Qed.

(** X9. The manager only ever appends to a history array: after any
    sequence of calls, what an array held before is a prefix of what it
    holds now. No entry is removed or rewritten. *)
Theorem history_only_grows (cs : list Call) (m : Manager) (l : loc)
    (h : list HistEntry) :
  histories m !! l = Some h ->
  exists h2, histories (perform_all cs m) !! l = Some h2 /\ h `prefix_of` h2.
Proof.
  revert m h. induction cs as [| c cs IH]; intros m h Hl.
  - exists h. split; [exact Hl | reflexivity].
  - destruct (perform_grows c m l h Hl) as (h1 & Hl1 & Hp1).
    change (perform_all (c :: cs) m) with (perform_all cs (perform c m)).
    destruct (IH (perform c m) h1 Hl1) as (h2 & Hl2 & Hp2).
    exists h2. split; [exact Hl2 | etransitivity; eassumption].
Qed.

(** ** Timers *)

(** X10. A pending timer always has a positive delay and belongs to a
    stored escrow that is neither RELEASED nor REFUNDED: [release] and
    [refund] leave no timer behind. *)
Theorem no_timer_on_settled (m : Manager) (i : string) (d : Z) :
  reachable m -> timers m !! i = Some d ->
  0 < d /\
  exists e, escrows m !! i = Some e /\ state e <> RELEASED /\ state e <> REFUNDED.
Proof.
  intros Hr Ht. destruct (reachable_timers_ok m Hr i d Ht) as (Hd & e & Hi & Hs).
  split; [exact Hd |]. exists e. split; [exact Hi |].
  destruct (state e); try discriminate Hs; split; discriminate.
Qed.


(** ** [list] *)

Lemma omap_ids (m : Manager) (l : list string) :
  (forall i, i ∈ l -> exists e, escrows m !! i = Some e /\ id e = i) ->
  id <$> omap (fun i => escrows m !! i) l = l.
Proof.
  induction l as [| i l IH]; intros Hl; [reflexivity |].
  destruct (Hl i) as (e & Hi & Hid); [left |].
  cbn. rewrite Hi. cbn. rewrite Hid, IH; [reflexivity |].
  intros j Hj. apply Hl. right. exact Hj.
Qed.

Lemma filter_sublist_of {A} (P : A -> bool) (l : list A) :
  List.filter P l `sublist_of` l.
Proof.
  induction l as [| x l IH]; cbn; [constructor |].
  destruct (P x); [apply sublist_skip | apply sublist_cons]; exact IH.
Qed.

(** X11. [list()] returns every stored escrow exactly once, in the order
    of creation, and [list(state)] exactly those of them that are in the
    given state; neither changes the manager. *)
Theorem list_returns_stored (m : Manager) (st : option State) :
  reachable m ->
  exists l, EscrowManager.list st m = Return l m /\
    NoDup (id <$> l) /\
    id <$> l `sublist_of` order m /\
    (st = None -> id <$> l = order m) /\
    forall e, e ∈ l <->
      escrows m !! id e = Some e /\
      match st with Some s => state e = s | None => True end.
Proof.
  intros Hr. apply reachable_well_formed in Hr as (Hsound & _ & Hnd & Hord).
  pose (all := omap (fun i => escrows m !! i) (order m)).
  assert (Hids : id <$> all = order m).
  { apply omap_ids. intros i Hi. apply Hord in Hi as [e Hi].
    exists e. split; [exact Hi |]. apply (Hsound i e Hi). }
  assert (Hall : forall e, e ∈ all <-> escrows m !! id e = Some e).
  { intros e. unfold all. rewrite list_elem_of_omap. split.
    - intros (i & _ & Hi). rewrite (proj1 (Hsound i e Hi)). exact Hi.
    - intros Hi. exists (id e). split; [| exact Hi]. apply Hord. eauto. }
  destruct st as [s |]; cbn; fold all.
  - eexists. split; [reflexivity |].
    pose proof (filter_sublist_of (fun e => bool_decide (state e = s)) all) as Hsub.
    apply (fmap_sublist id) in Hsub. rewrite Hids in Hsub.
    split; [exact (sublist_NoDup _ _ Hnd Hsub) |]. split; [exact Hsub |].
    split; [discriminate |].
    intros e. split.
    + intros He. apply list_elem_of_In, filter_In in He as [He Hs].
      apply list_elem_of_In, Hall in He. apply bool_decide_eq_true in Hs. auto.
    + intros [He Hs]. apply list_elem_of_In, filter_In. split.
      * apply list_elem_of_In, Hall, He.
      * apply bool_decide_eq_true, Hs.
  - exists all. split; [reflexivity |]. rewrite Hids.
    split; [exact Hnd |]. split; [reflexivity |]. split; [reflexivity |].
    intros e. rewrite Hall. tauto.
Qed.

(** ** Metadata *)

(** X12. [create] stores the caller's [config.metadata] object itself,
    so two escrows created from the same configuration share it: the
    reason that [refund] writes for one of them is read under
    ["refundReason"] in the metadata of the other. *)
Theorem refund_reason_shared (w : Wallet) (config : Config) (l : loc)
    (i j : string) (t1 t2 t3 u1 u2 u3 now tnow : Z)
    (refundAddr reason : option string)
    (m m1 m2 m3 : Manager) (e1 e2 e' : Escrow) :
  c_metadata config = Some l -> i <> j ->
  EscrowManager.create w config i t1 t2 t3 m = Return e1 m1 ->
  EscrowManager.create w config j u1 u2 u3 m1 = Return e2 m2 ->
  EscrowManager.refund w i refundAddr reason now tnow m2 = Return e' m3 ->
  metadata e1 = l /\ metadata e2 = l /\
  exists e2', escrows m3 !! j = Some e2' /\ metadata e2' = l /\
    meta m3 e2' !! "refundReason" = Some (MStr (or_str reason "manual")).
Proof.
  intros Hl Hij H1 H2 H3.
  apply create_returns in H1 as (_ & _ & inv1 & _ & Hc1).
  apply create_returns in H2 as (_ & _ & inv2 & _ & Hc2).
  destruct Hc1 as (Hes1 & _ & _ & Hm1 & _). destruct Hc2 as (Hes2 & _ & _ & Hm2 & _).
  rewrite Hl in Hm1, Hm2. destruct Hm1 as [Hm1 _]. destruct Hm2 as [Hm2 _].
  split; [exact Hm1 |]. split; [exact Hm2 |].
  assert (Hi : escrows m2 !! i = Some e1).
  { rewrite Hes2, lookup_insert_ne by congruence. rewrite Hes1.
    apply lookup_insert_eq. }
  assert (Hj : escrows m2 !! j = Some e2) by (rewrite Hes2; apply lookup_insert_eq).
  revert H3. run_with Hi.
  destruct (bool_decide (state e1 = RELEASED)); [discriminate |].
  destruct (bool_decide (state e1 = REFUNDED)); [discriminate |].
  destruct (EscrowManager.refund_payment w e1 refundAddr reason)
    as [[c [preimage | msg]] |]; cbn; try discriminate;
    step_with Hi (set_refundedAt (Some now) (set_refundAddress refundAddr e1));
    intros [= <- <-]; exists e2;
    (split; [rewrite Hes, lookup_insert_ne by assumption; exact Hj |]);
    (split; [exact Hm2 |]);
    unfold meta; rewrite Hme, Hm1, Hm2; unfold set_key;
    rewrite lookup_insert_eq; cbn; apply lookup_insert_eq.
Qed.

(** ** Wallet calls *)

Lemma quiet_op (w : Wallet) (m : Manager) (i : string) (op : Op) (now tnow : Z) :
  quiet (DoOp w i op now tnow) = true ->
  calls (final (run_op w i op now tnow m)) = calls m.
Proof.
  intros Hq. destruct (escrows m !! i) as [e |] eqn:Hi.
  - destruct op; try discriminate Hq; run_with Hi.
    + destruct (negb _); [reflexivity |].
      step_with Hi (set_deliveredAt (Some now) (set_deliveryProof proof e)).
      exact Hca.
    + destruct (_ || _); [reflexivity |]. step_with Hi e. exact Hca.
    + destruct (funded_or_created (state e)); [| reflexivity].
      step_with Hi e. exact Hca.
  - rewrite (unknown_id w m i op now tnow Hi). destruct op; reflexivity.
Qed.

(** X13. A call of a method asks the wallet at most once, and [deliver],
    [dispute], the firing of a deadline and [close] never do. Earlier
    requests stay in the trace in their order. *)
Theorem wallet_called_at_most_once (c : Call) (m : Manager) :
  exists l, calls (perform c m) = (calls m ++ l)%list /\
            (length l <= 1)%nat /\
            (quiet c = true -> l = []).
Proof.
  assert (Hnone : forall m2, calls m2 = calls m ->
            exists l, calls m2 = (calls m ++ l)%list /\
                      (length l <= 1)%nat /\ (quiet c = true -> l = [])).
  { intros m2 ->. exists []. rewrite app_nil_r. cbn. auto. }
  assert (Hone : quiet c = false -> forall m2 x, calls m2 = (calls m ++ [x])%list ->
            exists l, calls m2 = (calls m ++ l)%list /\
                      (length l <= 1)%nat /\ (quiet c = true -> l = [])).
  { intros Hq m2 x ->. exists [x]. rewrite Hq. cbn. split; [reflexivity |].
    split; [lia | discriminate]. }
  destruct (quiet c) eqn:Hq.
  { apply Hnone. destruct c as [| w i op now tnow |]; try discriminate Hq; cbn.
    - apply quiet_op. exact Hq.
    - reflexivity. }
  specialize (Hone eq_refl).
  destruct c as [w config i now now' tnow | w i op now tnow |]; cbn in *.
  - destruct (EscrowManager.create w config i now now' tnow m) as [e m' | err m'] eqn:Hc.
    + apply create_returns in Hc as (_ & _ & inv & _ & Hcr).
      destruct Hcr as (_ & _ & _ & _ & _ & Hca & _). eapply Hone. exact Hca.
    + apply create_throws in Hc as [(_ & -> & _) | [(_ & -> & _) | (msg & _ & _ & ->)]].
      * apply Hnone. reflexivity.
      * apply Hnone. reflexivity.
      * eapply Hone. reflexivity.
  - destruct (escrows m !! i) as [e |] eqn:Hi.
    + destruct (run_op_shape w m i e op now tnow Hi)
        as [(err & m' & -> & Hth) | [(-> & _ & ->) | (s & e' & m' & Ht & -> & Hst)]]; cbn.
      * destruct Hth as [_ [Hca | [x Hca]]]; [apply Hnone | eapply Hone]; exact Hca.
      * discriminate.
      * destruct Hst as (_ & _ & _ & _ & _ & _ & _ & _ & _ & _ & [Hca | [x Hca]] & _);
          [apply Hnone | eapply Hone]; exact Hca.
    + rewrite (unknown_id w m i op now tnow Hi). apply Hnone. destruct op; reflexivity.
  - discriminate.
Qed.

(** ** What the methods return *)

Ltac returns_stored Hi f :=
  step_with Hi f; intros [= <- <-];
  unfold EscrowManager.get, gets;
  match goal with Hes : escrows _ = _ |- _ => rewrite Hes end;
  rewrite lookup_insert_eq; reflexivity.

(** X14. What a method returns and what [get] returns next are copies of
    the same stored object: right after a successful [create], [fund],
    [deliver], [release], [refund] or [dispute], [get] of that id gives the
    escrow that the method returned, field for field. *)
Theorem methods_return_stored :
  (forall w config i now now' tnow m e m',
     EscrowManager.create w config i now now' tnow m = Return e m' ->
     EscrowManager.get i m' = Return (Some e) m') /\
  (forall w i opts now tnow m e m',
     EscrowManager.fund w i opts now tnow m = Return e m' ->
     EscrowManager.get i m' = Return (Some e) m') /\
  (forall i proof now tnow m e m',
     EscrowManager.deliver i proof now tnow m = Return e m' ->
     EscrowManager.get i m' = Return (Some e) m') /\
  (forall w i now tnow m e m',
     EscrowManager.release w i now tnow m = Return e m' ->
     EscrowManager.get i m' = Return (Some e) m') /\
  (forall w i refundAddr reason now tnow m e m',
     EscrowManager.refund w i refundAddr reason now tnow m = Return e m' ->
     EscrowManager.get i m' = Return (Some e) m') /\
  (forall i reason raisedBy now tnow m e m',
     EscrowManager.dispute i reason raisedBy now tnow m = Return e m' ->
     EscrowManager.get i m' = Return (Some e) m').
Proof.
  repeat apply conj.
  - intros w config i now now' tnow m e m' Hc.
    apply create_returns in Hc as (_ & _ & inv & _ & Hes & _).
    unfold EscrowManager.get, gets. rewrite Hes, lookup_insert_eq. reflexivity.
  - intros w i opts now tnow m e0 m0.
    destruct (escrows m !! i) as [e |] eqn:Hi; run_with Hi; [| discriminate].
    destruct (negb _); [discriminate |].
    destruct (EscrowManager.fund_wait w e opts) as [[c [[|] | msg]] |]; cbn;
      try discriminate; returns_stored Hi (set_fundedAt (Some now) e).
  - intros i proof now tnow m e0 m0.
    destruct (escrows m !! i) as [e |] eqn:Hi; run_with Hi; [| discriminate].
    destruct (negb _); [discriminate |].
    returns_stored Hi (set_deliveredAt (Some now) (set_deliveryProof proof e)).
  - intros w i now tnow m e0 m0.
    destruct (escrows m !! i) as [e |] eqn:Hi; run_with Hi; [| discriminate].
    destruct (negb _ && negb _); [discriminate |].
    destruct (EscrowManager.worker_payment w e) as [[c [preimage | msg]] |]; cbn;
      try discriminate;
      returns_stored Hi (set_releasedAt (Some now) (set_releasePreimage preimage e)).
  - intros w i refundAddr reason now tnow m e0 m0.
    destruct (escrows m !! i) as [e |] eqn:Hi; run_with Hi; [| discriminate].
    destruct (bool_decide (state e = RELEASED)); [discriminate |].
    destruct (bool_decide (state e = REFUNDED)); [discriminate |].
    destruct (EscrowManager.refund_payment w e refundAddr reason)
      as [[c [preimage | msg]] |]; cbn; try discriminate;
      returns_stored Hi (set_refundedAt (Some now) (set_refundAddress refundAddr e)).
  - intros i reason raisedBy now tnow m e0 m0.
    destruct (escrows m !! i) as [e |] eqn:Hi; run_with Hi; [| discriminate].
    destruct (_ || _); [discriminate |].
    returns_stored Hi e.
Qed.


(** ** Calls that overlap *)

(** Each asynchronous method is its two halves, one after the other. *)
Lemma methods_in_two_halves (w : Wallet) (i : string) (opts : FundOpts)
    (a r : option string) (now tnow : Z) (m : Manager) :
  EscrowManager.fund w i opts now tnow m
  = (let* _ := fund_begin w i opts in fund_resume i now tnow) m /\
  EscrowManager.release w i now tnow m
  = (let* p := release_begin w i in release_resume i p now tnow) m /\
  EscrowManager.refund w i a r now tnow m
  = (let* e := refund_begin w i a r in refund_resume i e a r now tnow) m.
Proof.
  unfold EscrowManager.fund, EscrowManager.release, EscrowManager.refund,
    fund_begin, fund_resume, release_begin, release_resume, refund_begin,
    refund_resume.
  cbv beta iota delta [bind lookup_escrow gets throw ret await modify].
  destruct (escrows m !! i) as [e |]; [| repeat split].
  repeat split;
    repeat match goal with
           | |- context [if ?b then _ else _] => destruct b
           | |- context [EscrowManager.fund_wait ?w ?e ?o] =>
               destruct (EscrowManager.fund_wait w e o) as [[? [[|] | ?]] |]
           | |- context [EscrowManager.worker_payment ?w ?e] =>
               destruct (EscrowManager.worker_payment w e) as [[? [? | ?]] |]
           | |- context [EscrowManager.refund_payment ?w ?e ?a ?r] =>
               destruct (EscrowManager.refund_payment w e a r) as [[? [? | ?]] |]
           end;
    reflexivity.
Qed.

(** X21. What follows the [await] in [release], [refund] and [fund] does
    not look at the escrow again: whatever state the escrow has come to
    while the wallet was awaited, the second half of the method makes its
    transition from there, and the history gets an entry that starts in
    that state. So a [refund] that was begun before a [release] resolved
    turns the RELEASED escrow into a REFUNDED one. *)
Theorem second_half_unguarded (i : string) (e e0 : Escrow) (m : Manager)
    (p a r : option string) (now tnow : Z) :
  escrows m !! i = Some e ->
  (exists e' m', release_resume i p now tnow m = Return e' m' /\
     moved m m' i e e' RELEASED tnow /\ calls m' = calls m) /\
  (exists e' m', refund_resume i e0 a r now tnow m = Return e' m' /\
     moved m m' i e e' REFUNDED tnow /\ calls m' = calls m) /\
  (exists e' m', fund_resume i now tnow m = Return e' m' /\
     moved m m' i e e' FUNDED tnow /\ calls m' = calls m).
Proof.
  intros Hi. unfold release_resume, refund_resume, fund_resume.
  cbv beta iota delta [bind update_escrow cancelTimer modify].
  split; [| split].
  - finish_with Hi (fun e => set_releasedAt (Some now) (set_releasePreimage p e)).
    intuition congruence.
  - finish_with Hi (fun e => set_refundedAt (Some now) (set_refundAddress a e)).
    intuition congruence.
  - finish_with Hi (set_fundedAt (Some now)).
    intuition congruence.
Qed.

(** A [refund] to an address is called on the FUNDED escrow and awaits the
    wallet; a [release] is called and runs to its end; the refund goes on.
    Both the client and the worker have been paid, the escrow is REFUNDED,
    and its history ends with an entry released -> refunded that no guard
    permits. Likewise a [fund] overlapped by the deadline timer leaves an
    entry expired -> funded. *)
Example refund_overlapping_release :
  exists e0 m1 e2 m2 e3 m3,
    refund_begin cooperative "e1" (Some "client@x") None (reach FUNDED) = Return e0 m1 /\
    EscrowManager.release cooperative "e1" 4000 4001 m1 = Return e2 m2 /\
    state e2 = RELEASED /\
    refund_resume "e1" e0 (Some "client@x") None 5000 5001 m2 = Return e3 m3 /\
    state e3 = REFUNDED /\
    last (hist m3 e3) = Some (mkHist (Some RELEASED) REFUNDED 5001) /\
    replay (hist m3 e3) = None /\
    calls m3 = (calls (reach FUNDED)
                ++ [CallPayAddress "client@x" 500 "Escrow refund: e1";
                    CallPayAddress "worker@x" 500 "Escrow release: translate"])%list.
Proof.
  do 6 eexists.
  split; [vm_compute; reflexivity |]. split; [vm_compute; reflexivity |].
  split; [reflexivity |]. split; [vm_compute; reflexivity |].
  repeat split.
Qed.

Example fund_overlapped_by_deadline :
  exists m1 m2 e3 m3,
    fund_begin cooperative "e1" (mkFundOpts None None) (reach CREATED) = Return tt m1 /\
    deadlineTimerFired "e1" 3601000 m1 = Return tt m2 /\
    (state <$> escrows m2 !! "e1") = Some EXPIRED /\
    fund_resume "e1" 3602000 3602001 m2 = Return e3 m3 /\
    state e3 = FUNDED /\
    last (hist m3 e3) = Some (mkHist (Some EXPIRED) FUNDED 3602001) /\
    replay (hist m3 e3) = None.
Proof.
  do 4 eexists.
  split; [vm_compute; reflexivity |]. split; [vm_compute; reflexivity |].
  split; [reflexivity |]. split; [vm_compute; reflexivity |].
  repeat split.
Qed.

(** ** The theorems at sample inputs *)

Lemma create_all_or_nothing_witness :
  exists err m',
    EscrowManager.create failing sample_config "e1" 1000 1001 1002 fresh_manager
    = Throw err m' /\
    1001 < 1000 + or_Z (c_deadlineMs sample_config) (defaultDeadlineMs fresh_manager) /\
    same_engine fresh_manager m'.
Proof.
  do 2 eexists. split; [vm_compute; reflexivity |]. split; [reflexivity |].
  refine (proj1 (create_all_or_nothing failing sample_config "e1" 1000 1001 1002
                   fresh_manager _ _ _ _)).
  - vm_compute; reflexivity.
  - right. reflexivity.
Defined.

Lemma create_arms_timer_witness :
  (exists e m',
     EscrowManager.create cooperative sample_config "e1" 1000 1001 1002 fresh_manager
     = Return e m' /\
     1001 < 1000 + or_Z (c_deadlineMs sample_config) (defaultDeadlineMs fresh_manager) /\
     state e = CREATED /\ timers m' !! "e1" = Some 3599999) /\
  (exists e m',
     EscrowManager.create cooperative far_config "e1" 1000 1001 1002 fresh_manager
     = Return e m' /\
     1001 < 1000 + or_Z (c_deadlineMs far_config) (defaultDeadlineMs fresh_manager) /\
     state e = CREATED /\ timers m' !! "e1" = Some 1).
Proof.
  split.
  - do 2 eexists. split; [vm_compute; reflexivity |]. split; [reflexivity |].
    epose proof (create_arms_timer cooperative sample_config "e1" 1000 1001 1002
                   fresh_manager _ _ _ _) as (Hs & _ & _ & _ & Hti & _).
    split; [exact Hs |]. apply Hti. vm_compute; discriminate.
    Unshelve.
    + vm_compute; reflexivity.
    + reflexivity.
  - do 2 eexists. split; [vm_compute; reflexivity |]. split; [reflexivity |].
    epose proof (create_arms_timer cooperative far_config "e1" 1000 1001 1002
                   fresh_manager _ _ _ _) as (Hs & _ & _ & _ & Hti & _).
    split; [exact Hs |]. apply Hti. vm_compute; discriminate.
    Unshelve.
    + vm_compute; reflexivity.
    + reflexivity.
Defined.

Lemma create_past_deadline_witness :
  exists e m',
    EscrowManager.create cooperative late_config "e1" 1000 1001 1002 fresh_manager
    = Return e m' /\
    1000 + or_Z (c_deadlineMs late_config) (defaultDeadlineMs fresh_manager) <= 1001 /\
    state e = EXPIRED.
Proof.
  do 2 eexists. split; [vm_compute; reflexivity |].
  split; [vm_compute; discriminate |].
  refine (proj1 (create_past_deadline cooperative late_config "e1" 1000 1001 1002
                   fresh_manager _ _ _ _ _)).
  - vm_compute; reflexivity.
  - vm_compute; discriminate.
  - vm_compute; discriminate.
Defined.

Lemma unknown_escrow_rejected_witness :
  escrows fresh_manager !! "nope" = None /\
  run_op cooperative "nope" OpRelease 1 2 fresh_manager
  = Throw (UnknownEscrow "nope") fresh_manager.
Proof.
  split; [reflexivity |].
  refine (proj1 (unknown_escrow_rejected cooperative fresh_manager "nope" OpRelease
                   1 2 _ _)).
  - reflexivity.
  - discriminate.
Defined.

Lemma history_replays_witness :
  exists e, escrows (reach DELIVERED) !! "e1" = Some e /\
            replay (hist (reach DELIVERED) e) = Some (state e).
Proof.
  eexists. split; [vm_compute; reflexivity |].
  refine (proj1 (proj2 (history_replays (reach DELIVERED) "e1" _
                          (reach_reachable DELIVERED) _))).
  vm_compute; reflexivity.
Defined.

Lemma release_has_destination_witness :
  exists err m',
    EscrowManager.release cooperative "e1" 4000 4001 (reach CREATED) = Throw err m' /\
    NoDestinationError err = false.
Proof.
  do 2 eexists. split; [vm_compute; reflexivity |].
  refine (proj1 (release_has_destination cooperative (reach CREATED) "e1" 4000 4001
                   _ _ (reach_reachable CREATED) _)).
  vm_compute; reflexivity.
Defined.

Lemma settled_is_final_witness :
  exists e,
    escrows (reach RELEASED) !! "e1" = Some e /\ settled (state e) = true /\
    escrows (perform_all
               [DoOp cooperative "e1" (OpRefund (Some "client@x") None) 5000 5001;
                second_create;
                DoOp cooperative "e1" OpDeadline 0 3601000]
               (reach RELEASED)) !! "e1" = Some e.
Proof.
  eexists. split; [vm_compute; reflexivity |]. split; [vm_compute; reflexivity |].
  refine (proj1 (settled_is_final _ (reach RELEASED) "e1" _
                   (reach_reachable RELEASED) _ _ _)).
  - vm_compute; reflexivity.
  - vm_compute; reflexivity.
  - vm_compute; reflexivity.
Defined.

Lemma other_escrows_untouched_witness :
  is_Some (escrows (reach FUNDED) !! "e1") /\
  escrows (perform second_create (reach FUNDED)) !! "e1"
  = escrows (reach FUNDED) !! "e1".
Proof.
  split; [vm_compute; eauto |].
  refine (proj1 (other_escrows_untouched second_create (reach FUNDED) "e1"
                   (reach_reachable FUNDED) _)).
  vm_compute; discriminate.
Defined.

Lemma history_only_grows_witness :
  exists h h2,
    histories (reach CREATED) !! 1%positive = Some h /\
    histories (perform_all
                 [DoOp cooperative "e1" (OpFund (mkFundOpts None None)) 2000 2001;
                  DoOp cooperative "e1" (OpDeliver None) 3000 3001]
                 (reach CREATED)) !! 1%positive = Some h2 /\
    h `prefix_of` h2 /\ length h2 = 3%nat.
Proof.
  eexists.
  edestruct (history_only_grows
               [DoOp cooperative "e1" (OpFund (mkFundOpts None None)) 2000 2001;
                DoOp cooperative "e1" (OpDeliver None) 3000 3001]
               (reach CREATED) 1%positive) as (h2 & Hl & Hp).
  - vm_compute; reflexivity.
  - exists h2. split; [reflexivity |]. split; [exact Hl |]. split; [exact Hp |].
    vm_compute in Hl. injection Hl as <-. reflexivity.
Defined.

Lemma no_timer_on_settled_witness :
  exists d, timers (reach CREATED) !! "e1" = Some d /\ 0 < d.
Proof.
  eexists. split; [vm_compute; reflexivity |].
  refine (proj1 (no_timer_on_settled (reach CREATED) "e1" _
                   (reach_reachable CREATED) _)).
  vm_compute; reflexivity.
Defined.

Lemma list_returns_stored_witness :
  exists l,
    EscrowManager.list (Some FUNDED) (perform second_create (reach FUNDED))
    = Return l (perform second_create (reach FUNDED)) /\
    NoDup (id <$> l) /\ length l = 1%nat.
Proof.
  destruct (list_returns_stored (perform second_create (reach FUNDED)) (Some FUNDED))
    as (l & Hl & Hnd & _).
  - apply reachable_call, reach_reachable.
  - exists l. split; [exact Hl |]. split; [exact Hnd |].
    vm_compute in Hl. injection Hl as <-. reflexivity.
Defined.

Lemma refund_reason_shared_witness :
  exists e1 m1 e2 m2 e' m3,
    EscrowManager.create cooperative tagged_config "e1" 1000 1001 1002 fresh_manager
    = Return e1 m1 /\
    EscrowManager.create cooperative tagged_config "e2" 2000 2001 2002 m1
    = Return e2 m2 /\
    EscrowManager.refund cooperative "e1" None (Some "cancelled") 3000 3001 m2
    = Return e' m3 /\
    exists e2', escrows m3 !! "e2" = Some e2' /\ metadata e2' = 7%positive /\
      meta m3 e2' !! "refundReason" = Some (MStr "cancelled").
Proof.
  do 6 eexists. split; [vm_compute; reflexivity |].
  split; [vm_compute; reflexivity |]. split; [vm_compute; reflexivity |].
  refine (proj2 (proj2 (refund_reason_shared cooperative tagged_config 7%positive
                          "e1" "e2" 1000 1001 1002 2000 2001 2002 3000 3001
                          None (Some "cancelled") fresh_manager _ _ _ _ _ _
                          eq_refl _ _ _ _))).
  - discriminate.
  - vm_compute; reflexivity.
  - vm_compute; reflexivity.
  - vm_compute; reflexivity.
Defined.

Lemma second_half_unguarded_witness :
  exists e,
    escrows (reach RELEASED) !! "e1" = Some e /\ state e = RELEASED /\
    exists e' m',
      refund_resume "e1" e (Some "client@x") None 5000 5001 (reach RELEASED)
      = Return e' m' /\
      state e' = REFUNDED /\
      hist m' e = (hist (reach RELEASED) e ++ [mkHist (Some RELEASED) REFUNDED 5001])%list.
Proof.
  eexists. split; [vm_compute; reflexivity |]. split; [reflexivity |].
  match goal with
  | |- exists e' m', refund_resume _ ?e _ _ _ _ _ = _ /\ _ =>
      destruct (second_half_unguarded "e1" e e (reach RELEASED) None
                  (Some "client@x") None 5000 5001)
        as (_ & (e' & m' & Hrun & Hmv & _) & _)
  end.
  - vm_compute; reflexivity.
  - exists e', m'. split; [exact Hrun |].
    destruct Hmv as (_ & Hs & _ & Hh & _). split; [exact Hs | exact Hh].
Defined.

End EscrowMore.

(** * Further properties of the stream provider *)

Module StreamMore.

Import Stream StreamRuns StreamProps.
Local Open Scope N_scope.

(** ** Strings and counts *)

Lemma join_app (a b : list string) : join (a ++ b) = (join a ++ join b)%string.
Proof.
  induction a as [| x a IH]; [reflexivity |].
  change (x ++ join (a ++ b) = (x ++ join a) ++ join b)%string.
  rewrite IH, append_assoc. reflexivity.
Qed.

Lemma delivered_app (a b : list SSE) :
  delivered (a ++ b) = (delivered a ++ delivered b)%string.
Proof. unfold delivered. rewrite fmap_app. apply join_app. Qed.

Lemma delivered_content (t : string) (b c : N) (evs : list SSE) :
  delivered (EvContent t b c :: evs) = (t ++ delivered evs)%string.
Proof. reflexivity. Qed.

Lemma delivered_other (e : SSE) (evs : list SSE) :
  is_content e = false -> delivered (e :: evs) = delivered evs.
Proof. destruct e; try discriminate; reflexivity. Qed.

Lemma delivered_nil : delivered [] = EmptyString.
Proof. reflexivity. Qed.

Lemma join_cons (x : string) (l : list string) : join (x :: l) = (x ++ join l)%string.
Proof. reflexivity. Qed.

Lemma join_nil : join [] = EmptyString.
Proof. reflexivity. Qed.

Lemma append_empty_l (s : string) : (EmptyString ++ s)%string = s.
Proof. reflexivity. Qed.

Ltac strs :=
  cbn [take l_events l_buffer length] in *;
  rewrite ?join_cons, ?join_nil, ?delivered_app, ?delivered_content,
    ?delivered_other, ?delivered_nil, ?append_empty_r, ?append_empty_l,
    ?append_assoc in * by reflexivity.

Lemma count_app (f : SSE -> bool) (a b : list SSE) :
  count f (a ++ b) = count f a + count f b.
Proof. unfold count. rewrite List.filter_app, length_app. lia. Qed.

Lemma count_cons (f : SSE -> bool) (e : SSE) (l : list SSE) :
  count f (e :: l) = (if f e then 1 else 0) + count f l.
Proof. unfold count. cbn [List.filter]. destruct (f e); cbn [length]; lia. Qed.

Lemma count_nil (f : SSE -> bool) : count f [] = 0.
Proof. reflexivity. Qed.

Ltac counts :=
  rewrite ?count_cons, ?count_nil;
  cbn [is_content is_invoice is_paused is_max_batches is_error is_done].

Lemma from_snoc (b : N) (k : nat) :
  from b (S k) = (from b k ++ [b + N.of_nat (S k)])%list.
Proof. unfold from. rewrite seq_S, fmap_app. reflexivity. Qed.

Lemma content_indices_app (a b : list SSE) :
  content_indices (a ++ b) = (content_indices a ++ content_indices b)%list.
Proof. apply omap_app. Qed.

Lemma from_S (b : N) (k : nat) : from b (S k) = (b + 1) :: from (b + 1) k.
Proof.
  unfold from. cbn [seq fmap list_fmap]. f_equal.
  rewrite <- fmap_S_seq, <- list_fmap_compose. apply list_fmap_ext.
  intros i j _. cbn. lia.
Qed.

(** ** Proof submissions and the wait leave the counters alone *)

Section Counters.

Variable sha256_hex : list Byte.byte -> string.

Lemma handlePayment_counters (body : Body) (ss : gmap string Session) (k : string) :
  counters <$> (_handlePayment sha256_hex body ss).2 !! k = counters <$> ss !! k.
Proof.
  unfold _handlePayment.
  repeat case_match; cbn [snd]; try reflexivity.
  subst. destruct (decide (s = k)) as [-> | Hne].
  - rewrite lookup_insert_eq. match goal with H : ss !! k = Some _ |- _ => rewrite H end.
    reflexivity.
  - rewrite lookup_insert_ne by assumption. reflexivity.
Qed.

Lemma handle_posts_counters (posts : list Body) :
  forall (ss : gmap string Session) (k : string),
  counters <$> handle_posts sha256_hex posts ss !! k = counters <$> ss !! k.
Proof.
  induction posts as [| b posts IH]; intros ss k; cbn [handle_posts fold_left].
  - reflexivity.
  - unfold handle_posts in IH. rewrite IH. apply handlePayment_counters.
Qed.

Lemma poll_counters (sid : string) (batchIdx : N) (start timeoutMs : Z)
    (rounds : list Round) :
  forall (ss ss' : gmap string Session) (confirmed : bool) (k : string),
  poll sha256_hex sid batchIdx start timeoutMs rounds ss = Some (confirmed, ss') ->
  counters <$> ss' !! k = counters <$> ss !! k.
Proof.
  induction rounds as [| r rounds IH]; intros ss ss' confirmed k; cbn [poll].
  - discriminate.
  - destruct (negb _); [intros [= <- <-]; reflexivity |].
    destruct (ss !! sid) as [session |] eqn:Hs; cbn [mbind option_bind];
      [| discriminate].
    case_bool_decide; [intros [= <- <-]; reflexivity |].
    destruct (r_wallet r) as [[|] | msg].
    + intros [= <- <-]. rewrite lookup_alter.
      case_decide as Hk.
      * subst k. rewrite <- option_fmap_compose.
        rewrite <- (handle_posts_counters (r_posts_wallet r) ss sid).
        destruct (handle_posts sha256_hex (r_posts_wallet r) ss !! sid); reflexivity.
      * apply handle_posts_counters.
    + intros Hrec. rewrite (IH _ _ _ _ Hrec). rewrite !handle_posts_counters. reflexivity.
    + intros Hrec. rewrite (IH _ _ _ _ Hrec). rewrite !handle_posts_counters. reflexivity.
Qed.

Lemma waitForPayment_counters (sid : string) (timeoutMs start : Z) (rounds : list Round)
    (ss ss' : gmap string Session) (confirmed : bool) (k : string) :
  _waitForPayment sha256_hex sid timeoutMs start rounds ss = Some (confirmed, ss') ->
  counters <$> ss' !! k = counters <$> ss !! k.
Proof.
  unfold _waitForPayment.
  destruct (ss !! sid) as [session |]; cbn [mbind option_bind]; [| discriminate].
  destruct (pendingPayment session).
  - apply poll_counters.
  - intros [= <- <-]. reflexivity.
Qed.

End Counters.

Section Runs.

Variable sha256_hex : list Byte.byte -> string.
Variable P : Provider.
Variable sid : string.
Variable firstBatchFree : bool.
Variable gates : N -> Gate.
Variable gend : GenEnd.

(** Every result of [produce] is a run. *)
Lemma produce_run (toks : list string) :
  forall (st st' : Loop) (exit : Exit),
  produce sha256_hex P sid firstBatchFree gates toks gend st = Some (exit, st') ->
  Run sha256_hex P sid firstBatchFree gates gend toks st exit st'.
Proof.
  induction toks as [| tok rest IH]; intros st st' exit; cbn [produce].
  - intros [= <- <-]. constructor.
  - destruct (l_sessions st !! sid) as [s |] eqn:Hs;
      cbn [mbind option_bind]; [| discriminate].
    destruct (closed s) eqn:Hopen.
    { intros [= <- <-]. eapply run_closed; eassumption. }
    destruct (N.leb_spec (tokensPerBatch P) (l_tokenCount st + 1)) as [Hfull | Hmore].
    2: { intros Hrec. eapply run_more; eauto. }
    change (batchIndex (flush_batch (l_tokenCount st + 1) s)) with (batchIndex s + 1).
    destruct (N.leb_spec (maxBatches P) (batchIndex s + 1)) as [Hcap | Hbelow].
    { rewrite <- app_assoc. cbn [app]. intros [= <- <-]. eapply run_cap; eauto. }
    destruct (firstBatchFree && (batchIndex s + 1 =? 1)) eqn:Hfree; cbn [negb].
    { intros Hrec. apply andb_true_iff in Hfree as [Hf H1]. apply N.eqb_eq in H1.
      eapply run_free; eauto. }
    destruct (g_invoice (gates (batchIndex s + 1))) as [inv | msg] eqn:Hinv.
    2: { intros [= <- <-]. eapply run_no_invoice; eauto. }
    destruct (_waitForPayment _ _ _ _ _ _) as [[confirmed ss3] |] eqn:Hwait;
      cbn [mbind option_bind]; [| discriminate].
    destruct (ss3 !! sid) as [s3 |] eqn:Hs3; cbn [mbind option_bind]; [| discriminate].
    rewrite <- !app_assoc. cbn [app].
    destruct confirmed.
    + intros Hrec. eapply run_paid; eauto.
    + intros [= <- <-]. eapply run_unpaid; eauto.
Qed.

Lemma wait_session (ss ss3 : gmap string Session) (s1 s3 : Session) (pp : Pending)
    (timeoutMs start : Z) (rounds : list Round) (confirmed : bool) :
  _waitForPayment sha256_hex sid timeoutMs start rounds
    (<[sid := set_pendingPayment (Some pp) s1]> ss) = Some (confirmed, ss3) ->
  ss3 !! sid = Some s3 -> counters s3 = counters s1.
Proof.
  intros Hw Hs3. apply waitForPayment_counters with (k := sid) in Hw.
  rewrite Hs3, lookup_insert_eq in Hw.
  assert (He : Some (counters s3) = Some (counters s1)) by exact Hw.
  congruence.
Qed.

(** The text written by a run: what was delivered or is still buffered
    when the loop is left is what was there before, followed by the tokens
    that the loop took; and the tokens counted are those taken. *)
Lemma run_text (toks : list string) (st st' : Loop) (exit : Exit) :
  Run sha256_hex P sid firstBatchFree gates gend toks st exit st' ->
  forall s, l_sessions st !! sid = Some s ->
  exists n s', (n <= length toks)%nat /\
    (delivered (l_events st') ++ l_buffer st')%string
    = (delivered (l_events st) ++ (l_buffer st ++ join (take n toks)))%string /\
    l_sessions st' !! sid = Some s' /\
    totalTokens s' + l_tokenCount st'
    = totalTokens s + l_tokenCount st + N.of_nat n /\
    (exit = Finished -> n = length toks).
Proof.
  induction 1 as
    [ st | tok rest st s Hs Hcl | tok rest st s exit st' Hs Hop Hlt _ IH
    | tok rest st s Hs Hop Hfull Hcap s1
    | tok rest st s exit st' Hs Hop Hfull Hbelow Hf H1 s1 _ IH
    | tok rest st s msg Hs Hop Hfull Hbelow Hf Hinv s1
    | tok rest st s inv ss3 s3 exit st' Hs Hop Hfull Hbelow Hf Hinv s1 pp Hwait Hs3 _ IH
    | tok rest st s inv ss3 s3 Hs Hop Hfull Hbelow Hf Hinv s1 pp Hwait Hs3 ];
    intros s0 Hs0; try (rewrite Hs in Hs0; injection Hs0 as <-).
  - exists 0%nat, s0. strs. repeat split; auto; lia.
  - exists 0%nat, s. strs. repeat split; auto; try lia; try discriminate.
  - destruct (IH s Hs) as (n & s' & Hn & Heq & Hs' & Htok & Hfin).
    exists (S n), s'. strs. cbn [l_tokenCount] in Htok.
    repeat split; auto; try lia; try (intros He; rewrite (Hfin He); reflexivity).
  - exists 1%nat, s1. strs. cbn [l_sessions l_tokenCount]. rewrite lookup_insert_eq.
    subst s1. cbn [totalTokens flush_batch].
    repeat split; auto; try lia; try discriminate.
  - destruct (IH s1) as (n & s' & Hn & Heq & Hs' & Htok & Hfin).
    { cbn [l_sessions]. apply lookup_insert_eq. }
    exists (S n), s'. strs. subst s1. cbn [l_tokenCount totalTokens flush_batch] in Htok.
    repeat split; auto; try lia; try (intros He; rewrite (Hfin He); reflexivity).
  - exists 1%nat, s1. strs. cbn [l_sessions l_tokenCount]. rewrite lookup_insert_eq.
    subst s1. cbn [totalTokens flush_batch].
    repeat split; auto; try lia; try discriminate.
  - pose proof (wait_session _ _ _ _ _ _ _ _ _ Hwait Hs3) as Hc.
    injection Hc as Hid Hbi Htt Hts Hcl3.
    destruct (IH (set_totalSats (totalSats s3 + satsPerBatch P) s3))
      as (n & s' & Hn & Heq & Hs' & Htok & Hfin).
    { cbn [l_sessions]. apply lookup_insert_eq. }
    exists (S n), s'. strs. subst s1.
    cbn [l_tokenCount totalTokens flush_batch set_totalSats] in *.
    repeat split; auto; try lia; try (intros He; rewrite (Hfin He); reflexivity).
  - pose proof (wait_session _ _ _ _ _ _ _ _ _ Hwait Hs3) as Hc.
    injection Hc as Hid Hbi Htt Hts Hcl3.
    exists 1%nat, s3. strs. subst s1.
    cbn [l_sessions l_tokenCount totalTokens flush_batch] in *.
    repeat split; auto; try lia; try discriminate.
Qed.

(** The numbers of a run: the session it leaves, and the events it
    wrote. *)
Lemma run_numbers (toks : list string) (st st' : Loop) (exit : Exit) :
  Run sha256_hex P sid firstBatchFree gates gend toks st exit st' ->
  forall s, l_sessions st !! sid = Some s ->
  exists s' new,
    l_sessions st' !! sid = Some s' /\ l_events st' = (l_events st ++ new)%list /\
    closed s' = closed s /\
    content_indices new = from (batchIndex s) (N.to_nat (count is_content new)) /\
    batchIndex s' = batchIndex s + count is_content new /\
    totalSats s' + count is_paused new * satsPerBatch P
    = totalSats s + count is_invoice new * satsPerBatch P /\
    count is_invoice new <= count is_content new /\
    Forall (invoice_ok P firstBatchFree) new /\
    (batchIndex s < maxBatches P ->
     batchIndex s' < maxBatches P \/
     (batchIndex s' = maxBatches P /\ l_buffer st' = EmptyString /\ exit = Broken)).
Proof.
  induction 1 as
    [ st | tok rest st s Hs Hcl | tok rest st s exit st' Hs Hop Hlt _ IH
    | tok rest st s Hs Hop Hfull Hcap s1
    | tok rest st s exit st' Hs Hop Hfull Hbelow Hf H1 s1 _ IH
    | tok rest st s msg Hs Hop Hfull Hbelow Hf Hinv s1
    | tok rest st s inv ss3 s3 exit st' Hs Hop Hfull Hbelow Hf Hinv s1 pp Hwait Hs3 _ IH
    | tok rest st s inv ss3 s3 Hs Hop Hfull Hbelow Hf Hinv s1 pp Hwait Hs3 ];
    intros s0 Hs0; try (rewrite Hs in Hs0; injection Hs0 as <-).
  - exists s0, []. rewrite app_nil_r. counts. cbn.
    repeat split; auto; lia.
  - exists s, []. rewrite app_nil_r. counts. cbn.
    repeat split; auto; lia.
  - apply IH. exact Hs.
  - exists s1, [EvContent (l_buffer st ++ tok)%string (batchIndex s1) (l_tokenCount st + 1);
                EvDone MaxBatches (batchIndex s1) (totalSats s1) (totalTokens s1)].
    cbn [l_sessions l_events l_buffer]. rewrite lookup_insert_eq. counts.
    subst s1. cbn [batchIndex totalSats closed flush_batch].
    repeat split; try reflexivity; try lia.
    + repeat constructor.
    + intros Hlt. right. repeat split; lia.
  - destruct (IH s1) as (s' & new & Hs' & Hev & Hcl & Hidx & Hb & Hsat & Hle & Hok & Hmax).
    { cbn [l_sessions]. apply lookup_insert_eq. }
    cbn [l_events] in Hev. rewrite <- app_assoc in Hev.
    exists s'. eexists. split; [exact Hs' |]. split; [exact Hev |].
    cbn [app]. counts. subst s1.
    cbn [batchIndex totalSats closed flush_batch] in *.
    replace (N.to_nat (1 + count is_content new)) with (S (N.to_nat (count is_content new)))
      by lia.
    rewrite from_S. cbn [content_indices omap list_omap]. fold (content_indices new).
    rewrite Hidx.
    repeat split; try assumption; try lia.
    + constructor; [exact I | exact Hok].
    + intros _. apply Hmax. lia.
  - exists s1. eexists. cbn [l_sessions l_events l_buffer]. rewrite lookup_insert_eq.
    split; [reflexivity |]. split; [reflexivity |]. counts. subst s1.
    cbn [batchIndex totalSats closed flush_batch].
    repeat split; try reflexivity; try lia.
    repeat constructor.
  - pose proof (wait_session _ _ _ _ _ _ _ _ _ Hwait Hs3) as Hc.
    injection Hc as Hid Hbi Htt Hts Hcl3.
    destruct (IH (set_totalSats (totalSats s3 + satsPerBatch P) s3))
      as (s' & new & Hs' & Hev & Hcl & Hidx & Hb & Hsat & Hle & Hok & Hmax).
    { cbn [l_sessions]. apply lookup_insert_eq. }
    cbn [l_events] in Hev. rewrite <- app_assoc in Hev.
    exists s'. eexists. split; [exact Hs' |]. split; [exact Hev |].
    cbn [app]. counts. subst s1.
    cbn [batchIndex totalSats closed flush_batch set_totalSats] in *.
    replace (N.to_nat (1 + (0 + count is_content new)))
      with (S (N.to_nat (count is_content new))) by lia.
    rewrite from_S. cbn [content_indices omap list_omap]. fold (content_indices new).
    rewrite Hbi in Hidx. rewrite Hidx.
    repeat split; try lia; try congruence.
    + constructor; [exact I |]. constructor; [| exact Hok].
      cbn. split; [reflexivity |]. split; [lia |]. intros Hfree.
      rewrite Hfree in Hf. cbn in Hf. apply N.eqb_neq in Hf. lia.
    + intros _. rewrite Hbi in Hmax. apply Hmax. lia.
  - pose proof (wait_session _ _ _ _ _ _ _ _ _ Hwait Hs3) as Hc.
    injection Hc as Hid Hbi Htt Hts Hcl3.
    exists s3. eexists. cbn [l_sessions l_events l_buffer].
    split; [exact Hs3 |]. split; [reflexivity |]. counts. subst s1.
    cbn [batchIndex totalSats closed flush_batch] in *.
    repeat split; try reflexivity; try lia; try congruence.
    constructor; [exact I |]. constructor; [| repeat constructor].
      cbn. split; [reflexivity |]. split; [lia |]. intros Hfree.
      rewrite Hfree in Hf. cbn in Hf. apply N.eqb_neq in Hf. lia.
Qed.

(** The events of a run are [content] and [invoice] events, followed, when
    the loop is left at the cap or at an unpaid gate, by one [done] event of
    the cap or one [paused] event; the buffer is then empty. *)
Lemma run_shape (toks : list string) (st st' : Loop) (exit : Exit) :
  Run sha256_hex P sid firstBatchFree gates gend toks st exit st' ->
  exists body ending,
    l_events st' = (l_events st ++ body ++ ending)%list /\
    Forall (fun e => in_loop e = true) body /\
    ((ending = [] /\
      (exit = Broken -> exists s, l_sessions st' !! sid = Some s /\ closed s = true)) \/
     (exit = Broken /\ l_buffer st' = EmptyString /\
      exists e, ending = [e] /\ is_paused e || is_max_batches e = true)).
Proof.
  induction 1 as
    [ st | tok rest st s Hs Hcl | tok rest st s exit st' Hs Hop Hlt _ IH
    | tok rest st s Hs Hop Hfull Hcap s1
    | tok rest st s exit st' Hs Hop Hfull Hbelow Hf H1 s1 _ IH
    | tok rest st s msg Hs Hop Hfull Hbelow Hf Hinv s1
    | tok rest st s inv ss3 s3 exit st' Hs Hop Hfull Hbelow Hf Hinv s1 pp Hwait Hs3 _ IH
    | tok rest st s inv ss3 s3 Hs Hop Hfull Hbelow Hf Hinv s1 pp Hwait Hs3 ].
  - exists [], []. rewrite app_nil_r. split; [reflexivity |]. split; [constructor |].
    left. split; [reflexivity |]. destruct gend; discriminate.
  - exists [], []. rewrite app_nil_r. split; [reflexivity |]. split; [constructor |].
    left. eauto.
  - exact IH.
  - eexists [_], [_]. cbn [l_events l_buffer app]. split; [reflexivity |].
    split; [repeat constructor |]. right. eauto.
  - destruct IH as (body & ending & Hev & Hbody & Hend). cbn [l_events] in Hev.
    rewrite <- app_assoc in Hev. eexists (_ :: body), ending.
    split; [exact Hev |]. split; [constructor; [reflexivity | exact Hbody] | exact Hend].
  - eexists [_], []. cbn [l_events app]. split; [reflexivity |].
    split; [repeat constructor |]. left. split; [reflexivity | discriminate].
  - destruct IH as (body & ending & Hev & Hbody & Hend). cbn [l_events] in Hev.
    rewrite <- app_assoc in Hev. eexists (_ :: _ :: body), ending.
    split; [exact Hev |].
    split; [constructor; [reflexivity |]; constructor; [reflexivity | exact Hbody]
           | exact Hend].
  - eexists [_; _], [_]. cbn [l_events l_buffer app]. split; [reflexivity |].
    split; [repeat constructor |]. right. eauto.
Qed.

(** A [paused] event comes after an [invoice] event of its own. *)
Lemma run_paused (toks : list string) (st st' : Loop) (exit : Exit) :
  Run sha256_hex P sid firstBatchFree gates gend toks st exit st' ->
  exists new, l_events st' = (l_events st ++ new)%list /\
              count is_paused new <= count is_invoice new.
Proof.
  induction 1 as
    [ st | tok rest st s Hs Hcl | tok rest st s exit st' Hs Hop Hlt _ IH
    | tok rest st s Hs Hop Hfull Hcap s1
    | tok rest st s exit st' Hs Hop Hfull Hbelow Hf H1 s1 _ IH
    | tok rest st s msg Hs Hop Hfull Hbelow Hf Hinv s1
    | tok rest st s inv ss3 s3 exit st' Hs Hop Hfull Hbelow Hf Hinv s1 pp Hwait Hs3 _ IH
    | tok rest st s inv ss3 s3 Hs Hop Hfull Hbelow Hf Hinv s1 pp Hwait Hs3 ].
  - exists []. rewrite app_nil_r. split; [reflexivity | reflexivity].
  - exists []. rewrite app_nil_r. split; [reflexivity | reflexivity].
  - exact IH.
  - eexists. cbn [l_events]. split; [reflexivity |]. counts. lia.
  - destruct IH as (new & Hev & Hle). cbn [l_events] in Hev.
    rewrite <- app_assoc in Hev. eexists. split; [exact Hev |].
    cbn [app]. counts. lia.
  - eexists. cbn [l_events]. split; [reflexivity |]. counts. lia.
  - destruct IH as (new & Hev & Hle). cbn [l_events] in Hev.
    rewrite <- app_assoc in Hev. eexists. split; [exact Hev |].
    cbn [app]. counts. lia.
  - eexists. cbn [l_events]. split; [reflexivity |]. counts. lia.
Qed.

(** What follows the loop when the session is open. *)
Lemma after_loop_open (exit : Exit) (st : Loop) (s : Session) :
  l_sessions st !! sid = Some s -> closed s = false ->
  after_loop sid exit st
  = Some
      match exit with
      | Thrown msg =>
          mkLoop (l_sessions st) (l_events st ++ [EvError msg])%list
            (l_buffer st) (l_tokenCount st)
      | _ =>
          if 0 <? N.of_nat (String.length (l_buffer st)) then
            mkLoop (<[sid := flush_batch (l_tokenCount st) s]> (l_sessions st))
              (l_events st ++
               [EvContent (l_buffer st) (batchIndex s + 1) (l_tokenCount st);
                EvDone Complete (batchIndex s + 1) (totalSats s)
                  (totalTokens s + l_tokenCount st)])%list
              (l_buffer st) (l_tokenCount st)
          else
            mkLoop (l_sessions st)
              (l_events st ++
               [EvDone Complete (batchIndex s) (totalSats s) (totalTokens s)])%list
              (l_buffer st) (l_tokenCount st)
      end.
Proof.
  intros Hs Hop. unfold after_loop.
  destruct exit as [| | msg]; [| | reflexivity];
    rewrite Hs; cbn [mbind option_bind]; rewrite Hop; cbn [negb andb];
    rewrite andb_true_r;
    (destruct (0 <? N.of_nat (String.length (l_buffer st)));
     cbn [l_sessions l_events l_buffer l_tokenCount];
     rewrite ?lookup_insert_eq, ?Hs; cbn [mbind option_bind closed flush_batch];
     rewrite ?Hop; cbn [negb]; rewrite <- ?app_assoc; reflexivity).
Qed.

End Runs.

(** ** Whole responses *)

Lemma buffer_empty (b : string) :
  (0 <? N.of_nat (String.length b)) = false -> b = EmptyString.
Proof. destruct b; [reflexivity |]. cbn. discriminate. Qed.

(** [handleRequest] is a run of the loop from the new session, followed by
    the code after the loop with the session still open. *)
Lemma handleRequest_run (sha256_hex : list Byte.byte -> string) (P : Provider)
    (sid : string) (firstBatchFree : option bool) (gates : N -> Gate)
    (toks : list string) (gend : GenEnd) (ss ss' : gmap string Session)
    (evs : list SSE) :
  handleRequest sha256_hex P sid firstBatchFree gates toks gend ss = Some (ss', evs) ->
  exists exit st1 s1 st,
    Run sha256_hex P sid (negb (bool_decide (firstBatchFree = Some false))) gates gend
      toks (mkLoop (<[sid := mkSession sid 0 0 0 None ∅ false]> ss) [EvSession sid]
              EmptyString 0) exit st1 /\
    l_sessions st1 !! sid = Some s1 /\ closed s1 = false /\
    after_loop sid exit st1 = Some st /\
    ss' = alter (set_closed true) sid (l_sessions st) /\ evs = l_events st.
Proof.
  unfold handleRequest. intros Hrun.
  destruct (produce _ _ _ _ _ _ _ _) as [[exit st1] |] eqn:Hprod; [| discriminate].
  cbn [mbind option_bind] in Hrun.
  apply produce_run in Hprod.
  destruct (run_numbers _ _ _ _ _ _ _ _ _ _ Hprod (mkSession sid 0 0 0 None ∅ false))
    as (s1 & new & Hs1 & _ & Hcl & _).
  { cbn [l_sessions]. apply lookup_insert_eq. }
  destruct (after_loop sid exit st1) as [st |] eqn:Hafter; [| discriminate].
  injection Hrun as <- <-. exists exit, st1, s1, st. auto 10.
Qed.

(** [respond] is a run of the loop from the new session, followed by the
    code after the loop with the session still open. *)
Lemma respond_run (sha256_hex : list Byte.byte -> string) (P : Provider)
    (sid : string) (firstBatchFree : option bool) (gates : N -> Gate)
    (toks : list string) (gend : GenEnd) (on_return : option string)
    (ss ss' : gmap string Session) (evs : list SSE) :
  respond sha256_hex P sid firstBatchFree gates toks gend on_return ss
  = Some (ss', evs) ->
  exists exit st1 s1 st,
    Run sha256_hex P sid (negb (bool_decide (firstBatchFree = Some false))) gates gend
      toks (mkLoop (<[sid := mkSession sid 0 0 0 None ∅ false]> ss) [EvSession sid]
              EmptyString 0) exit st1 /\
    l_sessions st1 !! sid = Some s1 /\ closed s1 = false /\
    after_loop sid (leave on_return exit) st1 = Some st /\
    ss' = alter (set_closed true) sid (l_sessions st) /\ evs = l_events st.
Proof.
  unfold respond. intros Hrun.
  destruct (produce _ _ _ _ _ _ _ _) as [[exit st1] |] eqn:Hprod; [| discriminate].
  cbn [mbind option_bind] in Hrun.
  apply produce_run in Hprod.
  destruct (run_numbers _ _ _ _ _ _ _ _ _ _ Hprod (mkSession sid 0 0 0 None ∅ false))
    as (s1 & new & Hs1 & _ & Hcl & _).
  { cbn [l_sessions]. apply lookup_insert_eq. }
  destruct (after_loop sid (leave on_return exit) st1) as [st |] eqn:Hafter;
    [| discriminate].
  injection Hrun as <- <-. exists exit, st1, s1, st. auto 10.
Qed.

(** A generator whose [return()] does not throw: [respond] is
    [handleRequest]. *)
Lemma respond_quiet (sha256_hex : list Byte.byte -> string) (P : Provider)
    (sid : string) (firstBatchFree : option bool) (gates : N -> Gate)
    (toks : list string) (gend : GenEnd) (ss : gmap string Session) :
  respond sha256_hex P sid firstBatchFree gates toks gend None ss
  = handleRequest sha256_hex P sid firstBatchFree gates toks gend ss.
Proof.
  unfold respond, handleRequest.
  destruct (produce _ _ _ _ _ _ _ _) as [[[| | msg] st1] |]; reflexivity.
Qed.

(** X15. Every response has the same shape, whether or not the
    [return()] of the generator, which leaving the loop calls, throws: the
    [session] event, then [content] and [invoice] events only, then the
    end, which is one of: an [error] event; a [done] event with reason
    [complete]; a [paused] event or a [done] event with reason
    [max_batches], followed by a [done] event with reason [complete] when
    [return()] returns and by an [error] event when it throws. An [error]
    event never comes with a [done] event of reason [complete], and
    nothing is written after the end. *)
Theorem response_shape (sha256_hex : list Byte.byte -> string) (P : Provider)
    (sid : string) (firstBatchFree : option bool) (gates : N -> Gate)
    (toks : list string) (gend : GenEnd) (on_return : option string)
    (ss ss' : gmap string Session) (evs : list SSE) :
  respond sha256_hex P sid firstBatchFree gates toks gend on_return ss
  = Some (ss', evs) ->
  exists body ending,
    evs = EvSession sid :: (body ++ ending)%list /\
    Forall (fun e => in_loop e = true) body /\
    ((exists msg, ending = [EvError msg]) \/
     (exists b s t, ending = [EvDone Complete b s t]) \/
     (exists e, is_paused e || is_max_batches e = true /\
        match on_return with
        | None => exists b s t, ending = [e; EvDone Complete b s t]
        | Some msg => ending = [e; EvError msg]
        end)).
Proof.
  intros Hrun.
  destruct (respond_run _ _ _ _ _ _ _ _ _ _ _ Hrun)
    as (exit & st1 & s1 & st & Hr & Hs1 & Hop & Hafter & _ & ->).
  clear Hrun.
  rewrite (after_loop_open sid (leave on_return exit) st1 s1 Hs1 Hop) in Hafter.
  injection Hafter as <-.
  destruct (run_shape _ _ _ _ _ _ _ _ _ _ Hr)
    as (body & ending & Hev & Hbody & [[-> Hbr] | (-> & Hbuf & e & -> & He)]).
  - cbn [l_events] in Hev. rewrite app_nil_r in Hev.
    destruct exit as [| | msg]; cbn [leave].
    + destruct (0 <? N.of_nat (String.length (l_buffer st1))); cbn [l_events];
        rewrite Hev.
      * exists (body ++ [EvContent (l_buffer st1) (batchIndex s1 + 1) (l_tokenCount st1)])%list.
        eexists. rewrite <- !app_assoc. split; [reflexivity |].
        split; [apply Forall_app; split; [exact Hbody | repeat constructor] |].
        right; left. eauto.
      * exists body. eexists. split; [reflexivity |]. split; [exact Hbody |].
        right; left. eauto.
    + destruct (Hbr eq_refl) as (s & Hs & Hcl). congruence.
    + cbn [l_events]. rewrite Hev. exists body. eexists.
      split; [reflexivity |]. split; [exact Hbody |]. left. eauto.
  - destruct on_return as [msg |]; cbn [leave].
    + cbn [l_events]. rewrite Hev. exists body. eexists.
      rewrite <- !app_assoc. split; [reflexivity |].
      split; [exact Hbody |]. right; right. exists e. split; [exact He | reflexivity].
    + rewrite Hbuf. change (0 <? N.of_nat (String.length EmptyString)) with false.
      cbv iota. cbn [l_events]. rewrite Hev.
      exists body. eexists. rewrite <- !app_assoc. split; [reflexivity |].
      split; [exact Hbody |]. right; right. exists e. split; [exact He |]. eauto.
Qed.

(** X16. The text of the [content] events, put together, is a prefix of
    what the generator produced: no token is lost, repeated or reordered
    on the way. Without an [error] event nothing that was taken from the
    generator is withheld, and when the response has no [paused],
    [max_batches] or [error] event, every token was delivered. *)
Theorem stream_delivers_prefix (sha256_hex : list Byte.byte -> string) (P : Provider)
    (sid : string) (firstBatchFree : option bool) (gates : N -> Gate)
    (toks : list string) (gend : GenEnd) (ss ss' : gmap string Session)
    (evs : list SSE) :
  handleRequest sha256_hex P sid firstBatchFree gates toks gend ss = Some (ss', evs) ->
  exists n lost, (n <= length toks)%nat /\
    (delivered evs ++ lost)%string = join (take n toks) /\
    (count is_error evs = 0 -> lost = EmptyString) /\
    (Forall (fun e => cut e = false) evs -> n = length toks).
Proof.
  intros Hrun.
  destruct (handleRequest_run _ _ _ _ _ _ _ _ _ _ Hrun)
    as (exit & st1 & s1 & st & Hr & Hs1 & Hop & Hafter & _ & ->).
  clear Hrun. rewrite (after_loop_open sid exit st1 s1 Hs1 Hop) in Hafter. injection Hafter as <-.
  destruct (run_text _ _ _ _ _ _ _ _ _ _ Hr (mkSession sid 0 0 0 None ∅ false))
    as (n & s' & Hn & Heq & _ & _ & Hfin).
  { cbn [l_sessions]. apply lookup_insert_eq. }
  cbn [l_events l_buffer] in Heq.
  rewrite (delivered_other (EvSession sid) []) in Heq by reflexivity. strs.
  destruct (run_shape _ _ _ _ _ _ _ _ _ _ Hr)
    as (body & ending & Hev & Hbody & Hend).
  exists n. destruct exit as [| | msg].
  - exists EmptyString. split; [exact Hn |].
    destruct (0 <? N.of_nat (String.length (l_buffer st1))) eqn:Hb; strs.
    + split; [exact Heq |]. split; [reflexivity |]. intros _. apply Hfin. reflexivity.
    + apply buffer_empty in Hb. rewrite Hb in Heq. strs.
      split; [exact Heq |]. split; [reflexivity |]. intros _. apply Hfin. reflexivity.
  - destruct Hend as [[-> Hbr] | (_ & Hbuf & e & -> & He)].
    { destruct (Hbr eq_refl) as (s & Hs & Hcl). congruence. }
    exists EmptyString. split; [exact Hn |]. rewrite Hbuf in *.
    change (0 <? N.of_nat (String.length EmptyString)) with false. cbv iota. strs.
    split; [exact Heq |]. split; [reflexivity |].
    intros Hcut. exfalso. rewrite Hev in Hcut.
    apply Forall_app in Hcut as [Hcut _]. apply Forall_app in Hcut as [_ Hcut].
    apply Forall_app in Hcut as [_ Hcut]. apply Forall_inv in Hcut.
    unfold cut in Hcut. rewrite He in Hcut. discriminate.
  - exists (l_buffer st1). split; [exact Hn |]. strs.
    split; [exact Heq |]. split.
    + rewrite count_app. counts. lia.
    + intros Hcut. apply Forall_app in Hcut as [_ Hcut]. apply Forall_inv in Hcut.
      discriminate.
Qed.

(** X17. The [content] events are numbered 1, 2, 3, ... in the order they
    are written, and there are never more of them than [maxBatches]. The
    cap set by [createStreamProvider] is at least 1 (100 when the option
    is absent or 0). *)
Theorem batches_numbered_and_capped (sha256_hex : list Byte.byte -> string)
    (P : Provider) (sid : string) (firstBatchFree : option bool) (gates : N -> Gate)
    (toks : list string) (gend : GenEnd) (ss ss' : gmap string Session)
    (evs : list SSE) :
  handleRequest sha256_hex P sid firstBatchFree gates toks gend ss = Some (ss', evs) ->
  0 < maxBatches P ->
  content_indices evs = from 0 (N.to_nat (count is_content evs)) /\
  count is_content evs <= maxBatches P /\
  forall opts, 0 < maxBatches (createStreamProvider opts).
Proof.
  intros Hrun Hmax. split; [| split].
  3: { intros opts. unfold createStreamProvider, or_N. cbn.
       destruct (o_maxBatches opts) as [k |]; [| lia].
       destruct (N.eqb_spec k 0); lia. }
  all: destruct (handleRequest_run _ _ _ _ _ _ _ _ _ _ Hrun)
         as (exit & st1 & s1 & st & Hr & Hs1 & Hop & Hafter & _ & ->);
       clear Hrun; rewrite (after_loop_open sid exit st1 s1 Hs1 Hop) in Hafter;
       injection Hafter as <-;
       destruct (run_numbers _ _ _ _ _ _ _ _ _ _ Hr (mkSession sid 0 0 0 None ∅ false))
         as (s' & new & Hs' & Hev & _ & Hidx & Hb & _ & _ & _ & Hcap);
       [ cbn [l_sessions]; apply lookup_insert_eq | ];
       rewrite Hs1 in Hs'; injection Hs' as <-;
       cbn [l_events batchIndex] in *; specialize (Hcap Hmax);
       rewrite N.add_0_l in Hb.
  - assert (Hflush : content_indices
                       (l_events st1 ++
                        [EvContent (l_buffer st1) (batchIndex s1 + 1) (l_tokenCount st1);
                         EvDone Complete (batchIndex s1 + 1) (totalSats s1)
                           (totalTokens s1 + l_tokenCount st1)])
                     = from 0 (N.to_nat (count is_content
                         (l_events st1 ++
                          [EvContent (l_buffer st1) (batchIndex s1 + 1) (l_tokenCount st1);
                           EvDone Complete (batchIndex s1 + 1) (totalSats s1)
                             (totalTokens s1 + l_tokenCount st1)])))).
    { rewrite Hev, !content_indices_app, !count_app. counts.
      cbn [content_indices omap list_omap app]. rewrite Hidx.
      match goal with
      | |- _ = from 0 (N.to_nat ?x) =>
          replace (N.to_nat x) with (S (N.to_nat (count is_content new))) by lia
      end.
      rewrite from_snoc. do 2 f_equal. lia. }
    assert (Hplain : forall e, is_content e = false ->
              content_indices (l_events st1 ++ [e])
              = from 0 (N.to_nat (count is_content (l_events st1 ++ [e])))).
    { intros e He. rewrite Hev, !content_indices_app, !count_app. counts. rewrite He.
      replace (content_indices [e]) with (@nil N) by (destruct e; try discriminate; reflexivity).
      cbn [content_indices omap list_omap app]. rewrite app_nil_r, Hidx.
      f_equal. lia. }
    destruct exit as [| | msg];
      [ destruct (0 <? N.of_nat (String.length (l_buffer st1)))
      | destruct (0 <? N.of_nat (String.length (l_buffer st1))) | ];
      cbn [l_events]; first [exact Hflush | apply Hplain; reflexivity].
  - destruct exit as [| | msg];
      [ destruct (0 <? N.of_nat (String.length (l_buffer st1))) eqn:Hbuf
      | destruct (0 <? N.of_nat (String.length (l_buffer st1))) eqn:Hbuf | ];
      cbn [l_events]; rewrite Hev, !count_app; counts;
      try (destruct Hcap as [Hlt | (Heq & Hempty & _)];
           [| try (rewrite Hempty in Hbuf; discriminate)]); lia.
Qed.

(** X18. The money of a response adds up: the session is charged
    [satsPerBatch] for every [invoice] event but the one that was followed
    by [paused], every [invoice] event asks for exactly [satsPerBatch] and
    follows a batch of content (for batch 2 at the earliest, batch 3 when
    the first batch is free), and the [done] event with reason [complete]
    reports the batch count and the sats of the session as it is left,
    closed. *)
Theorem sats_accounting (sha256_hex : list Byte.byte -> string)
    (P : Provider) (sid : string) (firstBatchFree : option bool) (gates : N -> Gate)
    (toks : list string) (gend : GenEnd) (ss ss' : gmap string Session)
    (evs : list SSE) :
  handleRequest sha256_hex P sid firstBatchFree gates toks gend ss = Some (ss', evs) ->
  exists s, ss' !! sid = Some s /\ closed s = true /\
    totalSats s + count is_paused evs * satsPerBatch P
    = count is_invoice evs * satsPerBatch P /\
    count is_paused evs <= count is_invoice evs /\
    count is_invoice evs <= count is_content evs /\
    batchIndex s = count is_content evs /\
    Forall (invoice_ok P (negb (bool_decide (firstBatchFree = Some false)))) evs /\
    Forall (done_reports s) evs.
Proof.
  intros Hrun.
  destruct (handleRequest_run _ _ _ _ _ _ _ _ _ _ Hrun)
    as (exit & st1 & s1 & st & Hr & Hs1 & Hop & Hafter & -> & ->).
  rewrite (after_loop_open sid exit st1 s1 Hs1 Hop) in Hafter. injection Hafter as <-.
  destruct (run_numbers _ _ _ _ _ _ _ _ _ _ Hr (mkSession sid 0 0 0 None ∅ false))
    as (s' & new & Hs' & Hev & _ & _ & Hb & Hsat & Hle & Hok & _).
  { cbn [l_sessions]. apply lookup_insert_eq. }
  rewrite Hs1 in Hs'. injection Hs' as <-.
  cbn [l_events batchIndex totalSats] in *. rewrite N.add_0_l in Hb, Hsat.
  assert (Hpl : count is_paused new <= count is_invoice new).
  { destruct (run_paused _ _ _ _ _ _ _ _ _ _ Hr) as (new2 & Hev2 & Hle2).
    cbn [l_events] in Hev2. rewrite Hev in Hev2. apply app_inv_head in Hev2.
    subst new2. exact Hle2. }
  assert (Hmid : forall tail s,
            count is_paused tail = 0 -> count is_invoice tail = 0 ->
            totalSats s = totalSats s1 ->
            batchIndex s = batchIndex s1 + count is_content tail ->
            Forall (invoice_ok P (negb (bool_decide (firstBatchFree = Some false)))) tail ->
            Forall (done_reports s) tail ->
            totalSats s + count is_paused (([EvSession sid] ++ new) ++ tail)
                          * satsPerBatch P
            = count is_invoice (([EvSession sid] ++ new) ++ tail) * satsPerBatch P /\
            count is_paused (([EvSession sid] ++ new) ++ tail)
            <= count is_invoice (([EvSession sid] ++ new) ++ tail) /\
            count is_invoice (([EvSession sid] ++ new) ++ tail)
            <= count is_content (([EvSession sid] ++ new) ++ tail) /\
            batchIndex s = count is_content (([EvSession sid] ++ new) ++ tail) /\
            Forall (invoice_ok P (negb (bool_decide (firstBatchFree = Some false))))
              (([EvSession sid] ++ new) ++ tail) /\
            Forall (done_reports s) (([EvSession sid] ++ new) ++ tail)).
  { intros tail s Hp0 Hi0 Hts Hbi Hok2 Hdone. rewrite !count_app, Hp0, Hi0. counts.
    repeat split; try lia.
    - apply Forall_app; split; [| exact Hok2].
      apply Forall_app; split; [repeat constructor | exact Hok].
    - apply Forall_app; split; [| exact Hdone].
      apply Forall_app; split; [repeat constructor |].
      destruct (run_shape _ _ _ _ _ _ _ _ _ _ Hr)
        as (body & ending & Hev2 & Hbody & Hend).
      cbn [l_events] in Hev2. rewrite Hev in Hev2. apply app_inv_head in Hev2.
      subst new. apply Forall_app; split.
      + eapply Forall_impl; [exact Hbody |]. intros e He. cbn in He.
        destruct e; try discriminate; exact I.
      + destruct Hend as [[-> _] | (_ & _ & e & -> & He)]; [constructor |].
        constructor; [| constructor].
        destruct e as [| | | | [] | ]; try discriminate; exact I. }
  rewrite lookup_alter_eq.
  destruct exit as [| | msg];
    [ destruct (0 <? N.of_nat (String.length (l_buffer st1)))
    | destruct (0 <? N.of_nat (String.length (l_buffer st1))) | ];
    cbn [l_sessions l_events]; rewrite ?lookup_insert_eq, ?Hs1, Hev; cbn [fmap option_fmap option_map];
    eexists; (split; [reflexivity |]); (split; [reflexivity |]);
    apply Hmid; counts; cbn [set_closed totalSats batchIndex totalTokens flush_batch];
    try reflexivity; try lia; repeat constructor.
Qed.

(** ** The wait for a payment *)

Section Wait.

Variable sha256_hex : list Byte.byte -> string.

Lemma handlePayment_paid (body : Body) (ss : gmap string Session) (k : string)
    (s : Session) (b : N) :
  ss !! k = Some s -> b ∈ paid s ->
  exists s', (_handlePayment sha256_hex body ss).2 !! k = Some s' /\ b ∈ paid s'.
Proof.
  intros Hk Hb. unfold _handlePayment.
  repeat case_match; cbn [snd]; eauto.
  subst. destruct (decide (s0 = k)) as [-> | Hne].
  - rewrite lookup_insert_eq. eexists. split; [reflexivity |].
    cbn. apply elem_of_union_l. congruence.
  - rewrite lookup_insert_ne by assumption. eauto.
Qed.

Lemma handle_posts_paid (posts : list Body) :
  forall (ss : gmap string Session) (k : string) (s : Session) (b : N),
  ss !! k = Some s -> b ∈ paid s ->
  exists s', handle_posts sha256_hex posts ss !! k = Some s' /\ b ∈ paid s'.
Proof.
  induction posts as [| p posts IH]; intros ss k s b Hk Hb; cbn [handle_posts fold_left].
  - eauto.
  - destruct (handlePayment_paid p ss k s b Hk Hb) as (s1 & Hk1 & Hb1).
    exact (IH _ k s1 b Hk1 Hb1).
Qed.

(** The loop of [_waitForPayment] answers [true] only with the batch
    recorded as paid, and [false] only when a reading of the clock is past
    the timeout. *)
Lemma poll_outcome (sid : string) (batchIdx : N) (start timeoutMs : Z)
    (rounds : list Round) :
  forall (ss ss' : gmap string Session) (confirmed : bool),
  poll sha256_hex sid batchIdx start timeoutMs rounds ss = Some (confirmed, ss') ->
  if confirmed
  then exists s', ss' !! sid = Some s' /\ batchIdx ∈ paid s'
  else exists r, r ∈ rounds /\ (timeoutMs <= r_now r - start)%Z.
Proof.
  induction rounds as [| r rounds IH]; intros ss ss' confirmed; cbn [poll].
  - discriminate.
  - destruct (Z.ltb_spec (r_now r - start) timeoutMs) as [Hin | Hout]; cbn [negb].
    2: { intros [= <- <-]. exists r. split; [left | exact Hout]. }
    destruct (ss !! sid) as [session |] eqn:Hs; cbn [mbind option_bind];
      [| discriminate].
    case_bool_decide as Hpaid; [intros [= <- <-]; eauto |].
    assert (Hsome : is_Some (handle_posts sha256_hex (r_posts_wallet r) ss !! sid)).
    { pose proof (handle_posts_closed sha256_hex (r_posts_wallet r) ss sid) as Hc.
      rewrite Hs in Hc. destruct (handle_posts _ _ _ !! sid); [eauto | discriminate]. }
    destruct Hsome as [s1 Hs1].
    assert (Hrest : forall ss1, poll sha256_hex sid batchIdx start timeoutMs rounds ss1
                                = Some (confirmed, ss') ->
              if confirmed
              then exists s', ss' !! sid = Some s' /\ batchIdx ∈ paid s'
              else exists r0, r0 ∈ r :: rounds /\ (timeoutMs <= r_now r0 - start)%Z).
    { intros ss1 Hrec. specialize (IH _ _ _ Hrec). destruct confirmed; [exact IH |].
      destruct IH as (r0 & Hr0 & Ht). exists r0. split; [right; exact Hr0 | exact Ht]. }
    destruct (r_wallet r) as [[|] | msg]; [| apply Hrest | apply Hrest].
    intros [= <- <-]. rewrite lookup_alter_eq, Hs1. eexists. split; [reflexivity |].
    cbn. apply elem_of_union_r, elem_of_singleton. reflexivity.
Qed.

End Wait.

(** X19. [_waitForPayment] answers at once, with [true], when nothing is
    pending. With a payment pending it answers [true] only when the batch
    is recorded in [paid] (by an accepted proof or by the wallet's
    confirmation), and [false] only when a reading of the clock is at or
    past the timeout. *)
Theorem wait_outcome (sha256_hex : list Byte.byte -> string) (sid : string)
    (timeoutMs start : Z) (rounds : list Round) (ss ss' : gmap string Session)
    (s : Session) (confirmed : bool) :
  ss !! sid = Some s ->
  _waitForPayment sha256_hex sid timeoutMs start rounds ss = Some (confirmed, ss') ->
  match pendingPayment s with
  | None => confirmed = true /\ ss' = ss
  | Some pp =>
      if confirmed
      then exists s', ss' !! sid = Some s' /\ p_batchIndex pp ∈ paid s'
      else exists r, r ∈ rounds /\ (timeoutMs <= r_now r - start)%Z
  end.
Proof.
  intros Hs. unfold _waitForPayment. rewrite Hs. cbn [mbind option_bind].
  destruct (pendingPayment s) as [pp |].
  - apply poll_outcome.
  - intros [= <- <-]. auto.
Qed.

(** X20. A valid proof unlocks the wait: when the proof of the pending
    payment is POSTed while the wallet is being polled, and the wallet
    itself does not confirm, the next turn of the loop (if still in time)
    finds the batch paid and answers [true]; the session then has the
    batch in [paid] and nothing pending. *)
Theorem proof_post_unlocks_wait (sha256_hex : list Byte.byte -> string) (sid pre : string)
    (timeoutMs start : Z) (r1 r2 : Round) (rest : list Round)
    (ss : gmap string Session) (s : Session) (pp : Pending) :
  ss !! sid = Some s -> pendingPayment s = Some pp ->
  p_paymentHash pp = Some (sha256_hex (hex_decode pre)) -> pre <> EmptyString ->
  p_batchIndex pp ∉ paid s ->
  (r_now r1 - start < timeoutMs)%Z -> (r_now r2 - start < timeoutMs)%Z ->
  r_wallet r1 <> Resolved true ->
  r_posts_wallet r1 = [Json (Some sid) (Some pre)] -> r_posts_sleep r1 = [] ->
  _waitForPayment sha256_hex sid timeoutMs start (r1 :: r2 :: rest) ss
  = Some (true, <[sid := mark_paid (p_batchIndex pp) s]> ss) /\
  pendingPayment (mark_paid (p_batchIndex pp) s) = None.
Proof.
  intros Hs Hpp Hhash Hpre Hnot H1 H2 Hw Hposts Hsleep.
  split; [| reflexivity].
  unfold _waitForPayment. rewrite Hs. cbn [mbind option_bind]. rewrite Hpp.
  cbn [poll]. apply Z.ltb_lt in H1, H2. rewrite H1. cbn [negb].
  rewrite Hs. cbn [mbind option_bind].
  rewrite bool_decide_eq_false_2 by assumption.
  rewrite Hposts, Hsleep. cbn [handle_posts fold_left].
  rewrite (matching_proof_unlocks sha256_hex _ ss sid pre s pp)
    by (unfold matches; auto).
  cbn [snd].
  assert (Hnext : poll sha256_hex sid (p_batchIndex pp) start timeoutMs (r2 :: rest)
                    (<[sid := mark_paid (p_batchIndex pp) s]> ss)
                  = Some (true, <[sid := mark_paid (p_batchIndex pp) s]> ss)).
  { cbn [poll]. rewrite H2. cbn [negb]. rewrite lookup_insert_eq.
    cbn [mbind option_bind]. rewrite bool_decide_eq_true_2; [reflexivity |].
    cbn. apply elem_of_union_r, elem_of_singleton. reflexivity. }
  destruct (r_wallet r1) as [[|] | msg]; [congruence | exact Hnext | exact Hnext].
Qed.

(** ** The theorems at sample inputs *)

Lemma response_shape_witness :
  exists ss' evs body ending,
    respond sample_sha two_token_batches "s1" None (unpaid_gate sample_sha)
      ["a"; "b"; "c"; "d"; "e"] GenReturn (Some "cleanup failed") ∅ = Some (ss', evs) /\
    evs = EvSession "s1" :: (body ++ ending)%list /\
    Forall (fun e => in_loop e = true) body /\
    last evs = Some (EvError "cleanup failed").
Proof.
  do 2 eexists.
  edestruct (response_shape sample_sha two_token_batches "s1" None (unpaid_gate sample_sha)
               ["a"; "b"; "c"; "d"; "e"] GenReturn (Some "cleanup failed") ∅)
    as (body & ending & Hev & Hbody & _).
  - vm_compute; reflexivity.
  - exists body, ending. split; [vm_compute; reflexivity |].
    split; [exact Hev |]. split; [exact Hbody | vm_compute; reflexivity].
Defined.

Lemma stream_delivers_prefix_witness :
  exists ss' evs,
    handleRequest sample_sha two_token_batches "s1" None paid_gate
      ["a"; "b"; "c"; "d"; "e"] GenReturn ∅ = Some (ss', evs) /\
    Forall (fun e => cut e = false) evs /\
    exists n lost, (delivered evs ++ lost)%string = join (take n ["a"; "b"; "c"; "d"; "e"]).
Proof.
  do 2 eexists. split; [vm_compute; reflexivity |].
  split; [repeat constructor |].
  edestruct (stream_delivers_prefix sample_sha two_token_batches "s1" None paid_gate
               ["a"; "b"; "c"; "d"; "e"] GenReturn ∅) as (n & lost & _ & Heq & _).
  - vm_compute; reflexivity.
  - exists n, lost. exact Heq.
Defined.

Lemma batches_numbered_and_capped_witness :
  exists ss' evs,
    handleRequest sample_sha two_token_batches "s1" None paid_gate
      ["a"; "b"; "c"; "d"; "e"] GenReturn ∅ = Some (ss', evs) /\
    0 < maxBatches two_token_batches /\
    content_indices evs = from 0 (N.to_nat (count is_content evs)).
Proof.
  do 2 eexists. split; [vm_compute; reflexivity |]. split; [reflexivity |].
  refine (proj1 (batches_numbered_and_capped sample_sha two_token_batches "s1" None
                   paid_gate ["a"; "b"; "c"; "d"; "e"] GenReturn ∅ _ _ _ _)).
  - vm_compute; reflexivity.
  - reflexivity.
Defined.

Lemma sats_accounting_witness :
  exists ss' evs s,
    handleRequest sample_sha two_token_batches "s1" None paid_gate
      ["a"; "b"; "c"; "d"; "e"] GenReturn ∅ = Some (ss', evs) /\
    ss' !! "s1" = Some s /\ closed s = true /\
    totalSats s + count is_paused evs * satsPerBatch two_token_batches
    = count is_invoice evs * satsPerBatch two_token_batches.
Proof.
  do 2 eexists.
  edestruct (sats_accounting sample_sha two_token_batches "s1" None paid_gate
               ["a"; "b"; "c"; "d"; "e"] GenReturn ∅) as (s & Hs & Hcl & Hsat & _).
  - vm_compute; reflexivity.
  - exists s. split; [vm_compute; reflexivity |]. auto.
Defined.

Lemma wait_outcome_witness :
  exists ss',
    _waitForPayment sample_sha "s1" 30000 1000
      [mkRound 1000 [] (Resolved false) []; mkRound 31000 [] (Resolved false) []]
      {["s1" := mkSession "s1" 2 4 0 (Some (mkPending (Some "00ff") 3 "lnbc10n1stream"))
                  ∅ false]}
    = Some (false, ss') /\
    exists r, r ∈ [mkRound 1000 [] (Resolved false) []; mkRound 31000 [] (Resolved false) []]
              /\ (30000 <= r_now r - 1000)%Z.
Proof.
  eexists. split; [vm_compute; reflexivity |].
  refine (wait_outcome sample_sha "s1" 30000 1000 _
            {["s1" := mkSession "s1" 2 4 0
                        (Some (mkPending (Some "00ff") 3 "lnbc10n1stream")) ∅ false]} _
            (mkSession "s1" 2 4 0 (Some (mkPending (Some "00ff") 3 "lnbc10n1stream"))
               ∅ false) false _ _).
  - vm_compute; reflexivity.
  - vm_compute; reflexivity.
Defined.

Lemma proof_post_unlocks_wait_witness :
  exists ss',
    _waitForPayment sample_sha "s1" 30000 1000
      [mkRound 1000 [Json (Some "s1") (Some "c0ffee")] (Resolved false) [];
       mkRound 5000 [] (Resolved false) []]
      {["s1" := mkSession "s1" 2 4 0
                  (Some (mkPending (Some (sample_sha (hex_decode "c0ffee"))) 3
                           "lnbc10n1stream")) ∅ false]}
    = Some (true, ss').
Proof.
  eexists.
  refine (proj1 (proof_post_unlocks_wait sample_sha "s1" "c0ffee" 30000 1000
                   (mkRound 1000 [Json (Some "s1") (Some "c0ffee")] (Resolved false) [])
                   (mkRound 5000 [] (Resolved false) []) []
                   {["s1" := mkSession "s1" 2 4 0
                               (Some (mkPending (Some (sample_sha (hex_decode "c0ffee"))) 3
                                        "lnbc10n1stream")) ∅ false]}
                   (mkSession "s1" 2 4 0
                      (Some (mkPending (Some (sample_sha (hex_decode "c0ffee"))) 3
                               "lnbc10n1stream")) ∅ false)
                   (mkPending (Some (sample_sha (hex_decode "c0ffee"))) 3 "lnbc10n1stream")
                   _ _ _ _ _ _ _ _ _ _)).
  - vm_compute; reflexivity.
  - reflexivity.
  - reflexivity.
  - discriminate.
  - cbn [p_batchIndex paid]. apply not_elem_of_empty.
  - reflexivity.
  - reflexivity.
  - discriminate.
  - reflexivity.
  - reflexivity.
Defined.

End StreamMore.
